(** * The result-merging engine of the regression runner (run_helpers/tdown_h.py)

    A shallow embedding of [worseStatus], [getIP], [getFilesAndIP],
    [changeFieldPK], [replaceField], [getTestName], [addModels],
    [getField], [getOSName] and [combine_results], and the properties of
    the status lattice, of the re-keying and of the cross-file accumulation;
    with them the names that [run_test] gives to the files of a test run
    (run_helpers/llr_h.py) and the tags that [run_teardown] adds to the
    configuration before it calls [combine_results]
    (default_run/teardown.py, regression_constants.py).

    Text is [string]; a character is a code point below 256.  Python's
    [str] methods used by the source are embedded in [Module Py] with their
    index conventions (negative indices, [-1] for not found).  Integers are
    unbounded [Z]; the limit that recent Python versions put on the number of
    digits converted by [int] and [str] is not modelled.  Python exceptions
    are values of [exn]; a call that may raise returns an [outcome].  The
    default arguments of the source ([TEST_STATUS_DICT], [VM_DICTS], the
    archive directory) are fixed to their defaults. *)

From Stdlib Require Import ZArith Ascii String Lia.
From stdpp Require Import gmap strings list sorting.

Local Open Scope Z_scope.

(** ** Exceptions and outcomes *)

Inductive exn : Type :=
  | LookupError (msg : string)
  | ValueError
  | UnboundLocalError
  | TypeError
  | KeyError
  | FileNotFoundError.

(** [OutOfFuel] is the only outcome that is not a Python behaviour: it is what
    a bounded unrolling of [while True] gives when the bound is too small. *)
Inductive outcome (A : Type) : Type :=
  | Ok (a : A)
  | Raise (e : exn)
  | OutOfFuel.
Arguments Ok {A} a.
Arguments Raise {A} e.
Arguments OutOfFuel {A}.

Definition bind {A B : Type} (m : outcome A) (k : A -> outcome B) : outcome B :=
  match m with
  | Ok a => k a
  | Raise e => Raise e
  | OutOfFuel => OutOfFuel
  end.

Notation "'let*' x := m 'in' k" := (bind m (fun x => k))
  (at level 10, x pattern, m at level 100, k at level 200).

Definition raises {A : Type} (m : outcome A) : Prop :=
  exists e, m = Raise e.

(** ** Python string primitives *)

Module Py.

(** The characters that cannot be written inside a literal. *)
Definition dq : string := String "034"%char EmptyString.
Definition nl : string := String "010"%char EmptyString.
Definition cr : string := String "013"%char EmptyString.
Definition nul : string := String "000"%char EmptyString.

Definition len (s : string) : Z := Z.of_nat (String.length s).

Fixpoint take (n : nat) (s : string) : string :=
  match n, s with
  | S n', String c s' => String c (take n' s')
  | _, _ => EmptyString
  end.

Fixpoint drop (n : nat) (s : string) : string :=
  match n, s with
  | S n', String _ s' => drop n' s'
  | _, _ => s
  end.

(** A slice bound, as [PySlice_AdjustIndices] normalises it. *)
Definition norm_index (l i : Z) : Z :=
  if i <? 0 then Z.max 0 (i + l) else Z.min i l.

(** [s[a:b]] *)
Definition slice (s : string) (a b : Z) : string :=
  let a' := norm_index (len s) a in
  let b' := norm_index (len s) b in
  take (Z.to_nat (b' - a')) (drop (Z.to_nat a') s).

(** [s[a:]] and [s[:b]] *)
Definition slice_from (s : string) (a : Z) : string := slice s a (len s).
Definition slice_to (s : string) (b : Z) : string := slice s 0 b.

(** Offset of the first occurrence of [sub] in [s]. *)
Fixpoint first_index (sub s : string) : option nat :=
  if String.prefix sub s then Some O
  else match s with
       | EmptyString => None
       | String _ s' => option_map S (first_index sub s')
       end.

(** [s.find(sub, start)] *)
Definition find_from (s sub : string) (start : Z) : Z :=
  let st := if start <? 0 then Z.max 0 (start + len s) else start in
  if len s <? st then -1
  else match first_index sub (drop (Z.to_nat st) s) with
       | Some i => st + Z.of_nat i
       | None => -1
       end.

(** [s.find(sub)] *)
Definition find (s sub : string) : Z := find_from s sub 0.

(** Offset of the last occurrence of [sub] in [s]. *)
Fixpoint last_index (sub s : string) : option nat :=
  match s with
  | EmptyString => if String.prefix sub s then Some O else None
  | String _ s' =>
      match last_index sub s' with
      | Some i => Some (S i)
      | None => if String.prefix sub s then Some O else None
      end
  end.

(** [s.rfind(sub)] *)
Definition rfind (s sub : string) : Z :=
  match last_index sub s with
  | Some i => Z.of_nat i
  | None => -1
  end.

(** [sub in s] *)
Definition contains (s sub : string) : bool :=
  negb (find s sub =? -1).

(** The scan of [s.replace(old, new)] for a non-empty [old]: [skip] counts
    the characters of a match that are still to be passed over. *)
Fixpoint replace_go (old new : string) (skip : nat) (s : string) : string :=
  match s with
  | EmptyString => EmptyString
  | String c s' =>
      match skip with
      | S k => replace_go old new k s'
      | O =>
          if String.prefix old s
          then new +:+ replace_go old new (Nat.pred (String.length old)) s'
          else String c (replace_go old new O s')
      end
  end.

(** With an empty [old] Python puts [new] before every character and at
    the end. *)
Fixpoint intersperse (new s : string) : string :=
  match s with
  | EmptyString => new
  | String c s' => new +:+ String c (intersperse new s')
  end.

(** [s.replace(old, new)] *)
Definition replace (s old new : string) : string :=
  match old with
  | EmptyString => intersperse new s
  | String _ _ => replace_go old new O s
  end.

(** [str.isspace] on one code point below 256. *)
Definition is_space (c : ascii) : bool :=
  let n := N_of_ascii c in
  ((9 <=? n) && (n <=? 13) || (28 <=? n) && (n <=? 32)
     || (n =? 133) || (n =? 160))%N.

Fixpoint lstrip (s : string) : string :=
  match s with
  | String c s' => if is_space c then lstrip s' else s
  | EmptyString => EmptyString
  end.

Fixpoint rstrip (s : string) : string :=
  match s with
  | EmptyString => EmptyString
  | String c s' =>
      match rstrip s' with
      | EmptyString => if is_space c then EmptyString else String c EmptyString
      | r => String c r
      end
  end.

Definition strip (s : string) : string := rstrip (lstrip s).

Definition digit_val (c : ascii) : option Z :=
  let n := N_of_ascii c in
  if ((48 <=? n) && (n <=? 57))%N then Some (Z.of_N n - 48) else None.

(** Decimal digits, a single underscore allowed between two digits. *)
Fixpoint digits_acc (acc : Z) (after_digit : bool) (s : string) : option Z :=
  match s with
  | EmptyString => if after_digit then Some acc else None
  | String c s' =>
      if Ascii.eqb c "_"
      then (if after_digit then digits_acc acc false s' else None)
      else match digit_val c with
           | Some d => digits_acc (10 * acc + d) true s'
           | None => None
           end
  end.

Definition parse_nat (s : string) : option Z := digits_acc 0 false s.

(** [int(s)], [None] standing for [ValueError]. *)
Definition int_of_str (s : string) : option Z :=
  match strip s with
  | String "+" r => parse_nat r
  | String "-" r => option_map Z.opp (parse_nat r)
  | r => parse_nat r
  end.

Definition int (s : string) : outcome Z :=
  match int_of_str s with
  | Some z => Ok z
  | None => Raise ValueError
  end.

Definition digit_char (d : N) : ascii := ascii_of_N (48 + d).

Fixpoint digits_of (fuel : nat) (n : N) (acc : string) : string :=
  let acc' := String (digit_char (n mod 10)) acc in
  match fuel with
  | O => acc'
  | S f => if (n / 10 =? 0)%N then acc' else digits_of f (n / 10)%N acc'
  end.

(** [str(z)] for an [int] *)
Definition str (z : Z) : string :=
  let n := Z.abs_N z in
  let ds := digits_of (N.to_nat (N.log2 n)) n EmptyString in
  if z <? 0 then String "-" ds else ds.

(** [l.index(x)] for an [x] that is in [l]; [None] otherwise. *)
Fixpoint index (l : list string) (x : string) : option nat :=
  match l with
  | [] => None
  | y :: l' => if String.eqb x y then Some O else option_map S (index l' x)
  end.

(** [x in l] *)
Definition mem (x : string) (l : list string) : bool :=
  existsb (String.eqb x) l.

(** [s.split()]: the maximal runs of characters that are not white space.
    [cur] is the run being read, [None] between two runs. *)
Fixpoint split_go (cur : option string) (s : string) : list string :=
  match s with
  | EmptyString => match cur with Some w => [w] | None => [] end
  | String c s' =>
      if is_space c
      then match cur with
           | Some w => w :: split_go None s'
           | None => split_go None s'
           end
      else split_go
             (Some (match cur with Some w => w | None => EmptyString end
                    +:+ String c EmptyString)) s'
  end.

Definition split (s : string) : list string := split_go None s.

(** [sep.join(l)] *)
Fixpoint join (sep : string) (l : list string) : string :=
  match l with
  | [] => EmptyString
  | [x] => x
  | x :: l' => x +:+ sep +:+ join sep l'
  end.

End Py.

Import Py.

(** ** regression_constants.TEST_STATUS_DICT *)

Record status_dict : Type := {
  pass_status : list string;
  neutral_status : list string;
  error_status : list string;
  off_status : list string;
  skipped_status : list string;
  wrong_os_status : list string
}.

Definition TEST_STATUS_DICT : status_dict := {|
  pass_status := ["Pass"; "Passed"];
  neutral_status := ["Warning"];
  error_status := ["Error"; "Fail"; "Failed"; "Fatal"];
  off_status := ["Off"];
  skipped_status := ["Skipped"];
  wrong_os_status := ["Wrong Embedded OS"]
|}.

(** [test_status_dict.values()], in the insertion order of the literal. *)
Definition values (d : status_dict) : list (list string) :=
  [pass_status d; neutral_status d; error_status d;
   off_status d; skipped_status d; wrong_os_status d].

(** [test_status_dict['skipped_status'][0]] *)
Definition skipped0 (d : status_dict) : string :=
  hd EmptyString (skipped_status d).

(** ** worseStatus (tdown_h.py, lines 522-541) *)

Definition possible_test_statuses (d : status_dict) : list string :=
  skipped_status d ++ off_status d ++ wrong_os_status d ++ pass_status d
    ++ neutral_status d ++ error_status d.

Definition worseStatus_in (d : status_dict) (statOne statTwo : string)
  : outcome string :=
  let possible := possible_test_statuses d in
  if negb (mem statOne possible) && negb (mem statTwo possible)
  then Raise (LookupError
                ("Both are invalid status: " +:+ statOne +:+ " " +:+ statTwo))
  else if negb (mem statOne possible) then Ok statTwo
  else if negb (mem statTwo possible) then Ok statOne
  else
    match index possible statOne, index possible statTwo with
    | Some idxOne, Some idxTwo =>
        Ok (if (idxTwo <? idxOne)%nat then statOne else statTwo)
    | _, _ => Raise ValueError
    end.

Definition worseStatus : string -> string -> outcome string :=
  worseStatus_in TEST_STATUS_DICT.

(** ** getIP (lines 502-518)

    The function returns the slice of the name, or the integer [-1]. *)

Inductive ip_value : Type :=
  | IPStr (s : string)
  | IPInt (z : Z).

Definition getIP (fileName : string) : ip_value :=
  let start := find fileName "test_" in
  let ext := find fileName ".json" in
  if negb (start =? -1) && negb (ext =? -1)
  then IPStr (slice fileName (start + 5) (ext - 7))
  else IPInt (-1).

(** ** The literals of the source that contain quotes or newlines *)

Definition pk_marker : string := dq +:+ "pk" +:+ dq +:+ ": ".
Definition pk_colon : string := dq +:+ "pk" +:+ dq +:+ ":".
Definition status_colon : string := dq +:+ "status" +:+ dq +:+ ":".
Definition fields_open : string := dq +:+ "fields" +:+ dq +:+ ": {" +:+ nl.
Definition chassisObject : string := "rsinterface.chassis".

(** ** changeFieldPK (lines 241-251)

    When the field is absent the source logs 'JSON may be malformed' and
    then evaluates [int(pk)] with [pk] never assigned. *)

Definition changeFieldPK (modelData fieldName : string) (highestKey : Z)
  : outcome (string * Z) :=
  let fieldPK := dq +:+ fieldName +:+ dq +:+ ": " in
  let pkStart := find modelData fieldPK in
  if negb (pkStart =? -1) then
    let pkEnd := find_from modelData "," pkStart in
    let pk := slice modelData (pkStart + len fieldName + 4) pkEnd in
    let* z := int pk in
    let modelData :=
      replace modelData (fieldPK +:+ pk) (fieldPK +:+ str (z + highestKey)) in
    Ok (modelData, z + highestKey)
  else Raise UnboundLocalError.

(** ** replaceField (lines 431-439) and getTestName (lines 441-446) *)

Definition replaceField (modelData : string) (pk : Z)
    (fieldName newFieldValue : string) : string :=
  let start := find modelData (pk_marker +:+ str pk +:+ ",") in
  let oldFieldStart := find_from modelData (fieldName +:+ dq +:+ ": ") start in
  let oldFieldStart := oldFieldStart + len fieldName + 2 in
  let oldFieldEnd := find_from modelData "," oldFieldStart in
  let otherEnd := find_from modelData "}" oldFieldStart in
  let oldFieldEnd :=
    if (negb (otherEnd =? -1) && (otherEnd <? oldFieldEnd))
       || (oldFieldEnd =? -1)
    then otherEnd else oldFieldEnd in
  slice_to modelData oldFieldStart +:+ dq +:+ newFieldValue +:+ dq
    +:+ slice_from modelData oldFieldEnd.

Definition getTestName (modelData : string) (testPK : Z) : string :=
  let string_ := dq +:+ "testName" +:+ dq +:+ ": " in
  let testData := find modelData (pk_marker +:+ str testPK +:+ ",") in
  let testNameStart := find_from modelData string_ (testData + len string_) in
  let testNameEnd := find_from modelData "," testNameStart in
  slice modelData (testNameStart + len string_ + 1) (testNameEnd - 1).

(** ** addModels (lines 272-427) *)

(** [testStatus] is a Python dict from test key to status; the source
    iterates over it at the end, so the insertion order is kept. *)
Definition dict : Type := list (Z * string).

Fixpoint dict_get (k : Z) (d : dict) : option string :=
  match d with
  | [] => None
  | (k', v) :: d' => if k =? k' then Some v else dict_get k d'
  end.

(** [d[k] = v]: an existing key keeps its place. *)
Fixpoint dict_set (k : Z) (v : string) (d : dict) : dict :=
  match d with
  | [] => [(k, v)]
  | (k', v') :: d' =>
      if k =? k' then (k, v) :: d' else (k', v') :: dict_set k v d'
  end.

Definition dict_mem (k : Z) (d : dict) : bool :=
  match dict_get k d with Some _ => true | None => false end.

(** [d[k]] *)
Definition dict_item (k : Z) (d : dict) : outcome string :=
  match dict_get k d with Some v => Ok v | None => Raise KeyError end.

(** [sum([v for v in test_status_dict.values()], [])] *)
Definition all_statuses (d : status_dict) : list string := concat (values d).

(** The variables of the [while True] loop.  [emitted] is not a variable of
    the source: it lists, oldest first, the local key [int(prevPK)] and the
    text of every record that line 407 appends to [models]. *)
Record loop_state : Type := {
  fileData : string;
  models : string;
  osStatus : string;
  testStatus : dict;
  highestKey : Z;
  emitted : list (Z * string)
}.

(** Lines 349-370: the record is a test. *)
Definition test_branch (prevHighestKey osKey : Z) (nextModel : string)
    (ts : dict) (os : string) : outcome (string * dict * string) :=
  let nextModel :=
    replace nextModel fields_open
      (fields_open +:+ "    " +:+ dq +:+ "os" +:+ dq +:+ ": " +:+ str osKey
         +:+ "," +:+ nl) in
  let pkStart :=
    find_from nextModel pk_colon (find nextModel "rsinterface.test") in
  if negb (pkStart =? -1) then
    let pkEnd := find_from nextModel "," pkStart in
    let pk := slice nextModel (pkStart + len pk_colon) pkEnd in
    let* z := int pk in
    let testPK := z + prevHighestKey in
    let testStatusStart := find_from nextModel status_colon pkEnd in
    let thisTestStatus :=
      if testStatusStart =? -1 then skipped0 TEST_STATUS_DICT
      else
        let testStatusEnd := find_from nextModel "}}" testStatusStart in
        slice nextModel (testStatusStart + len status_colon + 2)
          (testStatusEnd - 1) in
    let ts := if dict_mem testPK ts then ts else dict_set testPK thisTestStatus ts in
    let* cur := dict_item testPK ts in
    let* os := worseStatus os cur in
    Ok (nextModel, ts, os)
  else Ok (nextModel, ts, os).

(** Lines 382-385: the first status of the reversed vocabulary that occurs
    in the text. *)
Definition first_status_in (nextModel : string) : option string :=
  List.find (fun status => negb (find nextModel status =? -1))
    (rev (all_statuses TEST_STATUS_DICT)).

(** Lines 373-388: the record is a log. *)
Definition log_branch (prevHighestKey : Z) (nextModel : string)
    (ts : dict) (os : string) : outcome (string * dict * string) :=
  let* (nextModel, testPK) := changeFieldPK nextModel "test" prevHighestKey in
  let ts :=
    if dict_mem testPK ts then ts
    else dict_set testPK (skipped0 TEST_STATUS_DICT) ts in
  let* ts :=
    match first_status_in nextModel with
    | Some status =>
        let* cur := dict_item testPK ts in
        let* w := worseStatus cur status in
        Ok (dict_set testPK w ts)
    | None => Ok ts
    end in
  let* cur := dict_item testPK ts in
  let* os := worseStatus os cur in
  Ok (nextModel, ts, os).

(** Lines 348-398: the dispatch on the kind of the record.  The assignments
    [testPK = nextModel[0]] of lines 393 and 398 read the first character of
    a text that holds the name of the model, and [testPK] is not read
    afterwards: they are left out. *)
Definition kind_branch (prevHighestKey osKey : Z) (nextModel : string)
    (ts : dict) (os : string) : outcome (string * dict * string) :=
  if negb (find nextModel "rsinterface.test" =? -1) then
    test_branch prevHighestKey osKey nextModel ts os
  else if negb (find nextModel "rsinterface.log" =? -1) then
    log_branch prevHighestKey nextModel ts os
  else if negb (find nextModel "rsinterface.message" =? -1) then
    let* (nextModel, _) := changeFieldPK nextModel "log" prevHighestKey in
    Ok (nextModel, ts, os)
  else if negb (find nextModel "rsinterface.cpu" =? -1)
          || negb (find nextModel "rsinterface.dut" =? -1) then
    let* (nextModel, _) := changeFieldPK nextModel "test" prevHighestKey in
    Ok (nextModel, ts, os)
  else Ok (nextModel, ts, os).

(** Lines 330-341: the text of the primary key of a record, [None] when the
    record has no [pk_marker]. *)
Definition read_pk (nextModel : string) : option string :=
  let pkLoc := find nextModel pk_marker in
  if pkLoc =? -1 then None
  else
    let pkLoc := pkLoc + 6 in
    let comma := find_from nextModel "," pkLoc in
    Some (slice nextModel pkLoc comma).

(** One turn of the loop (lines 303-409): [None] is [break]. *)
Definition addModels_step (prevHighestKey osKey : Z) (st : loop_state)
  : outcome (option loop_state) :=
  let startModel := find (fileData st) "{" in
  if startModel =? -1 then Ok None
  else
    let endModel := find (fileData st) "}}" in
    let nextModel := slice (fileData st) startModel (endModel + 4) in
    let rest := slice_from (fileData st) (endModel + 4) in
    let isChassis := find nextModel chassisObject in
    if negb (isChassis =? -1) then
      Ok (Some {| fileData := rest; models := models st;
                  osStatus := osStatus st; testStatus := testStatus st;
                  highestKey := highestKey st; emitted := emitted st |})
    else
      let nextModel :=
        if contains nextModel "}} ]" then replace nextModel "}} ]" "}}"
        else nextModel in
      match read_pk nextModel with
      | None => Ok None
      | Some prevPK =>
          let* k := int prevPK in
          let highestKey' :=
            if highestKey st <? k then k else highestKey st in
          let* (nextModel', ts, os) :=
            kind_branch prevHighestKey osKey nextModel
              (testStatus st) (osStatus st) in
          let pk := k + prevHighestKey in
          let nextModel' :=
            replace nextModel' (pk_marker +:+ prevPK +:+ ",")
              (pk_marker +:+ str pk +:+ ",") in
          Ok (Some {| fileData := rest; models := models st +:+ nextModel';
                      osStatus := os; testStatus := ts;
                      highestKey := highestKey';
                      emitted := emitted st ++ [(k, nextModel')] |})
      end.

Fixpoint addModels_loop (fuel : nat) (prevHighestKey osKey : Z)
    (st : loop_state) : outcome loop_state :=
  match fuel with
  | O => OutOfFuel
  | S fuel' =>
      let* r := addModels_step prevHighestKey osKey st in
      match r with
      | None => Ok st
      | Some st' => addModels_loop fuel' prevHighestKey osKey st'
      end
  end.

(** Lines 292-300. *)
Definition find_chassisName (fileData : string) : string :=
  let hasChassis := find fileData chassisObject in
  if negb (hasChassis =? -1) then
    let start := "chassisName" +:+ dq +:+ ": " in
    let chassisNameStart := find_from fileData start hasChassis in
    let chassisNameEnd := find_from fileData "," chassisNameStart in
    slice fileData (chassisNameStart + len start + 1) (chassisNameEnd - 1)
  else EmptyString.

(** Lines 412-420: the status of every test that did not pass is written
    back into the blob, and a row [osName, testName] goes to errorFile.csv. *)
Fixpoint record_failures (osName : string) (items : dict) (models : string)
    (rows : list (string * string)) : string * list (string * string) :=
  match items with
  | [] => (models, rows)
  | (key, value) :: items' =>
      if negb (mem value (pass_status TEST_STATUS_DICT)) then
        let models := replaceField models key "status" value in
        let testName := getTestName models key in
        record_failures osName items' models (rows ++ [(osName, testName)])
      else record_failures osName items' models rows
  end.

(** What addModels returns ([ret_models], [ret_highestKey], [ret_osStatus],
    [ret_chassisName]), the rows it appends to errorFile.csv, and the
    records it emitted. *)
Record addModels_result : Type := {
  ret_models : string;
  ret_highestKey : Z;
  ret_osStatus : string;
  ret_chassisName : string;
  ret_rows : list (string * string);
  ret_emitted : list (Z * string)
}.

Definition addModels_init (data : string) : loop_state :=
  {| fileData := replace data cr nl; models := "[";
     osStatus := skipped0 TEST_STATUS_DICT; testStatus := [];
     highestKey := 0; emitted := [] |}.

Definition addModels_finish (osName chassisName : string)
    (prevHighestKey : Z) (st : loop_state) : addModels_result :=
  let '(models, rows) :=
    record_failures osName (testStatus st) (models st) [] in
  {| ret_models := models +:+ "]";
     ret_highestKey := prevHighestKey + highestKey st;
     ret_osStatus := osStatus st;
     ret_chassisName := chassisName;
     ret_rows := rows;
     ret_emitted := emitted st |}.

(** The loop shortens [fileData] at every turn that does not leave it, so
    one more turn than it has characters is enough (see
    [addModels_loop_total]). *)
Definition addModels (data : string) (prevHighestKey osKey : Z)
    (osName : string) : outcome addModels_result :=
  let st := addModels_init data in
  let chassisName := find_chassisName (fileData st) in
  let* st' :=
    addModels_loop (S (String.length (fileData st))) prevHighestKey osKey st in
  Ok (addModels_finish osName chassisName prevHighestKey st').

(** ** The run: configuration, clock and result directories *)

(** [config['vms']] and [config['tags']]; the directories named by the
    configuration are part of the [world]. *)
Record config : Type := {
  vms : list string;
  tags : string
}.

(** [now] is [str(datetime.now())].  [logic_results] holds the contents of
    the files of [config['run_logic_results']], [None] when the directory
    does not exist.  [listdir os] lists the result directory of an OS, empty
    also when the directory is missing ([getFilesAndIP] returns empty lists
    then); [files] maps the OS and the name of a result file to its text. *)
Record world : Type := {
  now : string;
  logic_results : option (list string);
  listdir : string -> list string;
  files : gmap (string * string) string
}.

Definition read_file (fs : gmap (string * string) string)
    (osName file : string) : outcome string :=
  match fs !! (osName, file) with
  | Some data => Ok data
  | None => Raise FileNotFoundError
  end.

(** [d[k]] on the dictionaries of [combine_results]. *)
Definition item {V : Type} (d : gmap string V) (k : string) : outcome V :=
  match d !! k with
  | Some v => Ok v
  | None => Raise KeyError
  end.

(** ** getFilesAndIP (lines 460-494)

    A result file is text that can be read: the handler of [ValueError]
    of lines 488-491 is never entered. *)

(** [files], [inDB], [ip], and the lines sent to [log.LOG_LVL_1.error]. *)
Record discovery : Type := {
  d_files : list string;
  d_inDB : gmap string bool;
  d_ip : list string;
  d_errors : list string
}.

(** [l.remove(x)] for an [x] that is in [l]. *)
Fixpoint list_remove (x : string) (l : list string) : list string :=
  match l with
  | [] => []
  | y :: l' => if String.eqb x y then l' else y :: list_remove x l'
  end.

(** The loop of lines 473-491 over the names still to visit. *)
Fixpoint scan_files (fs : gmap (string * string) string) (osName : string)
    (todo remove : list string) (inDB : gmap string bool)
    (ip errors : list string)
  : outcome (list string * gmap string bool * list string * list string) :=
  match todo with
  | [] => Ok (remove, inDB, ip, errors)
  | file :: todo' =>
      let* fileData := read_file fs osName file in
      if negb (find fileData "File in database" =? -1) then
        scan_files fs osName todo' (remove ++ [file]) inDB ip errors
      else
        let inDB := <[file := false]> inDB in
        match getIP file with
        | IPStr fileIP =>
            scan_files fs osName todo' remove inDB (ip ++ [fileIP]) errors
        | IPInt _ =>
            scan_files fs osName todo' remove inDB ip
              (errors ++ ["Invalid file name: " +:+ file +:+ nl
                            +:+ ", adding with IP -1"])
        end
  end.

Definition getFilesAndIP (fs : gmap (string * string) string)
    (names : list string) (osName : string) : outcome discovery :=
  let* (remove, inDB, ip, errors) :=
    scan_files fs osName names [] ∅ [] [] in
  Ok {| d_files := fold_left (fun files f => list_remove f files) remove names;
        d_inDB := inDB; d_ip := ip; d_errors := errors |}.

(** ** combine_results (lines 20-212)

    The intersection [ip_in_all] and the count [fileCount] of the source
    are computed and never read; they are left out. *)

(** The variables of [combine_results] that the loops update.  [fs] is the
    content of the result files, which the run appends to; [rows] are the
    rows sent to errorFile.csv.  [extracted] is not a variable of the
    source: it lists, for every call of [addModels], the counter passed as
    [prevHighestKey] and the local keys [int(prevPK)] of the records that the
    call emitted. *)
Record acc : Type := {
  highest_key : Z;
  json_data_combined : string;
  test_result_status : string;
  chassis_key : gmap string Z;
  chassis_status : gmap string string;
  chassis_name : gmap string string;
  os_key : gmap string Z;
  os_status : gmap string string;
  all_os_objects : string;
  fs : gmap (string * string) string;
  rows : list (string * string);
  extracted : list (Z * list Z)
}.

(** The keys [int(prevPK) + prevHighestKey] of the re-keyed records. *)
Definition rekeyed (a : acc) : list Z :=
  concat (map (fun e => map (Z.add (fst e)) (snd e)) (extracted a)).

(** [list(set(a) | set(b))]: the order is the one of the set. *)
Definition set_union_list (a b : list string) : list string :=
  elements ((list_to_set a : gset string) ∪ list_to_set b).

(** Lines 105-112. *)
Definition union_chassis (ip_per_os : list (list string)) : list string :=
  fold_left set_union_list (tl ip_per_os) (hd [] ip_per_os).

(** Lines 134-138, for one chassis. *)
Fixpoint alloc_os (ip : string) (oss : list (string * list string)) (a : acc)
  : acc :=
  match oss with
  | [] => a
  | (osName, ips) :: oss' =>
      if mem ip ips then
        alloc_os ip oss'
          {| highest_key := highest_key a + 1;
             json_data_combined := json_data_combined a;
             test_result_status := test_result_status a;
             chassis_key := chassis_key a;
             chassis_status := chassis_status a;
             chassis_name := chassis_name a;
             os_key := <[osName +:+ ip := highest_key a]> (os_key a);
             os_status :=
               <[osName +:+ ip := skipped0 TEST_STATUS_DICT]> (os_status a);
             all_os_objects := all_os_objects a;
             fs := fs a; rows := rows a; extracted := extracted a |}
      else alloc_os ip oss' a
  end.

(** Lines 124-138. *)
Fixpoint alloc_keys (all_chassis : list string)
    (oss : list (string * list string)) (a : acc) : acc :=
  match all_chassis with
  | [] => a
  | ip :: rest =>
      let a' :=
        {| highest_key := highest_key a + 1;
           json_data_combined := json_data_combined a;
           test_result_status := test_result_status a;
           chassis_key := <[ip := highest_key a]> (chassis_key a);
           chassis_status :=
             <[ip := skipped0 TEST_STATUS_DICT]> (chassis_status a);
           chassis_name := <[ip := EmptyString]> (chassis_name a);
           os_key := os_key a; os_status := os_status a;
           all_os_objects := all_os_objects a;
           fs := fs a; rows := rows a; extracted := extracted a |} in
      alloc_keys rest oss (alloc_os ip oss a')
  end.

(** The text of an OS record (lines 171-173). *)
Definition os_object (key chassis : Z) (osName status : string) : string :=
  "{" +:+ dq +:+ "model" +:+ dq +:+ ": " +:+ dq +:+ "rsinterface.os" +:+ dq
  +:+ ", " +:+ pk_marker +:+ str key +:+ ", " +:+ fields_open
  +:+ "    " +:+ dq +:+ "chassis" +:+ dq +:+ ": " +:+ str chassis +:+ ","
  +:+ nl +:+ "    " +:+ dq +:+ "operatingSystem" +:+ dq +:+ ": " +:+ dq
  +:+ osName +:+ dq +:+ "," +:+ nl +:+ "    " +:+ dq +:+ "status" +:+ dq
  +:+ ": " +:+ dq +:+ status +:+ dq +:+ "}}".

(** [osName + ip], where [ip] is what [getIP] returned. *)
Definition os_ip (osName : string) (ip : ip_value) : outcome (string * string) :=
  match ip with
  | IPStr s => Ok (osName +:+ s, s)
  | IPInt _ => Raise TypeError
  end.

(** Lines 142-184, for one file of one OS. *)
Definition merge_file (osName : string) (inDB : gmap string bool)
    (filename : string) (a : acc) : outcome acc :=
  let* known := item inDB filename in
  if known then Ok a
  else
    let* raw := read_file (fs a) osName filename in
    let ip := getIP filename in
    let data := replace raw nul EmptyString in
    let* (os_ip_key, ip) := os_ip osName ip in
    let* this_os_key := item (os_key a) os_ip_key in
    let* ret := addModels data (highest_key a) this_os_key osName in
    let* old_os_status := item (os_status a) os_ip_key in
    let* new_os_status := worseStatus old_os_status (ret_osStatus ret) in
    let* old_chassis_status := item (chassis_status a) ip in
    let* new_chassis_status := worseStatus old_chassis_status new_os_status in
    let* new_run_status :=
      worseStatus (test_result_status a) new_chassis_status in
    let* objs :=
      if negb (contains (all_os_objects a)
                 (pk_marker +:+ str this_os_key +:+ ","))
      then
        let* this_chassis_key := item (chassis_key a) ip in
        Ok (all_os_objects a
              +:+ os_object this_os_key this_chassis_key osName new_os_status)
      else
        Ok (replaceField (all_os_objects a) this_os_key "status"
              new_os_status) in
    let* old_name := item (chassis_name a) ip in
    Ok {| highest_key := ret_highestKey ret;
          json_data_combined := json_data_combined a +:+ ret_models ret;
          test_result_status := new_run_status;
          chassis_key := chassis_key a;
          chassis_status := <[ip := new_chassis_status]> (chassis_status a);
          chassis_name :=
            if String.eqb old_name EmptyString
            then <[ip := ret_chassisName ret]> (chassis_name a)
            else chassis_name a;
          os_key := os_key a;
          os_status := <[os_ip_key := new_os_status]> (os_status a);
          all_os_objects := objs;
          fs :=
            <[(osName, filename) := raw +:+ nl +:+ "File in database"]> (fs a);
          rows := rows a ++ ret_rows ret;
          extracted :=
            extracted a ++ [(highest_key a, map fst (ret_emitted ret))]
       |}.

(** Lines 142-184, for the files of one OS. *)
Fixpoint merge_files (osName : string) (inDB : gmap string bool)
    (filenames : list string) (a : acc) : outcome acc :=
  match filenames with
  | [] => Ok a
  | filename :: rest =>
      let* a' := merge_file osName inDB filename a in
      merge_files osName inDB rest a'
  end.

(** Lines 141-184. *)
Fixpoint merge_oses (oss : list (string * discovery)) (a : acc) : outcome acc :=
  match oss with
  | [] => Ok a
  | (osName, d) :: rest =>
      let* a' := merge_files osName (d_inDB d) (d_files d) a in
      merge_oses rest a'
  end.

(** Lines 100-102. *)
Fixpoint discover (w : world) (os_list : list string)
  : outcome (list (string * discovery)) :=
  match os_list with
  | [] => Ok []
  | os_name :: rest =>
      let* d := getFilesAndIP (files w) (listdir w os_name) os_name in
      let* ds := discover w rest in
      Ok ((os_name, d) :: ds)
  end.

(** The text of a chassis record (lines 194-197). *)
Definition chassis_object (key : Z) (name ip status : string) : string :=
  let fullIP := "192.168." +:+ replace ip "_" "." in
  "{" +:+ dq +:+ "model" +:+ dq +:+ ": " +:+ dq +:+ "rsinterface.chassis"
  +:+ dq +:+ ", " +:+ pk_marker +:+ str key +:+ ", " +:+ fields_open
  +:+ "    " +:+ dq +:+ "chassisName" +:+ dq +:+ ": " +:+ dq +:+ name +:+ dq
  +:+ "," +:+ nl +:+ "    " +:+ dq +:+ "ipNum" +:+ dq +:+ ": " +:+ dq
  +:+ fullIP +:+ dq +:+ "," +:+ nl +:+ "    " +:+ dq +:+ "status" +:+ dq
  +:+ ": " +:+ dq +:+ status +:+ dq +:+ "}}," +:+ nl.

(** A chassis record before it is written: key, name, token and status. *)
Record chassis_record : Type := {
  c_key : Z;
  c_name : string;
  c_ip : string;
  c_status : string
}.

(** Lines 193-197: one record for every entry of [all_chassis]. *)
Fixpoint chassis_records (a : acc) (all_chassis : list string)
  : outcome (list chassis_record) :=
  match all_chassis with
  | [] => Ok []
  | ip :: rest =>
      let* key := item (chassis_key a) ip in
      let* name := item (chassis_name a) ip in
      let* status := item (chassis_status a) ip in
      let* rs := chassis_records a rest in
      Ok ({| c_key := key; c_name := name; c_ip := ip; c_status := status |}
            :: rs)
  end.

Definition render_chassis (r : chassis_record) : string :=
  chassis_object (c_key r) (c_name r) (c_ip r) (c_status r).

Fixpoint concat_str (l : list string) : string :=
  match l with
  | [] => EmptyString
  | s :: l' => s +:+ concat_str l'
  end.

(** The text of the date record (lines 200-202). *)
Definition date_object (date_key : Z) (stringdate tags : string) : string :=
  "{" +:+ dq +:+ "model" +:+ dq +:+ ": " +:+ dq +:+ "rsinterface.date" +:+ dq
  +:+ ", " +:+ pk_marker +:+ str date_key +:+ ", " +:+ fields_open
  +:+ "    " +:+ dq +:+ "date" +:+ dq +:+ ": " +:+ dq +:+ stringdate +:+ dq
  +:+ "," +:+ nl +:+ "    " +:+ dq +:+ "status" +:+ dq +:+ ": " +:+ dq
  +:+ tags +:+ dq +:+ " }} ]".

(** Line 207. *)
Definition normalise (s : string) : string :=
  let s := replace s "][" EmptyString in
  let s := replace s "}{" ("}," +:+ nl +:+ "{") in
  let s := replace s ", {" ("," +:+ nl +:+ "{") in
  let s := replace s ",  {" ("," +:+ nl +:+ "{") in
  replace s ("}" +:+ nl +:+ "{") ("}," +:+ nl +:+ "{").

(** What a run leaves: the text written to the archive, the final value of
    the variables, the key of the date record, the chassis tokens and the
    chassis records written, and the lines logged as errors.  *)
Record merged : Type := {
  archive : string;
  final : acc;
  date_key : Z;
  all_chassis : list string;
  chassis_written : list chassis_record;
  errors_logged : list string
}.

Definition acc_init (w : world) : acc :=
  {| highest_key := 2;
     json_data_combined :=
       match logic_results w with
       | Some datas => concat_str datas
       | None => EmptyString
       end;
     test_result_status := skipped0 TEST_STATUS_DICT;
     chassis_key := ∅; chassis_status := ∅; chassis_name := ∅;
     os_key := ∅; os_status := ∅;
     all_os_objects := nl;
     fs := files w; rows := []; extracted := [] |}.

(** [combine_results]: [Ok None] is the early [return] of line 46.  With no
    OS in the run [all_chassis] is never assigned, and line 193 reads it. *)
Definition combine_results (cfg : config) (w : world)
  : outcome (option merged) :=
  let os_list := vms cfg in
  if (length os_list =? 0)%nat && negb (bool_decide (is_Some (logic_results w)))
  then Ok None
  else
    let date := now w in
    let stringdate := slice_to date (find date ".") in
    let date_key := 1 in
    let a := acc_init w in
    let* (a, all_chassis, errors) :=
      if negb (length os_list =? 0)%nat then
        let* ds := discover w os_list in
        let ip_per_os := map (fun d => d_ip (snd d)) ds in
        let all_chassis := union_chassis ip_per_os in
        let a := alloc_keys all_chassis (zip os_list ip_per_os) a in
        let* a := merge_oses ds a in
        Ok (a, all_chassis, concat (map (fun d => d_errors (snd d)) ds))
      else Raise UnboundLocalError in
    let* records := chassis_records a all_chassis in
    let allChassisObjects := concat_str (map render_chassis records) in
    let newDateObject := date_object date_key stringdate (tags cfg) in
    let closingBracket := rfind (json_data_combined a) "]" in
    let json :=
      slice_to (json_data_combined a) closingBracket
        +:+ all_os_objects a +:+ allChassisObjects +:+ newDateObject in
    Ok (Some {| archive := normalise json; final := a; date_key := date_key;
                all_chassis := all_chassis; chassis_written := records;
                errors_logged := errors |}).

(** ** getField and getOSName (tdown_h.py, lines 215-231)

    [None] stands for the [IndexError] that [split()[0]] raises on a text
    without a word. *)

Definition getField (data : string) (idx : Z) : option string :=
  let colon := find_from data ":" idx in
  hd_error (split (slice data (colon + 1) (find_from data "," (colon + 1)))).

(** The loop of lines 222-231 is entered, since [osLocation] is 0, and its
    first turn returns. *)
Definition getOSName (osPK : Z) (data : string) : option string :=
  let osLocation := find_from data "rsinterface.os" 0 in
  let lookFrom := osLocation + len "rsinterface.os" in
  let osNameIdx := find_from data "operatingSystem" lookFrom in
  option_map (fun osName => replace osName dq EmptyString)
    (getField data osNameIdx).

(** ** The names of the files of a test run (llr_h.py, lines 310-311)

    [short_name] is the short name of the virtual machine and
    [ip_device_num] the last number of the address of the chassis. *)

Definition result_file_name (short_name : string) (ip_device_num : Z)
  : string :=
  short_name +:+ "_test_101_" +:+ str ip_device_num +:+ "_result.json".

Definition testrunner_log_name (short_name : string) (ip_device_num : Z)
  : string :=
  short_name +:+ "_101_" +:+ str ip_device_num +:+ ".txt".

(** ** The tags that the teardown adds (default_run/teardown.py, lines
    38-47; regression_constants.py, lines 85-100)

    The rest of [run_teardown] switches the hardware off, calls
    [combine_results] with the configuration that holds these tags, commits
    and cleans up; only the tags are embedded. *)

Definition TAG_DELIM : string := "#".

(** [str(l)] for a list of [int], which is what ['{}'.format(l)] writes. *)
Definition str_list (l : list Z) : string :=
  "[" +:+ join ", " (map str l) +:+ "]".

Definition EXPECTED_TEST_TAG (count : Z) : string :=
  "--expected_" +:+ str count +:+ TAG_DELIM.

Definition ACTUAL_TEST_TAG (count : Z) : string :=
  "--actual_" +:+ str count +:+ TAG_DELIM.

Definition IOMS_OFF_TAG (ioms : list Z) : string :=
  "--iomsoff_" +:+ str_list ioms +:+ TAG_DELIM.

Definition AUTOGEN_DIFF_TAG (diff_list : list Z) : string :=
  "AUTOGENDIFF Detected: " +:+ str_list diff_list.

(** [sorted(list(set(a) - set(b)))] *)
Definition sorted_difference (a b : list Z) : list Z :=
  merge_sort Z.le (elements ((list_to_set a : gset Z) ∖ list_to_set b)).

(** The entries of the configuration that lines 38-47 read.
    [active_host_nums] is [[i.host_num for i in config['active_ioms']]];
    [initial_ioms] holds the numbers of the IOMs that the run started with
    (setup_h.py, line 72). *)
Record tag_config : Type := {
  config_tags : string;
  expected_test_count : Z;
  actual_test_count : Z;
  initial_ioms : list Z;
  active_host_nums : list Z;
  autogen_diff_xmls : list Z
}.

Definition off_ioms (c : tag_config) : list Z :=
  sorted_difference (initial_ioms c) (active_host_nums c).

Definition autogen_ioms (c : tag_config) : list Z :=
  sorted_difference (autogen_diff_xmls c) [].

(** [config['tags']] after line 47. *)
Definition teardown_tags (c : tag_config) : string :=
  let tags := config_tags c +:+ EXPECTED_TEST_TAG (expected_test_count c) in
  let tags := tags +:+ ACTUAL_TEST_TAG (actual_test_count c) in
  let tags :=
    if (0 <? length (off_ioms c))%nat
    then tags +:+ IOMS_OFF_TAG (off_ioms c) else tags in
  if (0 <? length (autogen_ioms c))%nat
  then tags +:+ AUTOGEN_DIFF_TAG (autogen_ioms c) else tags.

(** * The notions of the statements *)

(** ** The status lattice *)

(** A token is recognized when the source's test [stat in
    possible_test_statuses] holds. *)
Definition recognized (s : string) : Prop :=
  mem s (possible_test_statuses TEST_STATUS_DICT) = true.

(** The six tiers, best first, as [worseStatus] concatenates them. *)
Definition tiers (d : status_dict) : list (list string) :=
  [skipped_status d; off_status d; wrong_os_status d; pass_status d;
   neutral_status d; error_status d].

(** The index of the tier of a token: 0 for Skipped up to 5 for Error. *)
Fixpoint tier_in (ts : list (list string)) (s : string) : nat :=
  match ts with
  | [] => O
  | t :: ts' => if mem s t then O else S (tier_in ts' s)
  end.

Definition tier (s : string) : nat := tier_in (tiers TEST_STATUS_DICT) s.

(** Folding a sequence with [worseStatus], left to right, from [acc]. *)
Fixpoint fold_worse (acc : string) (l : list string) : outcome string :=
  match l with
  | [] => Ok acc
  | s :: l' => let* acc' := worseStatus acc s in fold_worse acc' l'
  end.

(** The fold of a sequence started from its first element. *)
Definition fold_seq (l : list string) : option (outcome string) :=
  match l with
  | [] => None
  | s :: l' => Some (fold_worse s l')
  end.

(** ** The loop of addModels *)

(** The record that the next turn of the loop re-keys: the block between
    the first brace and the first double closing brace of the text (lines
    306-312), unless it is a chassis, with its ['}} ]'] shortened (lines
    327-328). *)
Definition next_record (fd : string) : option string :=
  let startModel := find fd "{" in
  if startModel =? -1 then None
  else
    let endModel := find fd "}}" in
    let nextModel := slice fd startModel (endModel + 4) in
    if negb (find nextModel chassisObject =? -1) then None
    else Some (if contains nextModel "}} ]"
               then replace nextModel "}} ]" "}}" else nextModel).

(** The kinds whose re-keying goes through [changeFieldPK], and the relation
    field each one needs (lines 373-398). *)
Definition lacks_relation (rec : string) : Prop :=
  find rec "rsinterface.test" = -1
  /\ ((find rec "rsinterface.log" <> -1
       /\ find rec (dq +:+ "test" +:+ dq +:+ ": ") = -1)
      \/ (find rec "rsinterface.log" = -1
          /\ find rec "rsinterface.message" <> -1
          /\ find rec (dq +:+ "log" +:+ dq +:+ ": ") = -1)
      \/ (find rec "rsinterface.log" = -1
          /\ find rec "rsinterface.message" = -1
          /\ (find rec "rsinterface.cpu" <> -1
              \/ find rec "rsinterface.dut" <> -1)
          /\ find rec (dq +:+ "test" +:+ dq +:+ ": ") = -1)).

(** A log record with key 1 and no 'test' field. *)
Definition log_without_test : string :=
  "[{" +:+ dq +:+ "model" +:+ dq +:+ ": " +:+ dq +:+ "rsinterface.log" +:+ dq
  +:+ ", " +:+ pk_marker +:+ "1, " +:+ fields_open +:+ "    " +:+ dq
  +:+ "text" +:+ dq +:+ ": " +:+ dq +:+ "Passed" +:+ dq +:+ "}} ]".

(** ** File discovery on two concrete result directories *)

(** A result file with one passed test. *)
Definition passed_test_file : string :=
  "[{" +:+ dq +:+ "model" +:+ dq +:+ ": " +:+ dq +:+ "rsinterface.test" +:+ dq
  +:+ ", " +:+ pk_marker +:+ "1, " +:+ fields_open +:+ "    " +:+ dq
  +:+ "testName" +:+ dq +:+ ": " +:+ dq +:+ "AI-201" +:+ dq +:+ "," +:+ nl
  +:+ "    " +:+ dq +:+ "status" +:+ dq +:+ ": " +:+ dq +:+ "Pass" +:+ dq
  +:+ "}} ]".

Definition run_centos : config := {| vms := ["centos"]; tags := "--basic" |}.

(** The directory of centos holds one result file, merged by an earlier
    run: it ends with the trailer. *)
Definition archived_world : world := {|
  now := "2024-07-01 12:34:56.789012";
  logic_results := None;
  listdir := fun os =>
    if String.eqb os "centos" then ["centos_test_101_5_result.json"] else [];
  files :=
    {[ ("centos", "centos_test_101_5_result.json") :=
         passed_test_file +:+ nl +:+ "File in database" ]}
|}.

(** The directory of centos holds one result file and one file whose name
    has neither 'test_' nor '.json' (the name of a testrunner log). *)
Definition stray_world : world := {|
  now := "2024-07-01 12:34:56.789012";
  logic_results := None;
  listdir := fun os =>
    if String.eqb os "centos"
    then ["centos_test_101_5_result.json"; "centos_101_5.txt"] else [];
  files :=
    {[ ("centos", "centos_test_101_5_result.json") := passed_test_file;
       ("centos", "centos_101_5.txt") := "testrunner output" ]}
|}.

(** ** Records whose primary key is not an integer *)

(** A test record whose primary key is [null]. *)
Definition null_pk_file : string :=
  "[{" +:+ dq +:+ "model" +:+ dq +:+ ": " +:+ dq +:+ "rsinterface.test" +:+ dq
  +:+ ", " +:+ pk_marker +:+ "null, " +:+ fields_open +:+ "    " +:+ dq
  +:+ "status" +:+ dq +:+ ": " +:+ dq +:+ "Pass" +:+ dq +:+ "}} ]".

(** [no_start sub a r]: no occurrence of [sub] in [a +:+ r] starts inside
    [a]. *)
Fixpoint no_start (sub a r : string) : bool :=
  match a with
  | EmptyString => true
  | String c a' => negb (String.prefix sub (a +:+ r)) && no_start sub a' r
  end.

(** ** The turns of the loop *)

(** [reaches c osKey st st']: the loop goes from [st] to [st'] in some
    number of turns, none of which raises or leaves the loop. *)
Inductive reaches (c osKey : Z) : loop_state -> loop_state -> Prop :=
  | reaches_here (st : loop_state) : reaches c osKey st st
  | reaches_turn (st st1 st' : loop_state) :
      addModels_step c osKey st = Ok (Some st1) ->
      reaches c osKey st1 st' -> reaches c osKey st st'.

(** A result file cut in the middle of its second record. *)
Definition truncated_file : string :=
  "[{" +:+ dq +:+ "model" +:+ dq +:+ ": " +:+ dq +:+ "rsinterface.test" +:+ dq
  +:+ ", " +:+ pk_marker +:+ "1, " +:+ fields_open +:+ "    " +:+ dq
  +:+ "testName" +:+ dq +:+ ": " +:+ dq +:+ "AI-201" +:+ dq +:+ "," +:+ nl
  +:+ "    " +:+ dq +:+ "status" +:+ dq +:+ ": " +:+ dq +:+ "Pass" +:+ dq
  +:+ "}}, {" +:+ dq +:+ "model" +:+ dq +:+ ": " +:+ dq +:+ "rsinterface.log"
  +:+ dq +:+ ", " +:+ pk_marker +:+ "2, " +:+ dq +:+ "fie".

(** *** Characters of integer literals *)

Fixpoint all_chars (P : ascii -> bool) (s : string) : bool :=
  match s with
  | EmptyString => true
  | String c s' => P c && all_chars P s'
  end.

Definition is_digit (c : ascii) : bool :=
  match digit_val c with Some _ => true | None => false end.

(** The characters that [int] accepts somewhere in its argument. *)
Definition int_char (c : ascii) : bool :=
  is_space c || Ascii.eqb c "+" || Ascii.eqb c "-" || Ascii.eqb c "_"
  || is_digit c.

(** The characters of [str z]. *)
Definition str_char (c : ascii) : bool := Ascii.eqb c "-" || is_digit c.

Definition dq_char : ascii := "034"%char.

Definition not_char (x c : ascii) : bool := negb (Ascii.eqb c x).

Definition no_dq (s : string) : bool := all_chars (not_char dq_char) s.

(** *** Patterns that cannot overlap the primary-key marker *)

(** Every double quote of [s] is followed, inside [s], by a character other
    than [x]. *)
Fixpoint dq_next_not (x : ascii) (s : string) : bool :=
  match s with
  | EmptyString => true
  | String c s' =>
      (if Ascii.eqb c dq_char
       then match s' with
            | String d _ => negb (Ascii.eqb d x)
            | EmptyString => false
            end
       else true)
      && dq_next_not x s'
  end.

(** *** The key of a re-keyed record *)

(** The key of a record, read as [addModels] reads it (lines 330-345). *)
Definition read_key (rec : string) : option Z :=
  match read_pk rec with
  | Some prevPK => int_of_str prevPK
  | None => None
  end.

(** The record [m'] still has the field [pk_marker +:+ X] as its first
    primary-key field. *)
Definition keeps_marker (X m' : string) : Prop :=
  exists A' B',
    m' = A' +:+ pk_marker +:+ X +:+ B'
    /\ no_start pk_marker A' (pk_marker +:+ X +:+ B') = true.

(** *** Every turn of the loop *)

(** The highest of a list of keys and 0, as lines 290 and 345-346 compute
    it. *)
Definition max_key (keys : list Z) : Z := fold_left Z.max keys 0.

(** What holds of the variables of the loop after any number of turns. *)
Definition loop_inv (c : Z) (st : loop_state) : Prop :=
  Forall (fun e => read_key (snd e) = Some (fst e + c)) (emitted st)
  /\ highestKey st = max_key (map fst (emitted st))
  /\ models st = "[" +:+ concat_str (map snd (emitted st)).

(** ** The keys that a run assigns *)

(** The local keys of one extraction are usable when they are pairwise
    distinct and at least 1. *)
Definition good_keys (keys : list Z) : Prop :=
  NoDup keys /\ Forall (fun k => 1 <= k) keys.

(** The keys of the records that a run creates or re-keys: the date record,
    the chassis records written, the OS entries allocated, and the re-keyed
    records of the result files. *)
Definition assigned_keys (m : merged) : list Z :=
  date_key m
  :: map c_key (chassis_written m)
  ++ map snd (map_to_list (os_key (final m)))
  ++ rekeyed (final m).

(** The keys allocated so far are distinct, at least [lo] and below the
    counter. *)
Definition allocated (lo : Z) (a : acc) : Prop :=
  (forall ip v, chassis_key a !! ip = Some v -> lo <= v < highest_key a)
  /\ (forall k v, os_key a !! k = Some v -> lo <= v < highest_key a)
  /\ (forall ip1 ip2 v, chassis_key a !! ip1 = Some v ->
                        chassis_key a !! ip2 = Some v -> ip1 = ip2)
  /\ (forall k1 k2 v, os_key a !! k1 = Some v ->
                      os_key a !! k2 = Some v -> k1 = k2)
  /\ (forall ip k v, chassis_key a !! ip = Some v ->
                     os_key a !! k = Some v -> False).

(** The re-keyed records so far have distinct keys, above [h0] and at most
    the counter, when the local keys of every extraction so far are
    usable. *)
Definition rekeyed_above (h0 : Z) (a : acc) : Prop :=
  Forall (fun e => good_keys (snd e)) (extracted a) ->
  h0 <= highest_key a
  /\ NoDup (rekeyed a)
  /\ forall x, x ∈ rekeyed a -> h0 < x <= highest_key a.

(** A result file with one test, of the given key and status. *)
Definition one_test_file (pk status : string) : string :=
  "[{" +:+ dq +:+ "model" +:+ dq +:+ ": " +:+ dq +:+ "rsinterface.test" +:+ dq
  +:+ ", " +:+ pk_marker +:+ pk +:+ ", " +:+ fields_open +:+ "    " +:+ dq
  +:+ "testName" +:+ dq +:+ ": " +:+ dq +:+ "AI-201" +:+ dq +:+ "," +:+ nl
  +:+ "    " +:+ dq +:+ "status" +:+ dq +:+ ": " +:+ dq +:+ status +:+ dq
  +:+ "}} ]".

Definition run_two : config :=
  {| vms := ["centos"; "win10"]; tags := "--basic" |}.

(** The chassis 101_5 tested under centos, where its test passed, and under
    win10, where it failed; [second_pk] is the key of the test in the win10
    file. *)
Definition two_os_world (second_pk : string) : world := {|
  now := "2024-07-01 12:34:56.789012";
  logic_results := None;
  listdir := fun os =>
    if String.eqb os "centos" then ["centos_test_101_5_result.json"]
    else if String.eqb os "win10" then ["win10_test_101_5_result.json"]
    else [];
  files :=
    {[ ("centos", "centos_test_101_5_result.json") := one_test_file "1" "Pass";
       ("win10", "win10_test_101_5_result.json")
         := one_test_file second_pk "Error" ]}
|}.

Definition shared_world : world := two_os_world "1".

(** The test of the win10 file has key 0. *)
Definition zero_key_world : world := two_os_world "0".

(** ** What a call of the extraction may do *)

(** [expected P m]: the call [m] returns a value that satisfies [P], or it
    raises one of the two exceptions of the extraction, the [ValueError] of
    [int] or the [UnboundLocalError] of [changeFieldPK]. *)
Definition expected {A : Type} (P : A -> Prop) (m : outcome A) : Prop :=
  match m with
  | Ok a => P a
  | Raise e => e = ValueError \/ e = UnboundLocalError
  | OutOfFuel => False
  end.

(** ** The discovery of the result files *)

(** The file is there and holds the trailer that line 184 writes. *)
Definition archived (fs : gmap (string * string) string)
    (osName file : string) : bool :=
  match fs !! (osName, file) with
  | Some data => negb (find data "File in database" =? -1)
  | None => false
  end.

Definition pending (fs : gmap (string * string) string)
    (osName file : string) : bool :=
  negb (archived fs osName file).

(** The chassis tokens that [getIP] finds in a list of file names. *)
Fixpoint tokens (files : list string) : list string :=
  match files with
  | [] => []
  | f :: files' =>
      match getIP f with
      | IPStr s => s :: tokens files'
      | IPInt _ => tokens files'
      end
  end.

Definition has_token (file : string) : bool :=
  match getIP file with
  | IPStr _ => true
  | IPInt _ => false
  end.

(** The line that line 487 sends to the log. *)
Definition log_line (file : string) : string :=
  "Invalid file name: " +:+ file +:+ nl +:+ ", adding with IP -1".

(** The files of a directory can all be read. *)
Definition readable (fs : gmap (string * string) string)
    (osName : string) (names : list string) : Prop :=
  Forall (fun f => is_Some (fs !! (osName, f))) names.



(** ** What a run may do *)

(** [run_expected P m]: the run [m] returns a value that satisfies [P], or
    it raises one of the four exceptions of a run: [FileNotFoundError] for a
    name that cannot be read, [TypeError] for a file name without a token,
    and the two exceptions of the extraction. *)
Definition run_expected {A : Type} (P : A -> Prop) (m : outcome A) : Prop :=
  match m with
  | Ok a => P a
  | Raise e =>
      e = FileNotFoundError \/ e = TypeError \/ e = ValueError
      \/ e = UnboundLocalError
  | OutOfFuel => False
  end.

(** The statuses that a run holds are tokens of the vocabulary. *)
Definition statuses_ok (a : acc) : Prop :=
  recognized (test_result_status a)
  /\ (forall ip s, chassis_status a !! ip = Some s -> recognized s)
  /\ (forall k s, os_status a !! k = Some s -> recognized s).

(** The dictionaries of a run have an entry for every chassis token of
    [chs], and for every OS of [oss] and token of that OS that is in
    [chs]. *)
Definition keyed (chs : list string) (oss : list (string * list string))
    (a : acc) : Prop :=
  (forall ip, In ip chs ->
     is_Some (chassis_key a !! ip) /\ is_Some (chassis_status a !! ip)
     /\ is_Some (chassis_name a !! ip))
  /\ (forall osName ips ip, In (osName, ips) oss -> In ip ips -> In ip chs ->
        is_Some (os_key a !! (osName +:+ ip))
        /\ is_Some (os_status a !! (osName +:+ ip))).

(** The entries of the dictionaries are never deleted. *)
Definition grows (a a' : acc) : Prop :=
  (forall k, is_Some (chassis_key a !! k) -> is_Some (chassis_key a' !! k))
  /\ (forall k, is_Some (chassis_status a !! k) ->
                is_Some (chassis_status a' !! k))
  /\ (forall k, is_Some (chassis_name a !! k) ->
                is_Some (chassis_name a' !! k))
  /\ (forall k, is_Some (os_key a !! k) -> is_Some (os_key a' !! k))
  /\ (forall k, is_Some (os_status a !! k) -> is_Some (os_status a' !! k))
  /\ (forall k, is_Some (fs a !! k) -> is_Some (fs a' !! k)).

(** A directory with two result files of the same chassis. *)
Definition twice_world : world := {|
  now := "2024-07-01 12:34:56.789012";
  logic_results := None;
  listdir := fun os =>
    if String.eqb os "centos"
    then ["centos_test_101_5_result.json"; "again_test_101_5_result.json"]
    else [];
  files :=
    {[ ("centos", "centos_test_101_5_result.json") := one_test_file "1" "Pass";
       ("centos", "again_test_101_5_result.json")
         := one_test_file "1" "Error" ]}
|}.



(** ** Texts of the statements *)

Definition shift (k x : Z) : Z := if x =? -1 then -1 else k + x.

Definition comma_char : ascii := ","%char.
Definition brace_char : ascii := "}"%char.

(** The text of an OS record after [replaceField] has set its status: the
    value follows the colon at once.  [os_fields_set] is the text from the
    comma that ends the name of the model. *)
Definition os_fields_set (key chassis : Z) (osName status : string) : string :=
  ", " +:+ pk_marker +:+ str key +:+ ", " +:+ fields_open
  +:+ "    " +:+ dq +:+ "chassis" +:+ dq +:+ ": " +:+ str chassis +:+ ","
  +:+ nl +:+ "    " +:+ dq +:+ "operatingSystem" +:+ dq +:+ ": " +:+ dq
  +:+ osName +:+ dq +:+ "," +:+ nl +:+ "    " +:+ dq +:+ "status" +:+ dq
  +:+ ":" +:+ dq +:+ status +:+ dq +:+ "}}".

Definition os_object_set (key chassis : Z) (osName status : string) : string :=
  "{" +:+ dq +:+ "model" +:+ dq +:+ ": " +:+ dq +:+ "rsinterface.os" +:+ dq
  +:+ os_fields_set key chassis osName status.

Definition not_space (c : ascii) : bool := negb (is_space c).

(** ** The date of the run (line 50) *)

Definition stringdate (date : string) : string :=
  slice_to date (find date ".").

(** [s[:-1]] *)
Definition all_but_last (s : string) : string :=
  take (String.length s - 1) s.

(** The world of [shared_world] read on a whole second: [str] of such a
    time has no fraction. *)
Definition whole_second_world : world := {|
  now := "2024-07-01 12:34:56";
  logic_results := None;
  listdir := listdir shared_world;
  files := files shared_world
|}.

(** ** The rows of errorFile.csv *)


(** A result file whose test has a status outside the vocabulary. *)
Definition aborted_test_file : string := one_test_file "1" "Aborted".

(** ** The relation field of a record *)

(** [fieldPK] of [changeFieldPK] (line 242). *)
Definition field_marker (fieldName : string) : string :=
  dq +:+ fieldName +:+ dq +:+ ": ".

(** A log record with key 2 of the test with key 1. *)
Definition log_head : string :=
  "{" +:+ dq +:+ "model" +:+ dq +:+ ": " +:+ dq +:+ "rsinterface.log" +:+ dq
  +:+ ", " +:+ pk_marker +:+ "2, " +:+ fields_open +:+ "    ".

Definition log_tail : string :=
  nl +:+ "    " +:+ dq +:+ "text" +:+ dq +:+ ": " +:+ dq +:+ "started" +:+ dq
  +:+ "}}".

(** ** The tags of the teardown *)

(** The last character of a text. *)
Fixpoint last_char (s : string) : option ascii :=
  match s with
  | EmptyString => None
  | String c EmptyString => Some c
  | String _ s' => last_char s'
  end.

(** A run that started with the IOMs 71, 15 and 30, of which 30 does not
    answer any more, and whose test runner reported a difference for 15. *)
Definition tags_example : tag_config := {|
  config_tags := "#--vms_linux_centos#";
  expected_test_count := 12;
  actual_test_count := 11;
  initial_ioms := [71; 15; 30];
  active_host_nums := [15; 71];
  autogen_diff_xmls := [15; 15]
|}.

(** * Proofs *)

(** ** The primitives on examples *)

Example find_ex1 : Py.find "abcabc" "ca" = 2.
Proof. reflexivity. Qed.
Example find_ex2 : Py.find_from "abcabc" "abc" 1 = 3.
Proof. reflexivity. Qed.
Example find_ex3 : Py.find_from "abcabc" "c" (-1) = 5.
Proof. reflexivity. Qed.
Example find_ex4 : Py.find "abc" "x" = -1.
Proof. reflexivity. Qed.
Example slice_ex1 : Py.slice "abcdef" 2 (-1) = "cde".
Proof. reflexivity. Qed.
Example slice_ex2 : Py.slice "abcdef" 4 100 = "ef".
Proof. reflexivity. Qed.
Example slice_ex3 : Py.slice "abcdef" 4 2 = EmptyString.
Proof. reflexivity. Qed.
Example replace_ex1 : Py.replace "aaa-aa" "aa" "b" = "ba-b".
Proof. reflexivity. Qed.
Example replace_ex2 : Py.replace "ab" EmptyString "-" = "-a-b-".
Proof. reflexivity. Qed.
Example rfind_ex1 : Py.rfind "a]b]c" "]" = 3.
Proof. reflexivity. Qed.
Example int_ex1 : Py.int_of_str " 12 " = Some 12.
Proof. reflexivity. Qed.
Example int_ex2 : Py.int_of_str "-1_000" = Some (-1000).
Proof. reflexivity. Qed.
Example int_ex3 : Py.int_of_str "1__0" = None.
Proof. reflexivity. Qed.
Example int_ex4 : Py.int_of_str "5}" = None.
Proof. reflexivity. Qed.
Example str_ex1 : Py.str 0 = "0".
Proof. reflexivity. Qed.
Example str_ex2 : Py.str (-120) = "-120".
Proof. reflexivity. Qed.
Example str_ex3 : Py.str 1024 = "1024".
Proof. reflexivity. Qed.

Example worse_ex1 : worseStatus "Pass" "Error" = Ok "Error".
Proof. reflexivity. Qed.
Example worse_ex2 : worseStatus "Passed" "Pass" = Ok "Passed".
Proof. reflexivity. Qed.
Example worse_ex3 : worseStatus "bogus" "Off" = Ok "Off".
Proof. reflexivity. Qed.
Example worse_ex4 :
  worseStatus "x" "y" = Raise (LookupError "Both are invalid status: x y").
Proof. reflexivity. Qed.

Example getIP_ex1 : getIP "centos_test_101_5_result.json" = IPStr "101_5".
Proof. reflexivity. Qed.
Example getIP_ex2 : getIP "centos_101_5.txt" = IPInt (-1).
Proof. reflexivity. Qed.

(** ** The status lattice *)

Lemma recognized_cases (s : string) :
  recognized s ->
  s = "Skipped" \/ s = "Off" \/ s = "Wrong Embedded OS" \/ s = "Pass"
  \/ s = "Passed" \/ s = "Warning" \/ s = "Error" \/ s = "Fail"
  \/ s = "Failed" \/ s = "Fatal".
Proof.
  unfold recognized, mem. cbn [possible_test_statuses TEST_STATUS_DICT
    skipped_status off_status wrong_os_status pass_status neutral_status
    error_status app existsb].
  rewrite !orb_true_iff, !String.eqb_eq. intuition discriminate.
Qed.

Ltac status_cases H :=
  apply recognized_cases in H;
  repeat (destruct H as [H | H]); subst.

Lemma recognized_dec (s : string) : {recognized s} + {~ recognized s}.
Proof. unfold recognized. destruct (mem s _); [left | right]; congruence. Qed.

Lemma worseStatus_recognized_l (a b : string) :
  recognized a -> exists r, worseStatus a b = Ok r /\ recognized r.
Proof.
  intros Ha. destruct (recognized_dec b) as [Hb | Hb].
  - status_cases Ha; status_cases Hb; eexists; split; reflexivity.
  - unfold recognized in *. exists a. split; [| exact Ha].
    unfold worseStatus, worseStatus_in. rewrite Ha.
    destruct (mem b _); [congruence | reflexivity].
Qed.

Lemma worseStatus_recognized_r (a b : string) :
  recognized b -> exists r, worseStatus a b = Ok r /\ recognized r.
Proof.
  intros Hb. destruct (recognized_dec a) as [Ha | Ha].
  - status_cases Ha; status_cases Hb; eexists; split; reflexivity.
  - unfold recognized in *. exists b. split; [| exact Hb].
    unfold worseStatus, worseStatus_in. rewrite Hb.
    destruct (mem a _); [congruence | reflexivity].
Qed.

Lemma worseStatus_comm (a b : string) :
  recognized a -> recognized b -> worseStatus a b = worseStatus b a.
Proof. intros Ha Hb. status_cases Ha; status_cases Hb; reflexivity. Qed.

Lemma worseStatus_assoc (a b c : string) :
  recognized a -> recognized b -> recognized c ->
  (let* x := worseStatus a b in worseStatus x c)
  = (let* y := worseStatus b c in worseStatus a y).
Proof.
  intros Ha Hb Hc.
  status_cases Ha; status_cases Hb; status_cases Hc; reflexivity.
Qed.

Lemma worseStatus_swap (a b c : string) :
  recognized a -> recognized b -> recognized c ->
  (let* x := worseStatus a b in worseStatus x c)
  = (let* x := worseStatus a c in worseStatus x b).
Proof.
  intros Ha Hb Hc.
  rewrite worseStatus_assoc by assumption.
  rewrite (worseStatus_comm b c) by assumption.
  rewrite <- worseStatus_assoc by assumption. reflexivity.
Qed.

Lemma fold_worse_recognized (l : list string) (acc : string) :
  recognized acc -> exists r, fold_worse acc l = Ok r /\ recognized r.
Proof.
  revert acc. induction l as [| s l IH]; intros acc Hacc; simpl.
  - eauto.
  - destruct (worseStatus_recognized_l acc s Hacc) as (r & -> & Hr).
    simpl. apply IH, Hr.
Qed.

Lemma fold_worse_perm (l l' : list string) :
  Permutation l l' ->
  forall acc, recognized acc -> Forall recognized l ->
              fold_worse acc l = fold_worse acc l'.
Proof.
  induction 1 as [| x l l' Hp IH | x y l | l l' l'' Hp1 IH1 Hp2 IH2];
    intros acc Hacc Hl.
  - reflexivity.
  - simpl. apply Forall_cons in Hl as [Hx Hl].
    destruct (worseStatus_recognized_l acc x Hacc) as (r & -> & Hr).
    simpl. apply IH; assumption.
  - apply Forall_cons in Hl as [Hy Hl]. apply Forall_cons in Hl as [Hx Hl].
    simpl.
    pose proof (worseStatus_swap acc y x Hacc Hy Hx) as Hs.
    destruct (worseStatus_recognized_l acc y Hacc) as (r1 & E1 & Hr1).
    destruct (worseStatus_recognized_l acc x Hacc) as (r2 & E2 & Hr2).
    rewrite E1, E2 in *. simpl in *. rewrite Hs. reflexivity.
  - rewrite IH1 by assumption. apply IH2; [assumption |].
    eapply Permutation_Forall; eassumption.
Qed.

(** C1.  For recognized tokens [a] and [b], [worseStatus a b] returns one of
    its two arguments, and the one it returns is in the later of the two
    tiers of the order Skipped, Off, WrongOS, Pass, Warning, Error: its tier
    is the larger of the two, so when the tiers differ it is the argument of
    the later tier. *)
Theorem worseStatus_later_tier (a b : string) :
  recognized a -> recognized b ->
  exists r,
    worseStatus a b = Ok r /\ (r = a \/ r = b)
    /\ tier r = Nat.max (tier a) (tier b)
    /\ ((tier b < tier a)%nat -> r = a)
    /\ ((tier a < tier b)%nat -> r = b).
Proof.
  intros Ha Hb.
  status_cases Ha; status_cases Hb; eexists;
    (split; [reflexivity |]); vm_compute;
    (split; [auto |]); (split; [reflexivity |]);
    split; intros Hlt; solve [reflexivity | exfalso; vm_compute in Hlt; lia].
Qed.

Lemma worseStatus_later_tier_witness :
  exists r,
    worseStatus "Passed" "Warning" = Ok r /\ (r = "Passed" \/ r = "Warning")
    /\ tier r = Nat.max (tier "Passed") (tier "Warning")
    /\ ((tier "Warning" < tier "Passed")%nat -> r = "Passed")
    /\ ((tier "Passed" < tier "Warning")%nat -> r = "Warning").
Proof.
  apply (worseStatus_later_tier "Passed" "Warning"); reflexivity.
Defined.

(** C2.  On recognized tokens [worseStatus] is commutative and associative,
    and folding a sequence of recognized tokens left to right gives the same
    status for every ordering of the sequence, whether the fold starts from
    a recognized status or from the first element of the sequence; the fold
    never raises. *)
Theorem fold_worse_order_independent :
  (forall a b, recognized a -> recognized b ->
     worseStatus a b = worseStatus b a)
  /\ (forall a b c, recognized a -> recognized b -> recognized c ->
        (let* x := worseStatus a b in worseStatus x c)
        = (let* y := worseStatus b c in worseStatus a y))
  /\ (forall acc l l', recognized acc -> Forall recognized l ->
        Permutation l l' ->
        fold_worse acc l = fold_worse acc l'
        /\ exists r, fold_worse acc l = Ok r /\ recognized r)
  /\ (forall l l', Forall recognized l -> Permutation l l' ->
        fold_seq l = fold_seq l').
Proof.
  split; [exact worseStatus_comm |].
  split; [exact worseStatus_assoc |].
  assert (Hfold : forall acc l l', recognized acc -> Forall recognized l ->
            Permutation l l' -> fold_worse acc l = fold_worse acc l').
  { intros acc l l' Hacc Hl Hp. apply fold_worse_perm; assumption. }
  split.
  - intros acc l l' Hacc Hl Hp. split; [auto |].
    apply fold_worse_recognized, Hacc.
  - intros l l' Hl Hp.
    destruct l as [| x l].
    + apply Permutation_nil_l in Hp. subst. reflexivity.
    + destruct l' as [| y l'].
      { apply Permutation_nil_r in Hp. discriminate. }
      simpl. f_equal.
      (* both folds equal the fold of the whole sequence from Skipped *)
      assert (Hsk : recognized "Skipped") by reflexivity.
      assert (Hhead : forall s t, recognized s ->
                fold_worse "Skipped" (s :: t) = fold_worse s t).
      { intros s t Hs. simpl.
        assert (worseStatus "Skipped" s = Ok s) as ->
          by (status_cases Hs; reflexivity).
        reflexivity. }
      assert (Hl' : Forall recognized (y :: l'))
        by (eapply Permutation_Forall; eassumption).
      rewrite <- (Hhead x l) by (apply Forall_cons in Hl; tauto).
      rewrite <- (Hhead y l') by (apply Forall_cons in Hl'; tauto).
      apply Hfold; assumption.
Qed.

Lemma fold_worse_order_independent_witness :
  fold_worse "Skipped" ["Pass"; "Error"; "Warning"]
  = fold_worse "Skipped" ["Warning"; "Pass"; "Error"]
  /\ fold_seq ["Passed"; "Pass"] = fold_seq ["Pass"; "Passed"].
Proof.
  destruct fold_worse_order_independent as (_ & _ & Hf & Hs).
  split.
  - apply (Hf "Skipped" ["Pass"; "Error"; "Warning"]
              ["Warning"; "Pass"; "Error"]).
    + reflexivity.
    + repeat constructor.
    + symmetry. apply (Permutation_cons_append ["Pass"; "Error"] "Warning").
  - apply (Hs ["Passed"; "Pass"] ["Pass"; "Passed"]).
    + repeat constructor.
    + apply perm_swap.
Defined.

(** C3.  [worseStatus a b] raises exactly when neither argument is
    recognized, and what it raises is the [LookupError] of line 534 (the
    spec's InvalidStatus); when exactly one argument is unrecognized it
    returns the recognized one. *)
Theorem worseStatus_raises_iff (a b : string) :
  (raises (worseStatus a b) <-> ~ recognized a /\ ~ recognized b)
  /\ (~ recognized a -> ~ recognized b ->
        worseStatus a b
        = Raise (LookupError
                   ("Both are invalid status: " +:+ a +:+ " " +:+ b)))
  /\ (recognized a -> ~ recognized b -> worseStatus a b = Ok a)
  /\ (~ recognized a -> recognized b -> worseStatus a b = Ok b).
Proof.
  assert (Hnn : ~ recognized a -> ~ recognized b ->
                worseStatus a b
                = Raise (LookupError
                           ("Both are invalid status: " +:+ a +:+ " " +:+ b))).
  { unfold recognized, worseStatus, worseStatus_in. intros Ha Hb.
    destruct (mem a _); [congruence |]. destruct (mem b _); [congruence |].
    reflexivity. }
  assert (Hyn : recognized a -> ~ recognized b -> worseStatus a b = Ok a).
  { unfold recognized, worseStatus, worseStatus_in. intros Ha Hb.
    rewrite Ha. destruct (mem b _); [congruence | reflexivity]. }
  assert (Hny : ~ recognized a -> recognized b -> worseStatus a b = Ok b).
  { unfold recognized, worseStatus, worseStatus_in. intros Ha Hb.
    rewrite Hb. destruct (mem a _); [congruence | reflexivity]. }
  split; [| auto]. split.
  - intros [e He]. split; intros H.
    + destruct (worseStatus_recognized_l a b H) as (r & Hr & _). congruence.
    + destruct (worseStatus_recognized_r a b H) as (r & Hr & _). congruence.
  - intros [Ha Hb]. eexists. apply Hnn; assumption.
Qed.

Lemma worseStatus_raises_iff_witness :
  raises (worseStatus "pass" "Unknown")
  /\ worseStatus "Fatal" "fatal" = Ok "Fatal"
  /\ worseStatus "N/A" "Off" = Ok "Off".
Proof.
  destruct (worseStatus_raises_iff "pass" "Unknown") as ((_ & H1) & _).
  destruct (worseStatus_raises_iff "Fatal" "fatal") as (_ & _ & H2 & _).
  destruct (worseStatus_raises_iff "N/A" "Off") as (_ & _ & _ & H3).
  split; [apply H1; split; discriminate |].
  split; [apply H2; [reflexivity | discriminate] |].
  apply H3; [discriminate | reflexivity].
Defined.

(** ** The loop of addModels and the relation fields *)

Lemma addModels_loop_raise (n : nat) (c osKey : Z) (st : loop_state) (e : exn) :
  addModels_step c osKey st = Raise e ->
  addModels_loop (S n) c osKey st = Raise e.
Proof. intros H. simpl. rewrite H. reflexivity. Qed.

Lemma addModels_loop_break (n : nat) (c osKey : Z) (st : loop_state) :
  addModels_step c osKey st = Ok None ->
  addModels_loop (S n) c osKey st = Ok st.
Proof. intros H. simpl. rewrite H. reflexivity. Qed.

Lemma addModels_loop_continue (n : nat) (c osKey : Z) (st st' : loop_state) :
  addModels_step c osKey st = Ok (Some st') ->
  addModels_loop (S n) c osKey st = addModels_loop n c osKey st'.
Proof. intros H. simpl. rewrite H. reflexivity. Qed.

Lemma eqb_m1_false (z : Z) : z <> -1 -> (z =? -1) = false.
Proof. intros H. apply Z.eqb_neq, H. Qed.

Lemma changeFieldPK_absent (modelData fieldName : string) (highestKey : Z) :
  find modelData (dq +:+ fieldName +:+ dq +:+ ": ") = -1 ->
  changeFieldPK modelData fieldName highestKey = Raise UnboundLocalError.
Proof. intros H. unfold changeFieldPK. rewrite H. reflexivity. Qed.

Lemma kind_branch_lacks_relation (c osKey : Z) (rec : string) (ts : dict)
    (os : string) :
  lacks_relation rec -> kind_branch c osKey rec ts os = Raise UnboundLocalError.
Proof.
  intros [Ht Hk]. unfold kind_branch, log_branch. rewrite Ht. simpl.
  destruct Hk as [[Hl Hf] | [(Hl & Hm & Hf) | (Hl & Hm & Hc & Hf)]].
  - rewrite (eqb_m1_false _ Hl). simpl.
    rewrite (changeFieldPK_absent _ _ _ Hf). reflexivity.
  - rewrite Hl. simpl. rewrite (eqb_m1_false _ Hm). simpl.
    rewrite (changeFieldPK_absent _ _ _ Hf). reflexivity.
  - rewrite Hl, Hm. simpl.
    assert (negb (find rec "rsinterface.cpu" =? -1)
            || negb (find rec "rsinterface.dut" =? -1) = true) as ->.
    { destruct Hc as [Hc | Hc]; rewrite (eqb_m1_false _ Hc); simpl;
        [reflexivity | apply orb_true_r]. }
    rewrite (changeFieldPK_absent _ _ _ Hf). reflexivity.
Qed.

Lemma addModels_step_next_record (c osKey : Z) (st : loop_state) (rec : string) :
  next_record (fileData st) = Some rec ->
  addModels_step c osKey st =
    match read_pk rec with
    | None => Ok None
    | Some prevPK =>
        let* k := int prevPK in
        let* (nextModel', ts, os) :=
          kind_branch c osKey rec (testStatus st) (osStatus st) in
        let nextModel' :=
          replace nextModel' (pk_marker +:+ prevPK +:+ ",")
            (pk_marker +:+ str (k + c) +:+ ",") in
        Ok (Some {| fileData :=
                      slice_from (fileData st) (find (fileData st) "}}" + 4);
                    models := models st +:+ nextModel';
                    osStatus := os; testStatus := ts;
                    highestKey :=
                      if highestKey st <? k then k else highestKey st;
                    emitted := emitted st ++ [(k, nextModel')] |})
    end.
Proof.
  unfold next_record, addModels_step. intros H.
  destruct (find (fileData st) "{" =? -1); [discriminate |].
  destruct (negb (find _ chassisObject =? -1)); [discriminate |].
  injection H as <-. reflexivity.
Qed.

(** C10.  When the relation field does not occur in the text of a record,
    [changeFieldPK] raises [UnboundLocalError] (the unbound [pk] of line
    251) instead of returning; so the loop of [addModels], and [addModels]
    itself, raise it when they reach a log, message, cpu or dut record,
    with an integer primary key, that lacks its 'test' or 'log' field. *)
Theorem changeFieldPK_partial :
  (forall modelData fieldName highestKey,
      find modelData (dq +:+ fieldName +:+ dq +:+ ": ") = -1 ->
      changeFieldPK modelData fieldName highestKey = Raise UnboundLocalError)
  /\ (forall c osKey st rec prevPK k n,
        next_record (fileData st) = Some rec ->
        read_pk rec = Some prevPK -> int_of_str prevPK = Some k ->
        lacks_relation rec ->
        addModels_loop (S n) c osKey st = Raise UnboundLocalError)
  /\ (forall data c osKey osName rec prevPK k,
        next_record (replace data cr nl) = Some rec ->
        read_pk rec = Some prevPK -> int_of_str prevPK = Some k ->
        lacks_relation rec ->
        addModels data c osKey osName = Raise UnboundLocalError).
Proof.
  assert (Hloop : forall c osKey st rec prevPK k n,
        next_record (fileData st) = Some rec ->
        read_pk rec = Some prevPK -> int_of_str prevPK = Some k ->
        lacks_relation rec ->
        addModels_loop (S n) c osKey st = Raise UnboundLocalError).
  { intros c osKey st rec prevPK k n Hrec Hpk Hint Hlack.
    apply addModels_loop_raise.
    rewrite (addModels_step_next_record _ _ _ _ Hrec), Hpk.
    unfold int. rewrite Hint. simpl.
    rewrite (kind_branch_lacks_relation _ _ _ _ _ Hlack). reflexivity. }
  split; [exact changeFieldPK_absent |]. split; [exact Hloop |].
  intros data c osKey osName rec prevPK k Hrec Hpk Hint Hlack.
  unfold addModels.
  rewrite (Hloop c osKey (addModels_init data) rec prevPK k _ Hrec Hpk Hint
             Hlack).
  reflexivity.
Qed.

Lemma changeFieldPK_partial_witness :
  changeFieldPK log_without_test "test" 5 = Raise UnboundLocalError
  /\ addModels log_without_test 5 3 "centos" = Raise UnboundLocalError.
Proof.
  destruct changeFieldPK_partial as (H1 & _ & H3). split.
  - apply H1. reflexivity.
  - eapply (H3 log_without_test 5 3 "centos" _ "1" 1); try reflexivity.
    split; [reflexivity |]. left. split; [discriminate | reflexivity].
Defined.

(** ** File discovery on two concrete result directories *)

(** C7, on the code.  For a result file that ends with 'File in database',
    [getFilesAndIP] drops the file from the list, which excludes it from
    re-extraction, but it also leaves before [getIP] is called: the token
    101_5 of the file is not in the discovered tokens, [all_chassis] is
    empty and no chassis record is written. *)
Theorem archived_file_token_lost :
  getFilesAndIP (files archived_world) (listdir archived_world "centos")
    "centos"
  = Ok {| d_files := []; d_inDB := ∅; d_ip := []; d_errors := [] |}
  /\ exists m, combine_results run_centos archived_world = Ok (Some m)
               /\ all_chassis m = [] /\ chassis_written m = []
               /\ rekeyed (final m) = [].
Proof.
  split; [vm_compute; reflexivity |].
  eexists. split; [vm_compute; reflexivity |].
  split; [reflexivity |]. split; reflexivity.
Qed.

(** C8, on the code.  For a file whose name has no 'test_' and '.json',
    [getFilesAndIP] logs the error and keeps the file in the list, without
    a token; [combine_results] then evaluates [osName + ip] with the integer
    [-1] that [getIP] returned, and raises [TypeError]: the merge does not
    continue. *)
Theorem stray_file_aborts_merge :
  getIP "centos_101_5.txt" = IPInt (-1)
  /\ (exists d,
        getFilesAndIP (files stray_world) (listdir stray_world "centos")
          "centos" = Ok d
        /\ d_files d = ["centos_test_101_5_result.json"; "centos_101_5.txt"]
        /\ d_ip d = ["101_5"]
        /\ d_errors d = ["Invalid file name: centos_101_5.txt" +:+ nl
                           +:+ ", adding with IP -1"])
  /\ combine_results run_centos stray_world = Raise TypeError.
Proof.
  split; [reflexivity |]. split.
  - eexists. split; [vm_compute; reflexivity |].
    split; [reflexivity |]. split; reflexivity.
  - vm_compute. reflexivity.
Qed.

(** The record of [null_pk_file] has a primary-key field that is not an
    integer; [addModels] does not stop there, it raises [ValueError]. *)
Lemma addModels_null_pk_raises :
  read_pk null_pk_file = Some "null"
  /\ addModels null_pk_file 2 3 "centos" = Raise ValueError.
Proof. split; vm_compute; reflexivity. Qed.

(** ** Facts about the string primitives *)

Lemma app_cons (c : ascii) (s t : string) :
  String c s +:+ t = String c (s +:+ t).
Proof. reflexivity. Qed.

Lemma app_nil_r (s : string) : s +:+ EmptyString = s.
Proof. induction s as [| c s IH]; [reflexivity |]. rewrite app_cons, IH. reflexivity. Qed.

Lemma app_assoc (a b c : string) : (a +:+ b) +:+ c = a +:+ (b +:+ c).
Proof.
  induction a as [| x a IH]; [reflexivity |].
  rewrite !app_cons, IH. reflexivity.
Qed.

Lemma length_app (a b : string) :
  String.length (a +:+ b) = (String.length a + String.length b)%nat.
Proof.
  induction a as [| x a IH]; [reflexivity |].
  rewrite app_cons. simpl. rewrite IH. reflexivity.
Qed.

Lemma prefix_nil (s : string) : String.prefix EmptyString s = true.
Proof. destruct s; reflexivity. Qed.

Lemma prefix_cons (c d : ascii) (a s : string) :
  String.prefix (String c a) (String d s)
  = (if Ascii.eqb c d then String.prefix a s else false).
Proof.
  simpl. destruct (ascii_dec c d) as [-> | Hne].
  - rewrite Ascii.eqb_refl. reflexivity.
  - apply Ascii.eqb_neq in Hne. rewrite Hne. reflexivity.
Qed.

Lemma prefix_app (a b : string) : String.prefix a (a +:+ b) = true.
Proof.
  induction a as [| x a IH]; [apply prefix_nil |].
  rewrite app_cons, prefix_cons, Ascii.eqb_refl. exact IH.
Qed.

Lemma prefix_inv (a s : string) :
  String.prefix a s = true -> exists b, s = a +:+ b.
Proof.
  revert s. induction a as [| x a IH]; intros s H.
  - exists s. reflexivity.
  - destruct s as [| y s]; [discriminate |].
    rewrite prefix_cons in H. destruct (Ascii.eqb x y) eqn:E; [| discriminate].
    apply Ascii.eqb_eq in E. subst y.
    destruct (IH s H) as [b ->]. exists b. reflexivity.
Qed.

Lemma prefix_length (a s : string) :
  String.prefix a s = true -> (String.length a <= String.length s)%nat.
Proof.
  intros H. destruct (prefix_inv a s H) as [b ->]. rewrite length_app. lia.
Qed.

Lemma prefix_app_l (a s t : string) :
  String.prefix a s = true -> String.prefix a (s +:+ t) = true.
Proof.
  intros H. destruct (prefix_inv a s H) as [b ->].
  rewrite app_assoc. apply prefix_app.
Qed.

(** A prefix test only reads as many characters as the pattern has. *)
Lemma prefix_app_short (u a t t' : string) :
  (String.length u <= String.length a)%nat ->
  String.prefix u (a +:+ t) = String.prefix u (a +:+ t').
Proof.
  revert a. induction u as [| x u IH]; intros a H.
  - rewrite !prefix_nil. reflexivity.
  - destruct a as [| y a]; [simpl in H; lia |].
    rewrite !app_cons, !prefix_cons. destruct (Ascii.eqb x y); [| reflexivity].
    apply IH. simpl in H. lia.
Qed.

Lemma take_drop (n : nat) (s : string) : take n s +:+ drop n s = s.
Proof.
  revert s. induction n as [| n IH]; intros s.
  - destruct s; reflexivity.
  - destruct s as [| c s]; [reflexivity |]. simpl. rewrite app_cons, IH.
    reflexivity.
Qed.

Lemma length_take (n : nat) (s : string) :
  String.length (take n s) = Nat.min n (String.length s).
Proof.
  revert s. induction n as [| n IH]; intros s.
  - destruct s; reflexivity.
  - destruct s as [| c s]; [reflexivity |]. simpl. rewrite IH. reflexivity.
Qed.

Lemma length_drop (n : nat) (s : string) :
  String.length (drop n s) = (String.length s - n)%nat.
Proof.
  revert s. induction n as [| n IH]; intros s.
  - destruct s; simpl; lia.
  - destruct s as [| c s]; [reflexivity |]. simpl. apply IH.
Qed.

Lemma drop_0 (s : string) : drop 0 s = s.
Proof. destruct s; reflexivity. Qed.

Lemma take_0 (s : string) : take 0 s = EmptyString.
Proof. destruct s; reflexivity. Qed.

Lemma drop_app_length (a b : string) : drop (String.length a) (a +:+ b) = b.
Proof.
  induction a as [| x a IH]; [apply drop_0 |]. simpl. exact IH.
Qed.

Lemma take_app_length (a b : string) : take (String.length a) (a +:+ b) = a.
Proof.
  induction a as [| x a IH]; [apply take_0 |]. simpl. rewrite IH. reflexivity.
Qed.

Lemma drop_app_plus (a b : string) (n : nat) :
  drop (String.length a + n) (a +:+ b) = drop n b.
Proof.
  induction a as [| x a IH]; [reflexivity |]. simpl. exact IH.
Qed.

Lemma take_all (n : nat) (s : string) :
  (String.length s <= n)%nat -> take n s = s.
Proof.
  revert s. induction n as [| n IH]; intros s H.
  - destruct s; [reflexivity | simpl in H; lia].
  - destruct s as [| c s]; [reflexivity |]. simpl. rewrite IH; [reflexivity |].
    simpl in H. lia.
Qed.

Lemma drop_all (n : nat) (s : string) :
  (String.length s <= n)%nat -> drop n s = EmptyString.
Proof.
  revert s. induction n as [| n IH]; intros s H.
  - destruct s; [reflexivity | simpl in H; lia].
  - destruct s as [| c s]; [reflexivity |]. simpl. apply IH. simpl in H. lia.
Qed.


Lemma app_nil_l (s : string) : EmptyString +:+ s = s.
Proof. reflexivity. Qed.

Lemma first_index_cons (sub : string) (c : ascii) (s : string) :
  first_index sub (String c s)
  = if String.prefix sub (String c s) then Some O
    else option_map S (first_index sub s).
Proof. reflexivity. Qed.

Lemma first_index_nil (sub : string) :
  first_index sub EmptyString
  = if String.prefix sub EmptyString then Some O else None.
Proof. reflexivity. Qed.

Lemma no_start_cons (sub : string) (c : ascii) (a r : string) :
  no_start sub (String c a) r
  = negb (String.prefix sub (String c (a +:+ r))) && no_start sub a r.
Proof. reflexivity. Qed.

Lemma first_index_no_start (sub a r : string) :
  no_start sub a r = true ->
  first_index sub (a +:+ r)
  = option_map (Nat.add (String.length a)) (first_index sub r).
Proof.
  induction a as [| c a IH]; intros H.
  - rewrite app_nil_l. destruct (first_index sub r); reflexivity.
  - rewrite no_start_cons in H. apply andb_true_iff in H as [H1 H2].
    apply negb_true_iff in H1.
    rewrite app_cons, first_index_cons, H1, (IH H2).
    destruct (first_index sub r); reflexivity.
Qed.

Lemma first_index_prefix (sub s : string) :
  String.prefix sub s = true -> first_index sub s = Some O.
Proof.
  intros H.
  destruct s; [rewrite first_index_nil | rewrite first_index_cons];
    rewrite H; reflexivity.
Qed.

Lemma first_index_at (sub a r : string) :
  no_start sub a r = true -> String.prefix sub r = true ->
  first_index sub (a +:+ r) = Some (String.length a).
Proof.
  intros H1 H2. rewrite (first_index_no_start _ _ _ H1).
  rewrite (first_index_prefix _ _ H2). simpl. f_equal. lia.
Qed.

Lemma first_index_Some (sub s : string) (i : nat) :
  first_index sub s = Some i ->
  no_start sub (take i s) (drop i s) = true
  /\ String.prefix sub (drop i s) = true
  /\ (i + String.length sub <= String.length s)%nat.
Proof.
  revert i. induction s as [| c s IH]; intros i H.
  - rewrite first_index_nil in H.
    destruct (String.prefix sub EmptyString) eqn:E; [| discriminate].
    injection H as <-. split; [reflexivity |]. split; [exact E |].
    apply prefix_length in E. simpl in *. lia.
  - rewrite first_index_cons in H.
    destruct (String.prefix sub (String c s)) eqn:E.
    + injection H as <-. split; [reflexivity |]. split; [exact E |].
      apply prefix_length in E. simpl in *. lia.
    + destruct (first_index sub s) as [j |] eqn:Ej; [| discriminate].
      injection H as <-. destruct (IH j eq_refl) as (H1 & H2 & H3).
      cbn [take drop]. rewrite no_start_cons, take_drop, E, H1.
      split; [reflexivity |]. split; [exact H2 | simpl; lia].
Qed.

Lemma first_index_None (sub s : string) :
  first_index sub s = None ->
  no_start sub s EmptyString = true /\ String.prefix sub EmptyString = false.
Proof.
  induction s as [| c s IH]; intros H.
  - rewrite first_index_nil in H.
    destruct (String.prefix sub EmptyString); [discriminate |]. auto.
  - rewrite first_index_cons in H.
    destruct (String.prefix sub (String c s)) eqn:E; [discriminate |].
    destruct (first_index sub s); [discriminate |].
    destruct (IH eq_refl) as [H1 H2].
    rewrite no_start_cons, app_nil_r, E, H1. auto.
Qed.

Lemma find_first_index (s sub : string) :
  find s sub = match first_index sub s with
               | Some i => Z.of_nat i
               | None => (-1)%Z
               end.
Proof.
  unfold find, find_from.
  change (0 <? 0) with false. cbv iota.
  assert ((len s <? 0) = false) as -> by (apply Z.ltb_ge; unfold len; lia).
  change (Z.to_nat 0) with O.
  rewrite drop_0. destruct (first_index sub s); reflexivity.
Qed.

Lemma find_from_nat (s sub : string) (n : nat) :
  (n <= String.length s)%nat ->
  find_from s sub (Z.of_nat n)
  = match first_index sub (drop n s) with
    | Some i => Z.of_nat (n + i)
    | None => -1
    end.
Proof.
  intros H. unfold find_from.
  assert ((Z.of_nat n <? 0) = false) as -> by (apply Z.ltb_ge; lia).
  assert ((len s <? Z.of_nat n) = false) as ->
    by (apply Z.ltb_ge; unfold len; lia).
  rewrite Nat2Z.id. destruct (first_index sub (drop n s)); [| reflexivity].
  lia.
Qed.

Lemma find_range (s sub : string) :
  find s sub = -1
  \/ (0 <= find s sub /\ find s sub + len sub <= len s).
Proof.
  rewrite find_first_index. destruct (first_index sub s) as [i |] eqn:E.
  - right. apply first_index_Some in E as (_ & _ & H). unfold len. lia.
  - left. reflexivity.
Qed.

Lemma find_absent_short (s sub : string) :
  (String.length s < String.length sub)%nat -> find s sub = -1.
Proof.
  intros H. destruct (find_range s sub) as [E | [H1 H2]]; [exact E |].
  unfold len in *. lia.
Qed.

(** Slices with bounds inside the text. *)
Lemma slice_nat (s : string) (a b : nat) :
  (a <= String.length s)%nat -> (b <= String.length s)%nat ->
  slice s (Z.of_nat a) (Z.of_nat b) = take (b - a) (drop a s).
Proof.
  intros Ha Hb. unfold slice, norm_index, len.
  assert ((Z.of_nat a <? 0) = false) as -> by (apply Z.ltb_ge; lia).
  assert ((Z.of_nat b <? 0) = false) as -> by (apply Z.ltb_ge; lia).
  rewrite !Z.min_l by lia. rewrite Nat2Z.id. f_equal. lia.
Qed.

Lemma length_slice_le (s : string) (a b : Z) :
  0 <= a -> 0 <= b ->
  Z.of_nat (String.length (slice s a b)) <= Z.max 0 (b - a).
Proof.
  intros Ha Hb. unfold slice, norm_index, len.
  rewrite length_take, length_drop.
  assert ((a <? 0) = false) as -> by (apply Z.ltb_ge; lia).
  assert ((b <? 0) = false) as -> by (apply Z.ltb_ge; lia).
  lia.
Qed.

(** *** The scan of [replace] *)

Lemma replace_go_skip (old new : string) (k : nat) (s : string) :
  replace_go old new k s = replace_go old new O (drop k s).
Proof.
  revert k. induction s as [| c s IH]; intros k.
  - destruct k; reflexivity.
  - destruct k as [| k]; [reflexivity |]. cbn [replace_go drop]. apply IH.
Qed.

Lemma replace_go_match (o : ascii) (old' new s : string) :
  String.prefix (String o old') s = true ->
  replace_go (String o old') new O s
  = new +:+ replace_go (String o old') new O
              (drop (String.length (String o old')) s).
Proof.
  intros H. destruct s as [| c s]; [discriminate |].
  cbn [replace_go]. rewrite H, replace_go_skip. reflexivity.
Qed.

Lemma replace_go_nomatch (old new : string) (c : ascii) (s : string) :
  String.prefix old (String c s) = false ->
  replace_go old new O (String c s) = String c (replace_go old new O s).
Proof. intros H. cbn [replace_go]. rewrite H. reflexivity. Qed.

(** Where no occurrence of [old] starts, the scan copies. *)
Lemma replace_go_no_start (old new a r : string) :
  no_start old a r = true ->
  replace_go old new O (a +:+ r) = a +:+ replace_go old new O r.
Proof.
  induction a as [| c a IH]; intros H; [reflexivity |].
  rewrite no_start_cons in H. apply andb_true_iff in H as [H1 H2].
  apply negb_true_iff in H1.
  rewrite !app_cons, (replace_go_nomatch _ _ _ _ H1), (IH H2). reflexivity.
Qed.

(** The scan of a concatenation is the concatenation of the scans when
    every occurrence of [old] that starts in the first part ends in it. *)
Lemma replace_go_app (o : ascii) (old' new r : string) :
  (forall a2, String.prefix (String o old') (a2 +:+ r) = true ->
              String.prefix (String o old') a2 = true) ->
  forall a,
    replace_go (String o old') new O (a +:+ r)
    = replace_go (String o old') new O a
      +:+ replace_go (String o old') new O r.
Proof.
  intros Hs a.
  remember (String.length a) as n eqn:Hn.
  revert a Hn. induction n as [n IH] using lt_wf_ind. intros a Hn.
  destruct a as [| c a]; [reflexivity |].
  destruct (String.prefix (String o old') (String c a +:+ r)) eqn:E.
  - pose proof (Hs _ E) as E'.
    destruct (prefix_inv _ _ E') as [a' Ha']. rewrite Ha'.
    rewrite app_assoc.
    rewrite (replace_go_match o old' new (String o old' +:+ a' +:+ r))
      by apply prefix_app.
    rewrite (replace_go_match o old' new (String o old' +:+ a'))
      by apply prefix_app.
    rewrite !drop_app_length, app_assoc. f_equal.
    apply (IH (String.length a')); [| reflexivity].
    rewrite Hn, Ha', length_app. simpl. lia.
  - assert (E' : String.prefix (String o old') (String c a) = false).
    { destruct (String.prefix (String o old') (String c a)) eqn:E2;
        [| reflexivity].
      rewrite (prefix_app_l _ _ r E2) in E. discriminate. }
    rewrite app_cons in *.
    rewrite (replace_go_nomatch _ _ _ _ E), (replace_go_nomatch _ _ _ _ E').
    rewrite app_cons. f_equal.
    apply (IH (String.length a)); [| reflexivity]. rewrite Hn. simpl. lia.
Qed.

(** ** The loop of addModels ends *)

Lemma bind_Ok_inv {A B : Type} (m : outcome A) (k : A -> outcome B) (b : B) :
  bind m k = Ok b -> exists a, m = Ok a /\ k a = Ok b.
Proof. destruct m; simpl; intros H; try discriminate. eauto. Qed.

Lemma bind_not_fuel {A B : Type} (m : outcome A) (k : A -> outcome B) :
  m <> OutOfFuel -> (forall a, k a <> OutOfFuel) -> bind m k <> OutOfFuel.
Proof. destruct m; simpl; auto; discriminate. Qed.

Lemma int_not_fuel (s : string) : int s <> OutOfFuel.
Proof. unfold int. destruct (int_of_str s); discriminate. Qed.

Lemma worseStatus_not_fuel (a b : string) : worseStatus a b <> OutOfFuel.
Proof.
  unfold worseStatus, worseStatus_in.
  repeat match goal with
         | |- context [if ?b then _ else _] => destruct b
         | |- context [match ?o with Some _ => _ | None => _ end] => destruct o
         end; discriminate.
Qed.

Lemma dict_item_not_fuel (k : Z) (d : dict) : dict_item k d <> OutOfFuel.
Proof. unfold dict_item. destruct (dict_get k d); discriminate. Qed.

Lemma changeFieldPK_not_fuel (m f : string) (h : Z) :
  changeFieldPK m f h <> OutOfFuel.
Proof.
  unfold changeFieldPK. destruct (negb _); [| discriminate].
  apply bind_not_fuel; [apply int_not_fuel | discriminate].
Qed.

Lemma test_branch_not_fuel (c osKey : Z) (m : string) (ts : dict) (os : string) :
  test_branch c osKey m ts os <> OutOfFuel.
Proof.
  unfold test_branch. destruct (negb _); [| discriminate].
  apply bind_not_fuel; [apply int_not_fuel | intros z].
  apply bind_not_fuel; [apply dict_item_not_fuel | intros cur].
  apply bind_not_fuel; [apply worseStatus_not_fuel | discriminate].
Qed.

Lemma log_branch_not_fuel (c : Z) (m : string) (ts : dict) (os : string) :
  log_branch c m ts os <> OutOfFuel.
Proof.
  unfold log_branch.
  apply bind_not_fuel; [apply changeFieldPK_not_fuel | intros [m' pk]].
  apply bind_not_fuel.
  - destruct (first_status_in m'); [| discriminate].
    apply bind_not_fuel; [apply dict_item_not_fuel | intros cur].
    apply bind_not_fuel; [apply worseStatus_not_fuel | discriminate].
  - intros ts'.
    apply bind_not_fuel; [apply dict_item_not_fuel | intros cur].
    apply bind_not_fuel; [apply worseStatus_not_fuel | discriminate].
Qed.

Lemma kind_branch_not_fuel (c osKey : Z) (m : string) (ts : dict) (os : string) :
  kind_branch c osKey m ts os <> OutOfFuel.
Proof.
  unfold kind_branch.
  destruct (negb _); [apply test_branch_not_fuel |].
  destruct (negb _); [apply log_branch_not_fuel |].
  destruct (negb _).
  { apply bind_not_fuel; [apply changeFieldPK_not_fuel |].
    intros [m' pk]. discriminate. }
  destruct (_ || _); [| discriminate].
  apply bind_not_fuel; [apply changeFieldPK_not_fuel |].
  intros [m' pk]. discriminate.
Qed.

Lemma addModels_step_not_fuel (c osKey : Z) (st : loop_state) :
  addModels_step c osKey st <> OutOfFuel.
Proof.
  unfold addModels_step.
  destruct (_ =? -1); [discriminate |].
  destruct (negb _); [discriminate |].
  destruct (read_pk _); [| discriminate].
  apply bind_not_fuel; [apply int_not_fuel | intros k].
  apply bind_not_fuel; [apply kind_branch_not_fuel |].
  intros [[m ts] os]. discriminate.
Qed.

Lemma find_short_slice (fd sub : string) (a b : Z) :
  0 <= a -> 0 <= b -> b < len sub -> find (slice fd a b) sub = -1.
Proof.
  intros Ha Hb Hlt. apply find_absent_short.
  pose proof (length_slice_le fd a b Ha Hb). unfold len in *. lia.
Qed.

Lemma read_pk_short (m : string) :
  (String.length m < 6)%nat -> read_pk m = None.
Proof.
  intros H. unfold read_pk. rewrite find_absent_short; [reflexivity |].
  exact H.
Qed.

Lemma find_nonneg (s sub : string) : find s sub <> -1 -> 0 <= find s sub.
Proof. destruct (find_range s sub); lia. Qed.

(** Without a double closing brace in the text the loop is left. *)
Lemma addModels_step_unclosed (c osKey : Z) (st : loop_state) :
  find (fileData st) "}}" = -1 -> addModels_step c osKey st = Ok None.
Proof.
  intros He. unfold addModels_step. rewrite He.
  destruct (find (fileData st) "{" =? -1) eqn:Es; [reflexivity |].
  apply Z.eqb_neq, find_nonneg in Es.
  change (-1 + 4) with 3.
  rewrite (find_short_slice _ chassisObject) by first [assumption | lia | (vm_compute; reflexivity)].
  rewrite Z.eqb_refl. cbn [negb].
  unfold contains.
  rewrite (find_short_slice _ "}} ]") by first [assumption | lia | (vm_compute; reflexivity)].
  rewrite Z.eqb_refl. cbn [negb].
  rewrite read_pk_short; [reflexivity |].
  pose proof (length_slice_le (fileData st) (find (fileData st) "{") 3 Es
                ltac:(lia)).
  lia.
Qed.

Lemma length_slice_from (s : string) (a : Z) :
  0 <= a ->
  Z.of_nat (String.length (slice_from s a)) = len s - Z.min a (len s).
Proof.
  intros Ha. unfold slice_from, slice, norm_index.
  assert ((a <? 0) = false) as -> by (apply Z.ltb_ge; lia).
  assert ((len s <? 0) = false) as -> by (apply Z.ltb_ge; unfold len; lia).
  rewrite length_take, length_drop. unfold len. lia.
Qed.

(** A turn that stays in the loop shortens the text. *)
Lemma addModels_step_shrinks (c osKey : Z) (st st' : loop_state) :
  addModels_step c osKey st = Ok (Some st') ->
  (String.length (fileData st') < String.length (fileData st))%nat.
Proof.
  intros H.
  destruct (Z.eq_dec (find (fileData st) "}}") (-1)) as [He | He].
  { rewrite (addModels_step_unclosed _ _ _ He) in H. discriminate. }
  assert (Hrest : fileData st'
                  = slice_from (fileData st) (find (fileData st) "}}" + 4)).
  { unfold addModels_step in H.
    destruct (_ =? -1); [discriminate |].
    destruct (negb _); [injection H as <-; reflexivity |].
    destruct (read_pk _); [| discriminate].
    apply bind_Ok_inv in H as (k & _ & H).
    apply bind_Ok_inv in H as ([[m ts] os] & _ & H).
    injection H as <-. reflexivity. }
  rewrite Hrest.
  destruct (find_range (fileData st) "}}") as [E | [H1 H2]]; [contradiction |].
  pose proof (length_slice_from (fileData st) (find (fileData st) "}}" + 4)).
  unfold len in *. simpl String.length in H2. lia.
Qed.

Lemma addModels_loop_total (c osKey : Z) (n : nat) (st : loop_state) :
  (String.length (fileData st) < n)%nat ->
  addModels_loop n c osKey st <> OutOfFuel.
Proof.
  revert st. induction n as [| n IH]; intros st Hn; [lia |].
  cbn [addModels_loop].
  destruct (addModels_step c osKey st) as [[st' |] | e |] eqn:E; simpl.
  - apply IH. apply addModels_step_shrinks in E. lia.
  - discriminate.
  - discriminate.
  - exfalso. exact (addModels_step_not_fuel _ _ _ E).
Qed.

Lemma addModels_loop_reaches (c osKey : Z) (st st' : loop_state) :
  reaches c osKey st st' ->
  forall n, (String.length (fileData st) < n)%nat ->
    exists n', (String.length (fileData st') < n')%nat
               /\ addModels_loop n c osKey st = addModels_loop n' c osKey st'.
Proof.
  induction 1 as [st | st st1 st' Hstep Hr IH]; intros n Hn.
  - exists n. auto.
  - destruct n as [| n]; [lia |].
    rewrite (addModels_loop_continue _ _ _ _ _ Hstep).
    apply IH. apply addModels_step_shrinks in Hstep. lia.
Qed.

(** C6, as the code has it.  The loop of [addModels] ends on every text.
    When it reaches a block without the primary-key marker, and in
    particular when the rest of the text has no double closing brace (a
    last record cut in the middle), it stops there without raising, and
    [addModels] returns what the turns before have built. *)
Theorem addModels_stops_at_truncation :
  (forall data c osKey osName, addModels data c osKey osName <> OutOfFuel)
  /\ (forall c osKey st n,
        find (fileData st) "}}" = -1 ->
        addModels_loop (S n) c osKey st = Ok st)
  /\ (forall c osKey st rec n,
        next_record (fileData st) = Some rec -> read_pk rec = None ->
        addModels_loop (S n) c osKey st = Ok st)
  /\ (forall data c osKey osName st,
        reaches c osKey (addModels_init data) st ->
        (find (fileData st) "}}" = -1
         \/ exists rec, next_record (fileData st) = Some rec
                        /\ read_pk rec = None) ->
        addModels data c osKey osName
        = Ok (addModels_finish osName
                (find_chassisName (fileData (addModels_init data))) c st)).
Proof.
  assert (Hstop : forall c osKey st,
            (find (fileData st) "}}" = -1
             \/ exists rec, next_record (fileData st) = Some rec
                            /\ read_pk rec = None) ->
            addModels_step c osKey st = Ok None).
  { intros c osKey st [He | (rec & Hrec & Hpk)].
    - apply addModels_step_unclosed, He.
    - rewrite (addModels_step_next_record _ _ _ _ Hrec), Hpk. reflexivity. }
  split.
  { intros data c osKey osName. unfold addModels.
    apply bind_not_fuel; [| discriminate].
    apply addModels_loop_total. lia. }
  split.
  { intros c osKey st n He. apply addModels_loop_break, Hstop. auto. }
  split.
  { intros c osKey st rec n Hrec Hpk. apply addModels_loop_break, Hstop.
    eauto. }
  intros data c osKey osName st Hr Hend. unfold addModels.
  destruct (addModels_loop_reaches _ _ _ _ Hr
              (S (String.length (fileData (addModels_init data)))))
    as (n' & Hn' & ->); [lia |].
  destruct n' as [| n']; [lia |].
  rewrite (addModels_loop_break _ _ _ _ (Hstop c osKey st Hend)).
  reflexivity.
Qed.

Lemma addModels_stops_at_truncation_witness :
  exists r, addModels truncated_file 5 3 "centos" = Ok r
            /\ map fst (ret_emitted r) = [1]
            /\ ret_highestKey r = 6.
Proof.
  destruct addModels_stops_at_truncation as (_ & _ & _ & H).
  eexists. split.
  - apply H.
    + eapply reaches_turn; [vm_compute; reflexivity | apply reaches_here].
    + left. vm_compute. reflexivity.
  - split; vm_compute; reflexivity.
Defined.

(** ** The keys of the re-keyed records *)

(** *** Characters of integer literals *)

Lemma all_chars_cons (P : ascii -> bool) (c : ascii) (s : string) :
  all_chars P (String c s) = P c && all_chars P s.
Proof. reflexivity. Qed.

Lemma all_chars_app (P : ascii -> bool) (a b : string) :
  all_chars P (a +:+ b) = all_chars P a && all_chars P b.
Proof.
  induction a as [| c a IH]; [reflexivity |].
  rewrite app_cons, !all_chars_cons, IH, andb_assoc. reflexivity.
Qed.

Lemma all_chars_impl (P Q : ascii -> bool) (s : string) :
  (forall c, P c = true -> Q c = true) ->
  all_chars P s = true -> all_chars Q s = true.
Proof.
  intros HPQ. induction s as [| c s IH]; [reflexivity |].
  rewrite !all_chars_cons, !andb_true_iff. intros [H1 H2]. auto.
Qed.

Lemma digits_acc_chars (s : string) (acc : Z) (b : bool) (z : Z) :
  digits_acc acc b s = Some z -> all_chars int_char s = true.
Proof.
  revert acc b. induction s as [| c s IH]; intros acc b H; [reflexivity |].
  cbn [digits_acc] in H. rewrite all_chars_cons. unfold int_char at 1.
  destruct (Ascii.eqb c "_") eqn:Eu.
  - destruct b; [| discriminate]. rewrite (IH _ _ H).
    rewrite !orb_true_r. reflexivity.
  - unfold is_digit. destruct (digit_val c) eqn:Ed; [| discriminate].
    rewrite (IH _ _ H), !orb_true_r. reflexivity.
Qed.

Lemma lstrip_chars (P : ascii -> bool) (s : string) :
  (forall c, is_space c = true -> P c = true) ->
  all_chars P (lstrip s) = true -> all_chars P s = true.
Proof.
  intros Hsp. induction s as [| c s IH]; [reflexivity |].
  cbn [lstrip]. destruct (is_space c) eqn:E; [| tauto].
  intros H. rewrite all_chars_cons, (Hsp _ E), (IH H). reflexivity.
Qed.

Lemma rstrip_chars (P : ascii -> bool) (s : string) :
  (forall c, is_space c = true -> P c = true) ->
  all_chars P (rstrip s) = true -> all_chars P s = true.
Proof.
  intros Hsp. induction s as [| c s IH]; [reflexivity |].
  cbn [rstrip]. destruct (rstrip s) as [| d r] eqn:Er.
  - destruct (is_space c) eqn:E; intros H.
    + rewrite all_chars_cons, (Hsp _ E), IH; reflexivity.
    + rewrite all_chars_cons in *. apply andb_true_iff in H as [-> _].
      rewrite IH; reflexivity.
  - rewrite !all_chars_cons. intros H.
    apply andb_true_iff in H as [-> H]. rewrite (IH H). reflexivity.
Qed.

Lemma int_char_space (c : ascii) : is_space c = true -> int_char c = true.
Proof. intros H. unfold int_char. rewrite H. reflexivity. Qed.

Lemma int_of_str_chars (s : string) (z : Z) :
  int_of_str s = Some z -> all_chars int_char s = true.
Proof.
  unfold int_of_str, strip. intros H.
  apply (lstrip_chars _ _ int_char_space), (rstrip_chars _ _ int_char_space).
  destruct (rstrip (lstrip s)) as [| c r]; [reflexivity |].
  rewrite all_chars_cons.
  assert (Hr : exists z', parse_nat r = Some z' \/ parse_nat (String c r) = Some z').
  { destruct c as [[] [] [] [] [] [] [] []];
      try (exists z; right; exact H);
      cbn in H; destruct (parse_nat r) as [z' |] eqn:E;
      try discriminate; exists z'; left; reflexivity. }
  destruct Hr as (z' & [Hr | Hr]).
  - assert (Hc : int_char c = true).
    { destruct c as [[] [] [] [] [] [] [] []]; try reflexivity;
        cbn in H; unfold parse_nat in H; cbn in H; discriminate. }
    rewrite Hc. apply (digits_acc_chars _ _ _ _ Hr).
  - rewrite <- all_chars_cons. apply (digits_acc_chars _ _ _ _ Hr).
Qed.

(** *** [str] and [int] *)

Lemma digit_char_cases (d : N) :
  (d < 10)%N ->
  d = 0%N \/ d = 1%N \/ d = 2%N \/ d = 3%N \/ d = 4%N \/ d = 5%N
  \/ d = 6%N \/ d = 7%N \/ d = 8%N \/ d = 9%N.
Proof. lia. Qed.

Lemma digit_val_digit_char (d : N) :
  (d < 10)%N ->
  digit_val (digit_char d) = Some (Z.of_N d)
  /\ Ascii.eqb (digit_char d) "_" = false
  /\ is_space (digit_char d) = false
  /\ Ascii.eqb (digit_char d) "+" = false
  /\ Ascii.eqb (digit_char d) "-" = false.
Proof.
  intros H. apply digit_char_cases in H.
  repeat (destruct H as [H | H]); subst d; repeat split; reflexivity.
Qed.

Lemma is_digit_digit_char (d : N) : (d < 10)%N -> is_digit (digit_char d) = true.
Proof.
  intros H. unfold is_digit.
  destruct (digit_val_digit_char d H) as (-> & _). reflexivity.
Qed.

Lemma digits_of_chars (fuel : nat) (n : N) (acc : string) :
  all_chars is_digit acc = true ->
  all_chars is_digit (digits_of fuel n acc) = true.
Proof.
  revert n acc. induction fuel as [| f IH]; intros n acc H.
  - cbn [digits_of]. rewrite all_chars_cons, H, is_digit_digit_char;
      [reflexivity |]. apply N.mod_lt. discriminate.
  - cbn [digits_of]. destruct (n / 10 =? 0)%N.
    + rewrite all_chars_cons, H, is_digit_digit_char; [reflexivity |].
      apply N.mod_lt. discriminate.
    + apply IH. rewrite all_chars_cons, H, is_digit_digit_char;
        [reflexivity |]. apply N.mod_lt. discriminate.
Qed.

Lemma str_chars (z : Z) : all_chars str_char (str z) = true.
Proof.
  unfold str.
  assert (H : all_chars str_char
                (digits_of (N.to_nat (N.log2 (Z.abs_N z))) (Z.abs_N z)
                   EmptyString) = true).
  { apply (all_chars_impl is_digit).
    - intros c Hc. unfold str_char. rewrite Hc. apply orb_true_r.
    - apply digits_of_chars. reflexivity. }
  destruct (z <? 0); [| exact H]. rewrite all_chars_cons, H. reflexivity.
Qed.

Lemma digits_of_parse (fuel : nat) (n : N) (acc : string) :
  (n < 10 ^ N.of_nat (S fuel))%N ->
  digits_acc 0 false (digits_of fuel n acc) = digits_acc (Z.of_N n) true acc.
Proof.
  revert n acc. induction fuel as [| f IH]; intros n acc H.
  - cbn [digits_of]. change (10 ^ N.of_nat 1)%N with 10%N in H.
    rewrite N.mod_small by exact H.
    destruct (digit_val_digit_char n H) as (Hd & Hu & _).
    cbn [digits_acc]. rewrite Hu, Hd. f_equal; lia.
  - cbn [digits_of]. destruct (n / 10 =? 0)%N eqn:E.
    + apply N.eqb_eq in E.
      assert (Hn : (n < 10)%N).
      { pose proof (N.div_mod n 10 ltac:(discriminate)) as Hdm.
        pose proof (N.mod_lt n 10 ltac:(discriminate)). lia. }
      rewrite N.mod_small by exact Hn.
      destruct (digit_val_digit_char n Hn) as (Hd & Hu & _).
      cbn [digits_acc]. rewrite Hu, Hd. f_equal; lia.
    + rewrite IH.
      * assert (Hm : (n mod 10 < 10)%N) by (apply N.mod_lt; discriminate).
        destruct (digit_val_digit_char _ Hm) as (Hd & Hu & _).
        cbn [digits_acc]. rewrite Hu, Hd. f_equal.
        pose proof (N.div_mod n 10 ltac:(discriminate)). lia.
      * apply N.Div0.div_lt_upper_bound.
        rewrite <- N.pow_succ_r'. rewrite <- Nat2N.inj_succ. exact H.
Qed.

Lemma log2_bound (n : N) : (n < 10 ^ N.of_nat (S (N.to_nat (N.log2 n))))%N.
Proof.
  rewrite Nat2N.inj_succ, N2Nat.id.
  destruct (N.eq_dec n 0%N) as [-> | Hn]; [reflexivity |].
  apply N.lt_le_trans with (2 ^ N.succ (N.log2 n))%N.
  - apply N.log2_spec. lia.
  - apply N.pow_le_mono_l. lia.
Qed.

Lemma strip_no_space (s : string) :
  all_chars (fun c => negb (is_space c)) s = true -> strip s = s.
Proof.
  unfold strip. intros H.
  assert (Hl : lstrip s = s).
  { destruct s as [| c s]; [reflexivity |]. rewrite all_chars_cons in H.
    apply andb_true_iff in H as [H _]. apply negb_true_iff in H.
    cbn [lstrip]. rewrite H. reflexivity. }
  rewrite Hl. clear Hl. induction s as [| c s IH]; [reflexivity |].
  rewrite all_chars_cons in H. apply andb_true_iff in H as [Hc Hs].
  apply negb_true_iff in Hc. cbn [rstrip]. rewrite (IH Hs), Hc.
  destruct s; reflexivity.
Qed.

Lemma digits_of_head (fuel : nat) (n : N) (acc : string) :
  exists d r, digits_of fuel n acc = String (digit_char d) r /\ (d < 10)%N.
Proof.
  revert n acc. induction fuel as [| f IH]; intros n acc.
  - exists (n mod 10)%N, acc. split; [reflexivity |].
    apply N.mod_lt. discriminate.
  - cbn [digits_of]. destruct (n / 10 =? 0)%N; [| apply IH].
    exists (n mod 10)%N, acc. split; [reflexivity |].
    apply N.mod_lt. discriminate.
Qed.

(** [int(str(z)) == z] *)
Lemma int_of_str_str (z : Z) : int_of_str (str z) = Some z.
Proof.
  unfold int_of_str. rewrite strip_no_space.
  2:{ apply (all_chars_impl str_char); [| apply str_chars].
      intros c.
      destruct c as [[] [] [] [] [] [] [] []]; vm_compute; intros Hc;
        first [reflexivity | discriminate Hc]. }
  unfold str.
  set (n := Z.abs_N z).
  pose proof (digits_of_parse (N.to_nat (N.log2 n)) n EmptyString
                (log2_bound n)) as Hp.
  destruct (digits_of_head (N.to_nat (N.log2 n)) n EmptyString)
    as (d & r & Hd & Hlt).
  cbn [digits_acc] in Hp.
  destruct (z <? 0) eqn:Ez.
  - unfold parse_nat. rewrite Hp. cbn [option_map]. f_equal.
    apply Z.ltb_lt in Ez. subst n. lia.
  - rewrite Hd in *.
    destruct (digit_val_digit_char d Hlt) as (_ & _ & _ & Hplus & Hminus).
    assert (Hm : match String (digit_char d) r with
                 | String "+" r0 => parse_nat r0
                 | String "-" r0 => option_map Z.opp (parse_nat r0)
                 | r0 => parse_nat r0
                 end = parse_nat (String (digit_char d) r)).
    { apply digit_char_cases in Hlt.
      repeat (destruct Hlt as [Hlt | Hlt]); subst d; reflexivity. }
    rewrite Hm. unfold parse_nat. rewrite Hp. f_equal.
    apply Z.ltb_ge in Ez. subst n. lia.
Qed.

(** *** Patterns that cannot overlap the primary-key marker *)

Lemma dq_next_not_cons (x c : ascii) (s : string) :
  dq_next_not x (String c s)
  = (if Ascii.eqb c dq_char
     then match s with
          | String d _ => negb (Ascii.eqb d x)
          | EmptyString => false
          end
     else true)
    && dq_next_not x s.
Proof. reflexivity. Qed.

Lemma dq_next_not_app (x : ascii) (a b : string) :
  dq_next_not x a = true -> dq_next_not x b = true ->
  dq_next_not x (a +:+ b) = true.
Proof.
  induction a as [| c a IH]; intros Ha Hb; [exact Hb |].
  rewrite dq_next_not_cons in Ha. apply andb_true_iff in Ha as [H1 H2].
  rewrite app_cons, dq_next_not_cons, (IH H2 Hb), andb_true_r.
  destruct (Ascii.eqb c dq_char); [| reflexivity].
  destruct a as [| d a]; [discriminate |]. rewrite app_cons. exact H1.
Qed.

Lemma no_dq_next_not (x : ascii) (s : string) :
  no_dq s = true -> dq_next_not x s = true.
Proof.
  unfold no_dq. induction s as [| c s IH]; [reflexivity |].
  rewrite all_chars_cons, dq_next_not_cons. intros H.
  apply andb_true_iff in H as [H1 H2]. unfold not_char in H1.
  apply negb_true_iff in H1. rewrite H1, (IH H2). reflexivity.
Qed.

Lemma no_start_app (sub a b r : string) :
  no_start sub (a +:+ b) r = no_start sub a (b +:+ r) && no_start sub b r.
Proof.
  induction a as [| c a IH]; [reflexivity |].
  rewrite app_cons, !no_start_cons, IH, app_assoc, andb_assoc. reflexivity.
Qed.

Lemma no_start_weaken (sub sub' a r : string) :
  (forall s, String.prefix sub' s = true -> String.prefix sub s = true) ->
  no_start sub a r = true -> no_start sub' a r = true.
Proof.
  intros Hw. induction a as [| c a IH]; [reflexivity |].
  rewrite !no_start_cons, !andb_true_iff, !negb_true_iff. intros [H1 H2].
  split; [| auto].
  destruct (String.prefix sub' _) eqn:E; [| reflexivity].
  rewrite (Hw _ E) in H1. discriminate.
Qed.

(** Only the first characters of what follows matter. *)
Lemma no_start_cont (sub a p t t' : string) :
  (String.length sub <= S (String.length p))%nat ->
  no_start sub a (p +:+ t) = no_start sub a (p +:+ t').
Proof.
  intros H. induction a as [| c a IH]; [reflexivity |].
  rewrite !no_start_cons, IH. f_equal. f_equal.
  rewrite <- !app_cons, <- !app_assoc. apply prefix_app_short.
  rewrite length_app. simpl. lia.
Qed.

(** A pattern that starts with a double quote and then [o1] starts nowhere
    in a text whose double quotes are never followed by [o1]. *)
Lemma no_start_guard (o1 : ascii) (old2 s r : string) :
  dq_next_not o1 s = true ->
  no_start (String dq_char (String o1 old2)) s r = true.
Proof.
  induction s as [| c s IH]; [reflexivity |].
  rewrite dq_next_not_cons, no_start_cons. intros H.
  apply andb_true_iff in H as [H1 H2]. rewrite (IH H2), andb_true_r.
  apply negb_true_iff. rewrite prefix_cons.
  rewrite (Ascii.eqb_sym dq_char c).
  destruct (Ascii.eqb c dq_char); [| reflexivity].
  destruct s as [| d s]; [discriminate |]. rewrite app_cons, prefix_cons.
  apply negb_true_iff in H1. rewrite (Ascii.eqb_sym o1 d), H1. reflexivity.
Qed.

Lemma pk_marker_eq :
  pk_marker
  = String dq_char
      (String "p" (String "k" (String dq_char (String ":" (String " " EmptyString))))).
Proof. reflexivity. Qed.

(** An occurrence of [old] that starts before the marker ends before it. *)
Lemma prefix_before_marker (old a2 rest : string) :
  dq_next_not "p" old = true ->
  String.prefix old (a2 +:+ pk_marker +:+ rest) = true ->
  String.prefix old a2 = true.
Proof.
  revert a2. induction old as [| c old IH]; intros a2 Hg H.
  - apply prefix_nil.
  - rewrite dq_next_not_cons in Hg. apply andb_true_iff in Hg as [Hg1 Hg2].
    destruct a2 as [| y a2].
    + exfalso. rewrite app_nil_l, pk_marker_eq, app_cons, prefix_cons in H.
      destruct (Ascii.eqb c dq_char) eqn:Ec.
      * destruct old as [| d old]; [discriminate |].
        rewrite app_cons, prefix_cons in H.
        apply negb_true_iff in Hg1. rewrite Hg1 in H.
        destruct (Ascii.eqb c dq_char); discriminate.
      * discriminate.
    + rewrite app_cons, prefix_cons in H. rewrite prefix_cons.
      destruct (Ascii.eqb c y); [| discriminate]. apply (IH _ Hg2 H).
Qed.

(** *** A replacement that leaves the primary-key field alone *)

Section ReplaceKeepsMarker.

(** The pattern and its replacement both start with a double quote
    followed by a character that is neither a colon nor the letter p,
    as the field names of the source do. *)
Variables (o1 n1 : ascii) (old2 new2 : string).
Let old : string := String dq_char (String o1 old2).
Let new : string := String dq_char (String n1 new2).
Hypothesis o1_colon : Ascii.eqb o1 ":" = false.
Hypothesis n1_colon : Ascii.eqb n1 ":" = false.
Hypothesis old_guard : dq_next_not "p" old = true.
Hypothesis new_guard : dq_next_not "p" new = true.

Lemma o1_p : Ascii.eqb o1 "p" = false.
Proof using old_guard.
  unfold old in old_guard. rewrite dq_next_not_cons in old_guard.
  apply andb_true_iff in old_guard as [H _].
  apply negb_true_iff in H. exact H.
Qed.

Lemma scan_head (c : ascii) (s T U : string) :
  replace_go old new O s +:+ T = String c U ->
  Ascii.eqb c dq_char = false ->
  (s = EmptyString /\ T = String c U)
  \/ exists s1, s = String c s1 /\ replace_go old new O s1 +:+ T = U.
Proof using Type.
  intros H Hc. destruct s as [| d s1]; [left; auto |]. right.
  destruct (String.prefix old (String d s1)) eqn:E.
  - unfold old in *. rewrite (replace_go_match _ _ _ _ E) in H.
    unfold new in H. rewrite !app_cons in H. injection H as <- _.
    discriminate.
  - rewrite (replace_go_nomatch _ _ _ _ E), app_cons in H.
    injection H as -> H. eauto.
Qed.

Lemma scan_head_dq (d : ascii) (s T U : string) :
  replace_go old new O s +:+ T = String dq_char (String d U) ->
  Ascii.eqb n1 d = false ->
  (s = EmptyString /\ T = String dq_char (String d U))
  \/ exists s1, s = String dq_char s1
                /\ replace_go old new O s1 +:+ T = String d U.
Proof using Type.
  intros H Hd. destruct s as [| e s1]; [left; auto |]. right.
  destruct (String.prefix old (String e s1)) eqn:E.
  - unfold old in *. rewrite (replace_go_match _ _ _ _ E) in H.
    unfold new in H. rewrite !app_cons in H. injection H as <- _.
    rewrite Ascii.eqb_refl in Hd. discriminate.
  - rewrite (replace_go_nomatch _ _ _ _ E), app_cons in H.
    injection H as -> H. eauto.
Qed.

(** The scan creates no marker at the head of a text. *)
Lemma scan_head_marker (c : ascii) (A1 t t' : string) :
  String.prefix pk_marker
    (String c (replace_go old new O A1 +:+ pk_marker +:+ t')) = true ->
  String.prefix pk_marker (String c (A1 +:+ pk_marker +:+ t)) = true.
Proof using n1_colon.
  intros H. apply prefix_inv in H as [rest H].
  rewrite pk_marker_eq in H at 2. rewrite !app_cons, app_nil_l in H.
  injection H as -> H.
  apply scan_head in H as [[_ H] | (s1 & -> & H)]; [| | reflexivity].
  { rewrite pk_marker_eq, app_cons in H. discriminate. }
  apply scan_head in H as [[_ H] | (s2 & -> & H)]; [| | reflexivity].
  { rewrite pk_marker_eq, app_cons in H. discriminate. }
  apply scan_head_dq in H as [[_ H] | (s3 & -> & H)]; [| | exact n1_colon].
  { rewrite pk_marker_eq, !app_cons in H. discriminate. }
  apply scan_head in H as [[_ H] | (s4 & -> & H)]; [| | reflexivity].
  { rewrite pk_marker_eq, app_cons in H. discriminate. }
  apply scan_head in H as [[_ H] | (s5 & -> & H)]; [| | reflexivity].
  { rewrite pk_marker_eq, app_cons in H. discriminate. }
  rewrite pk_marker_eq, !app_cons, !prefix_cons, !Ascii.eqb_refl.
  apply prefix_nil.
Qed.

(** The scan creates no marker anywhere before a marker. *)
Lemma scan_no_marker (A t t' : string) :
  no_start pk_marker A (pk_marker +:+ t) = true ->
  no_start pk_marker (replace_go old new O A) (pk_marker +:+ t') = true.
Proof using n1_colon new_guard.
  remember (String.length A) as n eqn:Hn.
  revert A Hn. induction n as [n IH] using lt_wf_ind. intros A Hn H.
  destruct A as [| c A1]; [reflexivity |].
  destruct (String.prefix old (String c A1)) eqn:E.
  - destruct (prefix_inv _ _ E) as [A2 HA2]. rewrite HA2 in *.
    unfold old in *. rewrite (replace_go_match _ _ _ _ (prefix_app _ _)).
    rewrite drop_app_length. rewrite no_start_app in H.
    apply andb_true_iff in H as [_ H2].
    rewrite no_start_app, andb_true_iff. split.
    + rewrite pk_marker_eq at 1. apply no_start_guard, new_guard.
    + apply (IH (String.length A2)); [| reflexivity | exact H2].
      rewrite Hn, length_app. simpl. lia.
  - rewrite (replace_go_nomatch _ _ _ _ E).
    rewrite no_start_cons in *. apply andb_true_iff in H as [H1 H2].
    apply andb_true_iff. split.
    + apply negb_true_iff. apply negb_true_iff in H1.
      destruct (String.prefix pk_marker
                  (String c (replace_go old new O A1 +:+ pk_marker +:+ t')))
        eqn:E2; [| reflexivity].
      rewrite (scan_head_marker _ _ t _ E2) in H1. discriminate.
    + apply (IH (String.length A1)); [| reflexivity | exact H2].
      rewrite Hn. simpl. lia.
Qed.

(** The field [pk_marker +:+ X], the first of the text, is still the
    first after the replacement, and unchanged. *)
Lemma replace_keeps_marker (A X B : string) :
  no_start pk_marker A (pk_marker +:+ X +:+ B) = true ->
  no_dq X = true ->
  exists A' B',
    replace (A +:+ pk_marker +:+ X +:+ B) old new
    = A' +:+ pk_marker +:+ X +:+ B'
    /\ no_start pk_marker A' (pk_marker +:+ X +:+ B') = true.
Proof using o1_colon n1_colon old_guard new_guard.
  intros HA HX.
  exists (replace_go old new O A), (replace_go old new O B).
  split; [| apply (scan_no_marker _ _ _ HA)].
  unfold replace, old at 1. fold old.
  unfold old. rewrite replace_go_app.
  2:{ intros a2. apply prefix_before_marker, old_guard. }
  f_equal. rewrite <- !app_assoc.
  rewrite replace_go_no_start; [reflexivity |].
  apply no_start_guard. apply dq_next_not_app.
  - rewrite pk_marker_eq. rewrite !dq_next_not_cons.
    rewrite !Ascii.eqb_refl.
    change (Ascii.eqb "p" dq_char) with false.
    change (Ascii.eqb "k" dq_char) with false.
    change (Ascii.eqb ":" dq_char) with false.
    change (Ascii.eqb " " dq_char) with false.
    rewrite (Ascii.eqb_sym "p" o1), o1_p.
    rewrite (Ascii.eqb_sym ":" o1), o1_colon. reflexivity.
  - apply no_dq_next_not, HX.
Qed.

End ReplaceKeepsMarker.

(** *** The shape of a record block *)

Lemma drop_app_le (n : nat) (a b : string) :
  (n <= String.length a)%nat -> drop n (a +:+ b) = drop n a +:+ b.
Proof.
  revert a. induction n as [| n IH]; intros a H.
  - rewrite !drop_0. reflexivity.
  - destruct a as [| c a]; [simpl in H; lia |].
    rewrite app_cons. cbn [drop]. apply IH. simpl in H. lia.
Qed.

Lemma take_app_plus (n : nat) (a b : string) :
  take (String.length a + n) (a +:+ b) = a +:+ take n b.
Proof.
  induction a as [| c a IH]; [reflexivity |].
  rewrite app_cons. cbn [String.length Nat.add take]. rewrite IH.
  reflexivity.
Qed.

Lemma no_start_short (sub a r : string) :
  (String.length a + String.length r < String.length sub)%nat ->
  no_start sub a r = true.
Proof.
  induction a as [| c a IH]; intros H; [reflexivity |].
  rewrite no_start_cons, IH by (simpl in H; lia). rewrite andb_true_r.
  apply negb_true_iff.
  destruct (String.prefix sub (String c (a +:+ r))) eqn:E; [| reflexivity].
  apply prefix_length in E. simpl in *. rewrite length_app in E. lia.
Qed.

Lemma replace_go_short (old new s : string) :
  (String.length s < String.length old)%nat ->
  replace_go old new O s = s.
Proof.
  intros H. rewrite <- (app_nil_r s) at 1.
  rewrite replace_go_no_start; [apply app_nil_r |].
  apply no_start_short. simpl. lia.
Qed.

Lemma get_app_r (a b : string) (n : nat) :
  String.get (String.length a + n) (a +:+ b) = String.get n b.
Proof. rewrite Nat.add_comm. symmetry. apply append_correct2. Qed.

(** The text from the first opening brace of [fd] to two characters after
    its first double closing brace. *)
Lemma block_shape (fd : string) :
  let s := find fd "{" in
  let e := find fd "}}" in
  0 <= s -> s <= e ->
  exists P suf,
    slice fd s (e + 4) = P +:+ "}}" +:+ suf
    /\ (String.length suf <= 2)%nat
    /\ no_start "}}" P ("}}" +:+ suf) = true.
Proof.
  intros s e Hs He. subst s e.
  rewrite (find_first_index fd "}}") in *.
  destruct (first_index "}}" fd) as [i |] eqn:Ei; [| lia].
  destruct (first_index_Some _ _ _ Ei) as (Hns & Hp & Hlen).
  apply prefix_inv in Hp as [G HG].
  set (F := take i fd) in *.
  assert (Hfd : fd = F +:+ "}}" +:+ G).
  { rewrite <- HG. symmetry. apply take_drop. }
  assert (HF : String.length F = i).
  { unfold F. rewrite length_take. lia. }
  set (s := find fd "{") in *.
  assert (Hsn : s = Z.of_nat (Z.to_nat s)) by lia.
  set (sn := Z.to_nat s) in *.
  exists (drop sn F), (take 2 G).
  assert (Hrange : (sn <= String.length F)%nat) by lia.
  split; [| split].
  - unfold slice, norm_index.
    assert ((s <? 0) = false) as -> by (apply Z.ltb_ge; lia).
    assert ((Z.of_nat i + 4 <? 0) = false) as -> by (apply Z.ltb_ge; lia).
    assert (Hl : len fd = Z.of_nat (i + 2 + String.length G)).
    { unfold len. rewrite Hfd, !length_app, HF. simpl. lia. }
    rewrite Hl. rewrite (Z.min_l s) by lia. fold sn.
    rewrite Hfd at 1. rewrite (drop_app_le sn F) by exact Hrange.
    assert (Hn : Z.to_nat (Z.min (Z.of_nat i + 4)
                             (Z.of_nat (i + 2 + String.length G)) - s)
                 = (String.length (drop sn F)
                    + (2 + Nat.min 2 (String.length G)))%nat).
    { rewrite length_drop. lia. }
    rewrite Hn, take_app_plus. f_equal.
    change (2 + Nat.min 2 (String.length G))%nat
      with (String.length "}}" + Nat.min 2 (String.length G))%nat.
    rewrite take_app_plus. f_equal.
    destruct (Nat.le_ge_cases 2 (String.length G)) as [H2 | H2].
    + rewrite Nat.min_l by exact H2. reflexivity.
    + rewrite Nat.min_r by exact H2.
      rewrite !take_all; [reflexivity | lia | lia].
  - rewrite length_take. lia.
  - rewrite HG in Hns. fold F in Hns.
    rewrite <- (take_drop sn F), no_start_app in Hns.
    apply andb_true_iff in Hns as [_ Hns].
    rewrite (no_start_cont _ _ "}}" _ G); [exact Hns | simpl; lia].
Qed.

(** The same text once [addModels] has shortened its closing bracket. *)
Lemma record_shape (fd rec prevPK : string) :
  next_record fd = Some rec -> read_pk rec = Some prevPK ->
  exists P suf,
    rec = P +:+ "}}" +:+ suf /\ (String.length suf <= 2)%nat.
Proof.
  unfold next_record. intros Hrec Hpk.
  destruct (find fd "{" =? -1) eqn:Es; [discriminate |].
  apply Z.eqb_neq, find_nonneg in Es.
  destruct (negb _); [discriminate |]. injection Hrec as Hrec.
  destruct (Z_lt_le_dec (find fd "}}") (find fd "{")) as [Hlt | Hle].
  { (* the block is shorter than a marker *)
    exfalso.
    pose proof (length_slice_le fd (find fd "{") (find fd "}}" + 4) Es) as Hl.
    destruct (find_range fd "}}") as [E | [E _]].
    - rewrite E in *. change (-1 + 4) with 3 in *.
      specialize (Hl ltac:(lia)).
      unfold contains in Hrec.
      rewrite (find_absent_short _ "}} ]") in Hrec by (simpl; lia).
      rewrite Z.eqb_refl in Hrec. cbn [negb] in Hrec. subst rec.
      rewrite read_pk_short in Hpk by lia. discriminate.
    - specialize (Hl ltac:(lia)).
      unfold contains in Hrec.
      rewrite (find_absent_short _ "}} ]") in Hrec by (simpl; lia).
      rewrite Z.eqb_refl in Hrec. cbn [negb] in Hrec. subst rec.
      rewrite read_pk_short in Hpk by lia. discriminate. }
  destruct (block_shape fd Es Hle) as (P & suf & Hb & Hsuf & Hns).
  rewrite Hb in Hrec.
  destruct (contains _ _); [| eauto].
  subst rec. unfold replace.
  rewrite replace_go_no_start.
  2:{ apply (no_start_weaken "}}"); [| exact Hns].
      intros s Hs. apply prefix_inv in Hs as [b ->].
      apply (prefix_app "}}" (" ]" +:+ b)). }
  destruct (String.prefix "}} ]" ("}}" +:+ suf)) eqn:E.
  - rewrite (replace_go_match _ _ _ _ E).
    rewrite drop_all by (rewrite length_app; simpl; lia).
    exists P, EmptyString. split; [reflexivity | simpl; lia].
  - change ("}}" +:+ suf) with (String "}" (String "}" suf)) in *.
    rewrite (replace_go_nomatch _ _ _ _ E).
    assert (E2 : String.prefix "}} ]" (String "}" suf) = false).
    { destruct (String.prefix "}} ]" (String "}" suf)) eqn:E2;
        [| reflexivity].
      apply prefix_length in E2. simpl in E2. lia. }
    rewrite (replace_go_nomatch _ _ _ _ E2).
    rewrite replace_go_short by (simpl; lia).
    exists P, suf. auto.
Qed.

Lemma marker_get (n : nat) (R0 : string) :
  (n < 6)%nat -> String.get n (pk_marker +:+ R0) <> Some "}"%char.
Proof.
  intros H. rewrite pk_marker_eq, !app_cons.
  do 6 (destruct n as [| n]; [discriminate |]). lia.
Qed.

(** The marker of a record stands before its closing braces. *)
Lemma marker_before_braces (A R0 P suf : string) :
  A +:+ pk_marker +:+ R0 = P +:+ "}}" +:+ suf ->
  (String.length suf <= 2)%nat ->
  exists P', R0 = P' +:+ "}}" +:+ suf.
Proof.
  intros H Hsuf.
  assert (Hlen : (String.length A + 6 + String.length R0
                  = String.length P + 2 + String.length suf)%nat).
  { apply (f_equal String.length) in H. rewrite !length_app in H.
    simpl in H. lia. }
  assert (Hg0 : String.get (String.length P) (A +:+ pk_marker +:+ R0)
                = Some "}"%char).
  { rewrite H. rewrite <- (Nat.add_0_r (String.length P)), get_app_r.
    reflexivity. }
  assert (Hg1 : String.get (String.length P + 1) (A +:+ pk_marker +:+ R0)
                = Some "}"%char).
  { rewrite H, get_app_r. reflexivity. }
  destruct (Nat.le_gt_cases (String.length A + 6) (String.length P))
    as [Hle | Hgt].
  - exists (drop (String.length A + 6) P).
    apply (f_equal (drop (String.length A + 6))) in H.
    rewrite (drop_app_le _ P) in H by exact Hle. rewrite <- H.
    rewrite drop_app_plus.
    change 6%nat with (String.length pk_marker).
    rewrite drop_app_length. reflexivity.
  - exfalso.
    destruct (Nat.le_gt_cases (String.length A) (String.length P))
      as [Hle | Hgt2].
    + replace (String.length P)
        with (String.length A + (String.length P - String.length A))%nat
        in Hg0 by lia.
      rewrite get_app_r in Hg0. apply marker_get in Hg0; [exact Hg0 | lia].
    + assert (Ha : String.length A = (String.length P + 1)%nat) by lia.
      rewrite <- Ha, <- (Nat.add_0_r (String.length A)), get_app_r in Hg1.
      apply marker_get in Hg1; [exact Hg1 | lia].
Qed.

Lemma read_pk_Some (rec prevPK : string) :
  read_pk rec = Some prevPK ->
  exists A R0,
    rec = A +:+ pk_marker +:+ R0
    /\ no_start pk_marker A (pk_marker +:+ R0) = true
    /\ prevPK = slice rec (Z.of_nat (String.length A + 6))
                  (find_from rec "," (Z.of_nat (String.length A + 6)))
    /\ find_from rec "," (Z.of_nat (String.length A + 6))
       = match first_index "," R0 with
         | Some j => Z.of_nat (String.length A + 6 + j)
         | None => -1
         end.
Proof.
  unfold read_pk. rewrite find_first_index.
  destruct (first_index pk_marker rec) as [i |] eqn:Ei.
  2:{ rewrite Z.eqb_refl. discriminate. }
  assert ((Z.of_nat i =? -1) = false) as -> by (apply Z.eqb_neq; lia).
  intros H. injection H as H.
  destruct (first_index_Some _ _ _ Ei) as (Hns & Hp & Hlen).
  apply prefix_inv in Hp as [R0 HR0].
  assert (Hl : String.length (take i rec) = i).
  { rewrite length_take. lia. }
  exists (take i rec), R0. rewrite Hl.
  assert (Hrec : rec = take i rec +:+ pk_marker +:+ R0).
  { rewrite <- HR0. symmetry. apply take_drop. }
  replace (Z.of_nat i + 6) with (Z.of_nat (i + 6)) in H by lia.
  split; [exact Hrec |]. split; [rewrite <- HR0; exact Hns |].
  split; [symmetry; exact H |].
  rewrite find_from_nat by (simpl in Hlen; lia).
  assert (Hd : drop (i + 6) rec = R0).
  { rewrite Hrec at 1. rewrite <- Hl at 1. rewrite drop_app_plus.
    change 6%nat with (String.length pk_marker). apply drop_app_length. }
  rewrite Hd. reflexivity.
Qed.

Lemma int_char_brace : int_char "}" = false.
Proof. reflexivity. Qed.

(** The primary key of a record that [int] accepts is followed by a comma:
    the record is the text before the marker, the marker, the key, the
    comma and the rest. *)
Lemma record_pk_split (fd rec prevPK : string) (k : Z) :
  next_record fd = Some rec -> read_pk rec = Some prevPK ->
  int_of_str prevPK = Some k ->
  exists A B,
    rec = A +:+ pk_marker +:+ (prevPK +:+ ",") +:+ B
    /\ no_start pk_marker A (pk_marker +:+ (prevPK +:+ ",") +:+ B) = true.
Proof.
  intros Hrec Hpk Hint.
  destruct (record_shape _ _ _ Hrec Hpk) as (P & suf & Hshape & Hsuf).
  destruct (read_pk_Some _ _ Hpk) as (A & R0 & HA & Hns & Hprev & Hcomma).
  assert (Hlen : String.length rec = (String.length A + 6 + String.length R0)%nat).
  { rewrite HA at 1. rewrite !length_app. simpl. lia. }
  assert (Hd : drop (String.length A + 6) rec = R0).
  { rewrite HA at 1. rewrite drop_app_plus.
    change 6%nat with (String.length pk_marker). apply drop_app_length. }
  destruct (first_index "," R0) as [j |] eqn:Ej.
  - destruct (first_index_Some _ _ _ Ej) as (_ & Hp & Hj).
    apply prefix_inv in Hp as [B HB]. simpl in Hj.
    rewrite Hcomma in Hprev.
    rewrite slice_nat in Hprev by lia.
    replace (String.length A + 6 + j - (String.length A + 6))%nat with j
      in Hprev by lia.
    rewrite Hd in Hprev.
    assert (HR0 : R0 = prevPK +:+ "," +:+ B).
    { rewrite Hprev, <- HB. symmetry. apply take_drop. }
    exists A, B. rewrite app_assoc, <- HR0. auto.
  - exfalso.
    rewrite Hcomma in Hprev.
    assert (Hprev' : prevPK = take (String.length R0 - 1) R0).
    { rewrite Hprev. unfold slice, norm_index.
      assert ((Z.of_nat (String.length A + 6) <? 0) = false) as ->
        by (apply Z.ltb_ge; lia).
      change (-1 <? 0) with true. cbv iota.
      unfold len. rewrite Hlen.
      rewrite Z.min_l by lia. rewrite Nat2Z.id, Hd. f_equal. lia. }
    rewrite HA in Hshape.
    destruct (marker_before_braces _ _ _ _ Hshape Hsuf) as (P' & HP').
    apply int_of_str_chars in Hint.
    assert (Ht : take (String.length R0 - 1) R0
                 = P' +:+ String "}" (take (String.length suf)
                                        (String "}" suf))).
    { rewrite HP' at 2.
      replace (String.length R0 - 1)%nat
        with (String.length P' + S (String.length suf))%nat.
      2:{ rewrite HP', !length_app. simpl. lia. }
      rewrite take_app_plus. reflexivity. }
    rewrite Hprev', Ht, all_chars_app, all_chars_cons, int_char_brace in Hint.
    rewrite andb_false_r in Hint. discriminate.
Qed.

(** *** The key of a re-keyed record *)

Lemma prefix_app_inv (a b s : string) :
  String.prefix (a +:+ b) s = true -> String.prefix a s = true.
Proof.
  intros H. apply prefix_inv in H as [t ->]. rewrite app_assoc.
  apply prefix_app.
Qed.

Lemma no_start_char (x : ascii) (s r : string) :
  all_chars (not_char x) s = true ->
  no_start (String x EmptyString) s r = true.
Proof.
  induction s as [| c s IH]; [reflexivity |].
  rewrite all_chars_cons, no_start_cons. intros H.
  apply andb_true_iff in H as [H1 H2]. rewrite (IH H2), andb_true_r.
  apply negb_true_iff. rewrite prefix_cons. unfold not_char in H1.
  apply negb_true_iff in H1. rewrite (Ascii.eqb_sym x c), H1. reflexivity.
Qed.

Lemma str_char_not (x : ascii) :
  str_char x = false -> forall z, all_chars (not_char x) (str z) = true.
Proof.
  intros Hx z. apply (all_chars_impl str_char); [| apply str_chars].
  intros c Hc. unfold not_char. apply negb_true_iff.
  destruct (Ascii.eqb c x) eqn:E; [| reflexivity].
  apply Ascii.eqb_eq in E. subst c. congruence.
Qed.

Lemma int_char_not (x : ascii) (s : string) (z : Z) :
  int_char x = false -> int_of_str s = Some z ->
  all_chars (not_char x) s = true.
Proof.
  intros Hx Hs. apply (all_chars_impl int_char);
    [| apply (int_of_str_chars _ _ Hs)].
  intros c Hc. unfold not_char. apply negb_true_iff.
  destruct (Ascii.eqb c x) eqn:E; [| reflexivity].
  apply Ascii.eqb_eq in E. subst c. congruence.
Qed.

Lemma replace_nonempty (s old new : string) :
  old <> EmptyString -> replace s old new = replace_go old new O s.
Proof. destruct old; [congruence | reflexivity]. Qed.

(** Line 404 on a record whose first marker is followed by [prevPK] and a
    comma: the key read from the result is [pk]. *)
Lemma rekey_read_key (A prevPK B : string) (pk : Z) :
  no_start pk_marker A (pk_marker +:+ (prevPK +:+ ",") +:+ B) = true ->
  read_key (replace (A +:+ pk_marker +:+ (prevPK +:+ ",") +:+ B)
              (pk_marker +:+ prevPK +:+ ",") (pk_marker +:+ str pk +:+ ","))
  = Some pk.
Proof.
  intros Hns.
  set (old := pk_marker +:+ prevPK +:+ ",").
  set (new := pk_marker +:+ str pk +:+ ",").
  assert (Hold : exists o old', old = String o old').
  { unfold old. rewrite pk_marker_eq, app_cons. eauto. }
  destruct Hold as (o & old' & Hold).
  assert (Hrep : replace (A +:+ pk_marker +:+ (prevPK +:+ ",") +:+ B) old new
                 = A +:+ new +:+ replace_go old new O B).
  { rewrite replace_nonempty by (rewrite Hold; discriminate).
    rewrite replace_go_no_start.
    2:{ apply (no_start_weaken pk_marker); [| exact Hns].
        intros s. unfold old. apply prefix_app_inv. }
    f_equal. rewrite <- app_assoc. fold old.
    rewrite Hold at 1 2. rewrite replace_go_match;
      [| rewrite <- Hold; apply prefix_app].
    rewrite <- Hold, drop_app_length. reflexivity. }
  rewrite Hrep. unfold new. rewrite !app_assoc.
  set (T := str pk +:+ "," +:+ replace_go old (pk_marker +:+ str pk +:+ ",") O B).
  assert (Hfirst : first_index pk_marker (A +:+ pk_marker +:+ T)
                   = Some (String.length A)).
  { apply first_index_at; [| apply prefix_app].
    rewrite (no_start_cont _ _ _ _ ((prevPK +:+ ",") +:+ B));
      [exact Hns | simpl; lia]. }
  assert (Hcomma : first_index "," T = Some (String.length (str pk))).
  { unfold T. apply first_index_at; [| apply (prefix_app ",")].
    apply no_start_char, str_char_not. reflexivity. }
  unfold read_key, read_pk. rewrite find_first_index, Hfirst.
  assert ((Z.of_nat (String.length A) =? -1) = false) as ->
    by (apply Z.eqb_neq; lia).
  replace (Z.of_nat (String.length A) + 6)
    with (Z.of_nat (String.length A + 6)) by lia.
  assert (Hd : drop (String.length A + 6) (A +:+ pk_marker +:+ T) = T).
  { rewrite drop_app_plus. change 6%nat with (String.length pk_marker).
    apply drop_app_length. }
  assert (Hlen : String.length (A +:+ pk_marker +:+ T)
                 = (String.length A + 6 + String.length T)%nat).
  { rewrite !length_app. simpl. lia. }
  assert (HlT : (String.length (str pk) < String.length T)%nat).
  { unfold T. rewrite !length_app. simpl. lia. }
  rewrite find_from_nat by lia. rewrite Hd, Hcomma.
  rewrite slice_nat by lia. rewrite Hd.
  replace (String.length A + 6 + String.length (str pk)
           - (String.length A + 6))%nat
    with (String.length (str pk)) by lia.
  unfold T. rewrite take_app_length. apply int_of_str_str.
Qed.

(** *** The rewriting of the relation fields keeps the key *)

Lemma changeFieldPK_text (m f : string) (c : Z) (m' : string) (z : Z) :
  changeFieldPK m f c = Ok (m', z) ->
  exists pk z0,
    int_of_str pk = Some z0
    /\ m' = replace m ((dq +:+ f +:+ dq +:+ ": ") +:+ pk)
              ((dq +:+ f +:+ dq +:+ ": ") +:+ str (z0 + c)).
Proof.
  unfold changeFieldPK. destruct (negb _); [| discriminate].
  intros H. apply bind_Ok_inv in H as (z0 & Hint & H).
  injection H as <- <-. unfold int in Hint.
  destruct (int_of_str _) as [z1 |] eqn:E; [| discriminate].
  injection Hint as ->. eexists _, _. split; [exact E | reflexivity].
Qed.

Lemma test_branch_text (c osKey : Z) (m : string) (ts : dict) (os : string)
    (m' : string) (ts' : dict) (os' : string) :
  test_branch c osKey m ts os = Ok (m', ts', os') ->
  m' = replace m fields_open
         (fields_open +:+ "    " +:+ dq +:+ "os" +:+ dq +:+ ": " +:+ str osKey
            +:+ "," +:+ nl).
Proof.
  unfold test_branch. destruct (negb _).
  - intros H. apply bind_Ok_inv in H as (z & _ & H).
    apply bind_Ok_inv in H as (cur & _ & H).
    apply bind_Ok_inv in H as (w & _ & H).
    injection H as <- _ _. reflexivity.
  - intros H. injection H as <- _ _. reflexivity.
Qed.

Lemma no_dq_str (z : Z) : no_dq (str z) = true.
Proof. apply str_char_not. reflexivity. Qed.

Lemma no_dq_int (s : string) (z : Z) : int_of_str s = Some z -> no_dq s = true.
Proof. apply int_char_not. reflexivity. Qed.

Section KeepsMarker.

Variables (A X B : string).
Hypothesis first_marker :
  no_start pk_marker A (pk_marker +:+ X +:+ B) = true.
Hypothesis no_dq_X : no_dq X = true.

Lemma keeps_marker_refl : keeps_marker X (A +:+ pk_marker +:+ X +:+ B).
Proof using first_marker. exists A, B. auto. Qed.

Lemma keeps_marker_fields (osKey : Z) :
  keeps_marker X
    (replace (A +:+ pk_marker +:+ X +:+ B) fields_open
       (fields_open +:+ "    " +:+ dq +:+ "os" +:+ dq +:+ ": " +:+ str osKey
          +:+ "," +:+ nl)).
Proof using first_marker no_dq_X.
  set (new := fields_open +:+ "    " +:+ dq +:+ "os" +:+ dq +:+ ": "
                +:+ str osKey +:+ "," +:+ nl).
  assert (Hold : exists old2, fields_open = String dq_char (String "f" old2))
    by (eexists; reflexivity).
  assert (Hnew : exists new2, new = String dq_char (String "f" new2))
    by (eexists; reflexivity).
  destruct Hold as (old2 & Hold). destruct Hnew as (new2 & Hnew).
  rewrite Hnew, Hold.
  apply replace_keeps_marker; try assumption; try reflexivity.
  - rewrite <- Hold. reflexivity.
  - rewrite <- Hnew. unfold new.
    change (dq_next_not "p"
              ((fields_open +:+ "    " +:+ dq +:+ "os" +:+ dq +:+ ": ")
                 +:+ str osKey +:+ ("," +:+ nl)) = true).
    apply dq_next_not_app; [reflexivity |].
    apply dq_next_not_app; [| reflexivity].
    apply no_dq_next_not, no_dq_str.
Qed.

Lemma keeps_marker_literal (L : string) (o1 : ascii) (L2 pk new_pk : string) :
  L = String dq_char (String o1 L2) ->
  Ascii.eqb o1 ":" = false ->
  dq_next_not "p" L = true ->
  no_dq pk = true -> no_dq new_pk = true ->
  keeps_marker X
    (replace (A +:+ pk_marker +:+ X +:+ B) (L +:+ pk) (L +:+ new_pk)).
Proof using first_marker no_dq_X.
  intros HL Ho1 Hg Hpk Hnew.
  assert (H1 : L +:+ pk = String dq_char (String o1 (L2 +:+ pk)))
    by (rewrite HL; reflexivity).
  assert (H2 : L +:+ new_pk = String dq_char (String o1 (L2 +:+ new_pk)))
    by (rewrite HL; reflexivity).
  rewrite H1, H2.
  apply replace_keeps_marker; try assumption.
  - rewrite <- H1. apply dq_next_not_app; [exact Hg |].
    apply no_dq_next_not, Hpk.
  - rewrite <- H2. apply dq_next_not_app; [exact Hg |].
    apply no_dq_next_not, Hnew.
Qed.

Lemma keeps_marker_changeFieldPK (f : string) (c : Z) (m' : string) (z : Z) :
  f = "test" \/ f = "log" ->
  changeFieldPK (A +:+ pk_marker +:+ X +:+ B) f c = Ok (m', z) ->
  keeps_marker X m'.
Proof using first_marker no_dq_X.
  intros Hf H.
  apply changeFieldPK_text in H as (pk & z0 & Hint & ->).
  destruct Hf as [-> | ->].
  - eapply keeps_marker_literal; try reflexivity.
    + apply (no_dq_int _ _ Hint).
    + apply no_dq_str.
  - eapply keeps_marker_literal; try reflexivity.
    + apply (no_dq_int _ _ Hint).
    + apply no_dq_str.
Qed.

Lemma keeps_marker_kind_branch (c osKey : Z) (ts : dict) (os : string)
    (m' : string) (ts' : dict) (os' : string) :
  kind_branch c osKey (A +:+ pk_marker +:+ X +:+ B) ts os
  = Ok (m', ts', os') ->
  keeps_marker X m'.
Proof using first_marker no_dq_X.
  unfold kind_branch.
  destruct (negb _).
  { intros H. apply test_branch_text in H as ->. apply keeps_marker_fields. }
  destruct (negb _).
  { unfold log_branch. intros H.
    apply bind_Ok_inv in H as ([m1 pk1] & Hc & H).
    apply bind_Ok_inv in H as (ts1 & _ & H).
    apply bind_Ok_inv in H as (cur & _ & H).
    apply bind_Ok_inv in H as (w & _ & H).
    injection H as <- _ _.
    apply (keeps_marker_changeFieldPK "test" _ _ _ (or_introl eq_refl) Hc). }
  destruct (negb _).
  { intros H. apply bind_Ok_inv in H as ([m1 pk1] & Hc & H).
    injection H as <- _ _.
    apply (keeps_marker_changeFieldPK "log" _ _ _ (or_intror eq_refl) Hc). }
  destruct (_ || _).
  { intros H. apply bind_Ok_inv in H as ([m1 pk1] & Hc & H).
    injection H as <- _ _.
    apply (keeps_marker_changeFieldPK "test" _ _ _ (or_introl eq_refl) Hc). }
  intros H. injection H as <- _ _. apply keeps_marker_refl.
Qed.

End KeepsMarker.

(** *** Every turn of the loop *)

Lemma concat_str_snoc (l : list string) (s : string) :
  concat_str (l ++ [s]) = concat_str l +:+ s.
Proof.
  induction l as [| x l IH]; simpl.
  - apply app_nil_r.
  - rewrite IH, app_assoc. reflexivity.
Qed.

Lemma max_key_snoc (l : list Z) (k : Z) :
  max_key (l ++ [k]) = Z.max (max_key l) k.
Proof. unfold max_key. rewrite fold_left_app. reflexivity. Qed.

Lemma fold_max_ge (l : list Z) (a : Z) : a <= fold_left Z.max l a.
Proof.
  revert a. induction l as [| x l IH]; intros a; simpl; [lia |].
  specialize (IH (Z.max a x)). lia.
Qed.

Lemma fold_max_upper (l : list Z) (a k : Z) :
  In k l -> k <= fold_left Z.max l a.
Proof.
  revert a. induction l as [| x l IH]; intros a Hk; [destruct Hk |].
  simpl. destruct Hk as [-> | Hk]; [| apply IH, Hk].
  pose proof (fold_max_ge l (Z.max a k)). lia.
Qed.


Lemma addModels_step_inv (c osKey : Z) (st st' : loop_state) :
  addModels_step c osKey st = Ok (Some st') ->
  loop_inv c st -> loop_inv c st'.
Proof.
  intros Hstep (Hem & Hhk & Hmod).
  destruct (next_record (fileData st)) as [rec |] eqn:Hrec.
  - rewrite (addModels_step_next_record _ _ _ _ Hrec) in Hstep.
    destruct (read_pk rec) as [prevPK |] eqn:Hpk; [| discriminate].
    apply bind_Ok_inv in Hstep as (k & Hint & Hstep).
    apply bind_Ok_inv in Hstep as ([[m' ts] os] & Hkind & Hstep).
    injection Hstep as <-. unfold int in Hint.
    destruct (int_of_str prevPK) as [k' |] eqn:Ek; [| discriminate].
    injection Hint as ->.
    destruct (record_pk_split _ _ _ _ Hrec Hpk Ek) as (A & B & HA & Hns).
    assert (HX : no_dq (prevPK +:+ ",") = true).
    { unfold no_dq. rewrite all_chars_app. fold (no_dq prevPK).
      rewrite (no_dq_int _ _ Ek). reflexivity. }
    rewrite HA in Hkind.
    destruct (keeps_marker_kind_branch _ _ _ Hns HX _ _ _ _ _ _ _ Hkind)
      as (A' & B' & -> & Hns').
    unfold loop_inv. cbn [emitted highestKey models].
    split; [| split].
    + apply Forall_app. split; [exact Hem |]. constructor; [| constructor].
      cbn [fst snd]. apply rekey_read_key, Hns'.
    + rewrite List.map_app. cbn [map fst]. rewrite max_key_snoc, <- Hhk.
      destruct (highestKey st <? k) eqn:E;
        [apply Z.ltb_lt in E | apply Z.ltb_ge in E]; lia.
    + rewrite List.map_app. cbn [map snd].
      rewrite concat_str_snoc, Hmod, app_assoc. reflexivity.
  - (* a chassis block is skipped *)
    unfold next_record in Hrec. unfold addModels_step in Hstep.
    destruct (find (fileData st) "{" =? -1); [discriminate |].
    destruct (negb _); [| discriminate].
    injection Hstep as <-. unfold loop_inv. auto.
Qed.

Lemma addModels_loop_inv (c osKey : Z) (n : nat) (st st' : loop_state) :
  addModels_loop n c osKey st = Ok st' -> loop_inv c st -> loop_inv c st'.
Proof.
  revert st. induction n as [| n IH]; intros st H Hinv; [discriminate |].
  cbn [addModels_loop] in H.
  destruct (addModels_step c osKey st) as [[st1 |] | e |] eqn:E;
    simpl in H; try discriminate.
  - apply (IH st1 H). apply (addModels_step_inv _ _ _ _ E Hinv).
  - injection H as <-. exact Hinv.
Qed.



(** ** One chassis under two operating systems *)




Lemma item_Ok_inv {V : Type} (d : gmap string V) (k : string) (v : V) :
  item d k = Ok v -> d !! k = Some v.
Proof. unfold item. destruct (d !! k); intros H; congruence. Qed.


(** What the extraction of one file (lines 142-184) changes. *)
Lemma merge_file_inv (osName : string) (inDB : gmap string bool)
    (filename : string) (a a' : acc) :
  merge_file osName inDB filename a = Ok a' ->
  (inDB !! filename = Some true /\ a' = a)
  \/ (inDB !! filename = Some false
      /\ exists raw tok key ret oldO newO oldC newC,
          fs a !! (osName, filename) = Some raw
          /\ getIP filename = IPStr tok
          /\ os_key a !! (osName +:+ tok) = Some key
          /\ addModels (replace raw nul EmptyString) (highest_key a) key
               osName = Ok ret
          /\ os_status a !! (osName +:+ tok) = Some oldO
          /\ worseStatus oldO (ret_osStatus ret) = Ok newO
          /\ chassis_status a !! tok = Some oldC
          /\ worseStatus oldC newO = Ok newC
          /\ highest_key a' = ret_highestKey ret
          /\ chassis_key a' = chassis_key a
          /\ os_key a' = os_key a
          /\ os_status a' = <[osName +:+ tok := newO]> (os_status a)
          /\ chassis_status a' = <[tok := newC]> (chassis_status a)
          /\ dom (chassis_name a') = dom (chassis_name a)
          /\ extracted a'
             = extracted a ++ [(highest_key a, map fst (ret_emitted ret))]
          /\ fs a'
             = <[(osName, filename) := raw +:+ nl +:+ "File in database"]>
                 (fs a)).
Proof.
  unfold merge_file. intros H.
  apply bind_Ok_inv in H as (known & Hk & H). apply item_Ok_inv in Hk.
  destruct known; [left; split; [exact Hk | congruence] |].
  right. split; [exact Hk |].
  apply bind_Ok_inv in H as (raw & Hraw & H).
  unfold read_file in Hraw.
  destruct (fs a !! (osName, filename)) as [raw' |] eqn:Efs; [| discriminate].
  injection Hraw as ->.
  apply bind_Ok_inv in H as ([key_ip tok] & Hip & H).
  unfold os_ip in Hip. destruct (getIP filename) as [t | z] eqn:Eip;
    [| discriminate].
  injection Hip as <- <-.
  apply bind_Ok_inv in H as (key & Hkey & H). apply item_Ok_inv in Hkey.
  apply bind_Ok_inv in H as (ret & Hret & H).
  apply bind_Ok_inv in H as (oldO & HoldO & H). apply item_Ok_inv in HoldO.
  apply bind_Ok_inv in H as (newO & HnewO & H).
  apply bind_Ok_inv in H as (oldC & HoldC & H). apply item_Ok_inv in HoldC.
  apply bind_Ok_inv in H as (newC & HnewC & H).
  apply bind_Ok_inv in H as (newR & HnewR & H).
  apply bind_Ok_inv in H as (objs & Hobjs & H).
  apply bind_Ok_inv in H as (old_name & Hname & H). apply item_Ok_inv in Hname.
  injection H as <-.
  exists raw, t, key, ret, oldO, newO, oldC, newC.
  cbn [highest_key chassis_key os_key os_status chassis_status chassis_name
         extracted fs].
  repeat split; try assumption; try reflexivity.
  destruct (String.eqb old_name EmptyString); [| reflexivity].
  rewrite dom_insert_L.
  assert (Ht : t ∈ dom (chassis_name a)) by (apply elem_of_dom; eauto).
  apply subseteq_union_1_L, singleton_subseteq_l, Ht.
Qed.




(** ** The keys that a run assigns *)

Lemma allocated_init (w : world) : allocated 2 (acc_init w).
Proof.
  unfold allocated, acc_init. cbn [chassis_key os_key highest_key].
  repeat split; intros; rewrite ?lookup_empty in *; discriminate.
Qed.

Lemma alloc_os_allocated (lo : Z) (ip : string)
    (oss : list (string * list string)) (a : acc) :
  lo <= highest_key a -> allocated lo a ->
  allocated lo (alloc_os ip oss a)
  /\ highest_key a <= highest_key (alloc_os ip oss a)
  /\ extracted (alloc_os ip oss a) = extracted a.
Proof.
  revert a. induction oss as [| [osName ips] oss IH]; intros a Hlo Ha.
  - cbn [alloc_os]. split; [exact Ha |]. split; [lia | reflexivity].
  - cbn [alloc_os]. destruct (mem ip ips); [| apply IH; assumption].
    match goal with
    | |- context [alloc_os ip oss ?a1] => destruct (IH a1) as (H1 & H2 & H3)
    end.
    + cbn [highest_key]. lia.
    + destruct Ha as (Hc & Ho & Hci & Hoi & Hx).
      unfold allocated. cbn [chassis_key os_key highest_key].
      split; [| split; [| split; [| split]]].
      * intros i v Hv. specialize (Hc _ _ Hv). lia.
      * intros k v Hv. rewrite lookup_insert in Hv.
        destruct (decide (osName +:+ ip = k)); simplify_eq; [lia |].
        specialize (Ho _ _ Hv). lia.
      * exact Hci.
      * intros k1 k2 v H1 H2. rewrite lookup_insert in H1, H2.
        destruct (decide (osName +:+ ip = k1));
          destruct (decide (osName +:+ ip = k2)); simplify_eq; try reflexivity.
        -- specialize (Ho _ _ H2). lia.
        -- specialize (Ho _ _ H1). lia.
        -- eapply Hoi; eassumption.
      * intros i k v H1 H2. rewrite lookup_insert in H2.
        destruct (decide (osName +:+ ip = k)); simplify_eq.
        -- specialize (Hc _ _ H1). lia.
        -- eapply Hx; eassumption.
    + split; [exact H1 |]. cbn [highest_key extracted] in *.
      split; [lia | exact H3].
Qed.

Lemma alloc_keys_allocated (lo : Z) (chs : list string)
    (oss : list (string * list string)) (a : acc) :
  lo <= highest_key a -> allocated lo a ->
  allocated lo (alloc_keys chs oss a)
  /\ highest_key a <= highest_key (alloc_keys chs oss a)
  /\ extracted (alloc_keys chs oss a) = extracted a.
Proof.
  revert a. induction chs as [| ip chs IH]; intros a Hlo Ha.
  - cbn [alloc_keys]. split; [exact Ha |]. split; [lia | reflexivity].
  - cbn [alloc_keys].
    match goal with
    | |- context [alloc_os ip oss ?a1] =>
        destruct (alloc_os_allocated lo ip oss a1) as (H1 & H2 & H3)
    end.
    + cbn [highest_key]. lia.
    + destruct Ha as (Hc & Ho & Hci & Hoi & Hx).
      unfold allocated. cbn [chassis_key os_key highest_key].
      split; [| split; [| split; [| split]]].
      * intros i v Hv. rewrite lookup_insert in Hv.
        destruct (decide (ip = i)); simplify_eq; [lia |].
        specialize (Hc _ _ Hv). lia.
      * intros k v Hv. specialize (Ho _ _ Hv). lia.
      * intros i1 i2 v H1 H2. rewrite lookup_insert in H1, H2.
        destruct (decide (ip = i1)); destruct (decide (ip = i2));
          simplify_eq; try reflexivity.
        -- specialize (Hc _ _ H2). lia.
        -- specialize (Hc _ _ H1). lia.
        -- eapply Hci; eassumption.
      * exact Hoi.
      * intros i k v H1 H2. rewrite lookup_insert in H1.
        destruct (decide (ip = i)); simplify_eq.
        -- specialize (Ho _ _ H2). lia.
        -- eapply Hx; eassumption.
    + match goal with
      | |- context [alloc_keys chs oss ?a2] =>
          destruct (IH a2) as (H4 & H5 & H6)
      end.
      * cbn [highest_key] in H2. lia.
      * exact H1.
      * split; [exact H4 |]. cbn [highest_key extracted] in *.
        split; [lia | congruence].
Qed.

Lemma addModels_counter (data : string) (c osKey : Z) (osName : string)
    (r : addModels_result) :
  addModels data c osKey osName = Ok r ->
  ret_highestKey r = c + max_key (map fst (ret_emitted r)).
Proof.
  unfold addModels. intros H. apply bind_Ok_inv in H as (st & Hloop & H).
  injection H as <-.
  assert (Hinv : loop_inv c st).
  { apply (addModels_loop_inv _ _ _ _ _ Hloop).
    unfold loop_inv, addModels_init. cbn. auto. }
  destruct Hinv as (_ & Hhk & _). unfold addModels_finish.
  destruct (record_failures _ _ _ _). cbn [ret_highestKey ret_emitted].
  rewrite Hhk. reflexivity.
Qed.

Lemma rekeyed_snoc (a : acc) (c : Z) (keys : list Z) (ex : list (Z * list Z)) :
  extracted a = ex ++ [(c, keys)] ->
  rekeyed a
  = concat (map (fun e => map (Z.add (fst e)) (snd e)) ex)
      ++ map (Z.add c) keys.
Proof.
  intros H. unfold rekeyed. rewrite H, List.map_app, concat_app.
  cbn [map concat fst snd]. rewrite List.app_nil_r. reflexivity.
Qed.

Lemma merge_file_keys (h0 : Z) (osName : string) (inDB : gmap string bool)
    (filename : string) (a a' : acc) :
  merge_file osName inDB filename a = Ok a' ->
  chassis_key a' = chassis_key a /\ os_key a' = os_key a
  /\ (rekeyed_above h0 a -> rekeyed_above h0 a').
Proof.
  intros H.
  apply merge_file_inv in H as [[_ ->] | (_ & raw & tok & key & ret & oldO
    & newO & oldC & newC & _ & _ & _ & Hret & _ & _ & _ & _ & Hhk & Hck & Hok
    & _ & _ & _ & Hex & _)]; [auto |].
  split; [exact Hck |]. split; [exact Hok |].
  intros Hinv Hgood. rewrite Hex in Hgood.
  apply Forall_app in Hgood as [Hgood Hnew].
  apply Forall_cons in Hnew as [[Hnd Hpos] _]. cbn [snd] in Hnd, Hpos.
  destruct (Hinv Hgood) as (Hh0 & Hnd0 & Hrange).
  pose proof (addModels_counter _ _ _ _ _ Hret) as Hcount.
  set (keys := map fst (ret_emitted ret)) in *.
  assert (Hle : forall k, k ∈ keys -> 1 <= k <= max_key keys).
  { intros k Hk. split.
    - rewrite Forall_forall in Hpos. apply Hpos, Hk.
    - apply fold_max_upper. apply list_elem_of_In, Hk. }
  assert (Hmax : 0 <= max_key keys) by apply fold_max_ge.
  rewrite (rekeyed_snoc _ _ _ _ Hex). fold (rekeyed a).
  rewrite Hhk, Hcount. split; [lia |]. split.
  - apply NoDup_app. split; [exact Hnd0 |]. split.
    + intros x Hx Hx'. apply list_elem_of_fmap in Hx' as (k & -> & Hk).
      specialize (Hrange _ Hx). specialize (Hle _ Hk). lia.
    + apply NoDup_fmap_2_strong; [| exact Hnd]. intros x y _ _ E. lia.
  - intros x Hx. apply elem_of_app in Hx as [Hx | Hx].
    + specialize (Hrange _ Hx). lia.
    + apply list_elem_of_fmap in Hx as (k & -> & Hk).
      specialize (Hle _ Hk). lia.
Qed.

Lemma merge_files_keys (h0 : Z) (osName : string) (inDB : gmap string bool)
    (filenames : list string) (a a' : acc) :
  merge_files osName inDB filenames a = Ok a' ->
  chassis_key a' = chassis_key a /\ os_key a' = os_key a
  /\ (rekeyed_above h0 a -> rekeyed_above h0 a').
Proof.
  revert a. induction filenames as [| f fs IH]; intros a H.
  - injection H as <-. auto.
  - cbn [merge_files] in H. apply bind_Ok_inv in H as (a1 & H1 & H).
    destruct (merge_file_keys h0 _ _ _ _ _ H1) as (E1 & E2 & E3).
    destruct (IH _ H) as (E4 & E5 & E6).
    split; [congruence |]. split; [congruence | auto].
Qed.

Lemma merge_oses_keys (h0 : Z) (oss : list (string * discovery)) (a a' : acc) :
  merge_oses oss a = Ok a' ->
  chassis_key a' = chassis_key a /\ os_key a' = os_key a
  /\ (rekeyed_above h0 a -> rekeyed_above h0 a').
Proof.
  revert a. induction oss as [| [osName d] oss IH]; intros a H.
  - injection H as <-. auto.
  - cbn [merge_oses] in H. apply bind_Ok_inv in H as (a1 & H1 & H).
    destruct (merge_files_keys h0 _ _ _ _ _ H1) as (E1 & E2 & E3).
    destruct (IH _ H) as (E4 & E5 & E6).
    split; [congruence |]. split; [congruence | auto].
Qed.

Lemma chassis_records_keys (a : acc) (chs : list string)
    (rs : list chassis_record) :
  chassis_records a chs = Ok rs ->
  Forall2 (fun ip r => chassis_key a !! ip = Some (c_key r)) chs rs.
Proof.
  revert rs. induction chs as [| ip chs IH]; intros rs H.
  - injection H as <-. constructor.
  - cbn [chassis_records] in H.
    apply bind_Ok_inv in H as (key & Hkey & H). apply item_Ok_inv in Hkey.
    apply bind_Ok_inv in H as (name & _ & H).
    apply bind_Ok_inv in H as (status & _ & H).
    apply bind_Ok_inv in H as (rs' & Hrs & H). injection H as <-.
    constructor; [exact Hkey | apply IH, Hrs].
Qed.

Lemma fold_union_NoDup (xs : list (list string)) (a : list string) :
  xs <> [] -> NoDup (fold_left set_union_list xs a).
Proof.
  revert a. induction xs as [| x xs IH]; intros a Hne; [congruence |].
  cbn [fold_left]. destruct xs as [| y xs].
  - cbn [fold_left]. unfold set_union_list. apply NoDup_elements.
  - apply IH. discriminate.
Qed.

Lemma discover_length (w : world) (os_list : list string)
    (ds : list (string * discovery)) :
  discover w os_list = Ok ds -> length ds = length os_list.
Proof.
  revert ds. induction os_list as [| o os IH]; intros ds H.
  - injection H as <-. reflexivity.
  - cbn [discover] in H. apply bind_Ok_inv in H as (d & _ & H).
    apply bind_Ok_inv in H as (ds' & Hds & H). injection H as <-.
    cbn [length]. rewrite (IH _ Hds). reflexivity.
Qed.

Lemma written_keys_NoDup (ck : gmap string Z) (chs : list string)
    (rs : list chassis_record) :
  Forall2 (fun ip r => ck !! ip = Some (c_key r)) chs rs ->
  (forall ip1 ip2 v, ck !! ip1 = Some v -> ck !! ip2 = Some v -> ip1 = ip2) ->
  NoDup chs ->
  NoDup (map c_key rs)
  /\ forall v, v ∈ map c_key rs -> exists ip, ip ∈ chs /\ ck !! ip = Some v.
Proof.
  intros HF Hinj. induction HF as [| ip r chs rs Hr HF IH]; intros Hnd.
  - split; [constructor |]. intros v Hv. cbn in Hv. inversion Hv.
  - apply NoDup_cons in Hnd as [Hip Hnd].
    destruct (IH Hnd) as [IH1 IH2]. cbn [map]. split.
    + apply NoDup_cons. split; [| exact IH1].
      intros Hin. destruct (IH2 _ Hin) as (ip' & Hip' & Hck).
      rewrite (Hinj _ _ _ Hr Hck) in Hip. contradiction.
    + intros v Hv. apply elem_of_cons in Hv as [-> | Hv].
      * exists ip. split; [left | exact Hr].
      * destruct (IH2 _ Hv) as (ip' & Hip' & Hck).
        exists ip'. split; [right; exact Hip' | exact Hck].
Qed.

(** C4, as the code has it.  When the merge returns, the keys of the records
    it creates or re-keys (the date record, the chassis records written, the
    OS entries allocated and the re-keyed records of the result files) are
    pairwise distinct, provided the local keys of every extraction are
    pairwise distinct and at least 1, and provided two or more operating
    systems ran or the chassis tokens discovered are pairwise distinct. *)
Theorem assigned_keys_distinct (cfg : config) (w : world) (m : merged) :
  combine_results cfg w = Ok (Some m) ->
  Forall (fun e => good_keys (snd e)) (extracted (final m)) ->
  (2 <= length (vms cfg))%nat \/ NoDup (all_chassis m) ->
  NoDup (assigned_keys m).
Proof.
  intros Hrun Hgood Hchs. unfold combine_results in Hrun.
  destruct (Nat.eqb (length (vms cfg)) 0) eqn:Elen.
  { cbn [andb negb] in Hrun.
    destruct (negb (bool_decide (is_Some (logic_results w))));
      cbn [bind] in Hrun; discriminate. }
  cbn [andb negb] in Hrun.
  apply bind_Ok_inv in Hrun as ([[a chs] errs] & Ha & Hrun).
  apply bind_Ok_inv in Ha as (ds & Hds & Ha).
  apply bind_Ok_inv in Ha as (a1 & Hm & Ha). injection Ha as <- <- <-.
  apply bind_Ok_inv in Hrun as (records & Hrec & Hrun).
  injection Hrun as <-.
  cbn [final all_chassis] in Hgood, Hchs.
  unfold assigned_keys. cbn [date_key chassis_written final].
  set (chs := union_chassis (map (fun d => d_ip (snd d)) ds)) in *.
  set (a0 := alloc_keys chs _ (acc_init w)) in *.
  assert (Hnd : NoDup chs).
  { destruct Hchs as [H2 | H]; [| exact H].
    unfold chs, union_chassis. apply fold_union_NoDup.
    apply discover_length in Hds.
    destruct ds as [| d1 [| d2 ds]]; cbn in *; try lia. discriminate. }
  destruct (alloc_keys_allocated 2 chs
              (zip (vms cfg) (map (fun d => d_ip (snd d)) ds)) (acc_init w))
    as (Hall & Hh0 & Hex0).
  { cbn. lia. }
  { apply allocated_init. }
  fold a0 in Hall, Hh0, Hex0. cbn [acc_init highest_key extracted] in Hh0, Hex0.
  destruct (merge_oses_keys (highest_key a0) _ _ _ Hm) as (Eck & Eok & Hrk).
  destruct Hrk as (_ & Hrnd & Hrange).
  { intros _. unfold rekeyed. rewrite Hex0. cbn.
    split; [lia |]. split; [constructor |]. intros x Hx. inversion Hx. }
  { exact Hgood. }
  destruct Hall as (Hc & Ho & Hci & Hoi & Hx).
  rewrite <- Eck in Hc, Hci, Hx. rewrite <- Eok in Ho, Hoi, Hx.
  destruct (written_keys_NoDup _ _ _ (chassis_records_keys _ _ _ Hrec) Hci Hnd)
    as [Hwnd Hwin].
  assert (Hos : forall v, v ∈ map snd (map_to_list (os_key a1)) ->
                          exists k, os_key a1 !! k = Some v).
  { intros v Hv. apply list_elem_of_fmap in Hv as ([k v'] & -> & Hkv).
    apply elem_of_map_to_list in Hkv. eauto. }
  apply NoDup_cons. split.
  - intros Hin. apply elem_of_app in Hin as [Hin | Hin].
    + destruct (Hwin _ Hin) as (ip & _ & Hck). specialize (Hc _ _ Hck). lia.
    + apply elem_of_app in Hin as [Hin | Hin].
      * destruct (Hos _ Hin) as (k & Hk). specialize (Ho _ _ Hk). lia.
      * specialize (Hrange _ Hin). lia.
  - apply NoDup_app. split; [exact Hwnd |]. split.
    + intros v Hv Hin. destruct (Hwin _ Hv) as (ip & _ & Hck).
      apply elem_of_app in Hin as [Hin | Hin].
      * destruct (Hos _ Hin) as (k & Hk). exact (Hx _ _ _ Hck Hk).
      * specialize (Hc _ _ Hck). specialize (Hrange _ Hin). lia.
    + apply NoDup_app. split; [| split; [| exact Hrnd]].
      * apply NoDup_fmap_2_strong; [| apply NoDup_map_to_list].
        intros [k1 v1] [k2 v2] H1 H2 E. cbn in E. subst v2.
        apply elem_of_map_to_list in H1, H2.
        rewrite (Hoi _ _ _ H1 H2). reflexivity.
      * intros v Hv Hin. destruct (Hos _ Hv) as (k & Hk).
        specialize (Ho _ _ Hk). specialize (Hrange _ Hin). lia.
Qed.

Lemma assigned_keys_distinct_witness :
  exists m,
    combine_results run_two shared_world = Ok (Some m)
    /\ NoDup (assigned_keys m).
Proof.
  assert (Hrun : exists m, combine_results run_two shared_world = Ok (Some m)
                           /\ extracted (final m) = [(5, [1]); (6, [1])])
    by (eexists; split; [vm_compute; reflexivity |];
        vm_compute; reflexivity).
  destruct Hrun as (m & Hrun & Hex).
  exists m. split; [exact Hrun |].
  apply (assigned_keys_distinct run_two shared_world m Hrun).
  - rewrite Hex. repeat constructor; cbn; try lia; inversion 1.
  - left. cbn. lia.
Defined.

(** Two result files whose local keys are pairwise distinct, the second
    with a record of key 0: the test of the first file and the test of the
    second both get key 6. *)
Lemma zero_key_collision :
  exists m,
    combine_results run_two zero_key_world = Ok (Some m)
    /\ extracted (final m) = [(5, [1]); (6, [0])]
    /\ rekeyed (final m) = [6; 6]
    /\ ~ NoDup (assigned_keys m).
Proof.
  assert (Hrun : exists m,
             combine_results run_two zero_key_world = Ok (Some m)
             /\ extracted (final m) = [(5, [1]); (6, [0])]
             /\ rekeyed (final m) = [6; 6])
    by (eexists; split; [vm_compute; reflexivity |];
        split; vm_compute; reflexivity).
  destruct Hrun as (m & Hrun & Hex & Hrk).
  exists m. split; [exact Hrun |]. split; [exact Hex |].
  split; [exact Hrk |].
  unfold assigned_keys. rewrite Hrk. intros H.
  apply NoDup_cons in H as [_ H].
  apply NoDup_app in H as (_ & _ & H).
  apply NoDup_app in H as (_ & _ & H).
  apply NoDup_cons in H as [H _]. apply H. left.
Qed.

(** * The rest of the engine *)

(** ** Searching a text made of pieces *)

Lemma len_app (a b : string) : len (a +:+ b) = len a + len b.
Proof. unfold len. rewrite length_app. lia. Qed.

Lemma len_nonneg (s : string) : 0 <= len s.
Proof. unfold len. lia. Qed.

Lemma find_at (sub a r : string) :
  no_start sub a r = true -> String.prefix sub r = true ->
  find (a +:+ r) sub = len a.
Proof.
  intros H1 H2. rewrite find_first_index, (first_index_at _ _ _ H1 H2).
  reflexivity.
Qed.

Lemma find_none (sub a : string) :
  no_start sub a EmptyString = true -> sub <> EmptyString ->
  find a sub = -1.
Proof.
  intros H Hne. rewrite find_first_index.
  rewrite <- (app_nil_r a), (first_index_no_start _ _ _ H).
  rewrite first_index_nil. destruct sub; [congruence | reflexivity].
Qed.

Lemma find_none_inv (sub a : string) :
  find a sub = -1 -> no_start sub a EmptyString = true.
Proof.
  rewrite find_first_index. destruct (first_index sub a) eqn:E; [lia |].
  intros _. apply (first_index_None _ _ E).
Qed.

(** A search that starts after the piece [a]. *)
Lemma find_from_app (a r sub : string) :
  find_from (a +:+ r) sub (len a) = shift (len a) (find r sub).
Proof.
  unfold len at 1. rewrite find_from_nat by (rewrite length_app; lia).
  rewrite drop_app_length, find_first_index. unfold shift, len.
  destruct (first_index sub r) as [i |].
  - assert ((Z.of_nat i =? -1) = false) as -> by (apply Z.eqb_neq; lia). lia.
  - reflexivity.
Qed.

Lemma slice_to_app (a b : string) : slice_to (a +:+ b) (len a) = a.
Proof.
  unfold slice_to, len. change 0 with (Z.of_nat 0).
  rewrite slice_nat by (rewrite length_app; lia).
  rewrite drop_0, Nat.sub_0_r. apply take_app_length.
Qed.

Lemma slice_from_app (a b : string) : slice_from (a +:+ b) (len a) = b.
Proof.
  unfold slice_from, len.
  rewrite slice_nat by (rewrite length_app; lia).
  rewrite drop_app_length. apply take_all. rewrite length_app. lia.
Qed.

Lemma slice_app (a m b : string) :
  slice (a +:+ m +:+ b) (len a) (len a + len m) = m.
Proof.
  unfold len. rewrite <- Nat2Z.inj_add.
  rewrite slice_nat by (rewrite !length_app; lia).
  rewrite drop_app_length.
  replace (String.length a + String.length m - String.length a)%nat
    with (String.length m) by lia.
  apply take_app_length.
Qed.

(** A pattern whose first character is not in [a] starts nowhere in [a]. *)
Lemma no_start_first (x : ascii) (sub' a r : string) :
  all_chars (not_char x) a = true ->
  no_start (String x sub') a r = true.
Proof.
  induction a as [| c a IH]; [reflexivity |].
  rewrite all_chars_cons, no_start_cons. intros H.
  apply andb_true_iff in H as [H1 H2]. rewrite (IH H2), andb_true_r.
  apply negb_true_iff. rewrite prefix_cons. unfold not_char in H1.
  apply negb_true_iff in H1. rewrite (Ascii.eqb_sym x c), H1. reflexivity.
Qed.

(** A pattern whose characters are not [c] does not reach over a [c]. *)
Lemma prefix_stops (c : ascii) (sub x r : string) :
  all_chars (not_char c) sub = true ->
  String.prefix sub x = false ->
  String.prefix sub (x +:+ String c r) = false.
Proof.
  revert x. induction sub as [| s sub IH]; intros x Hs Hp.
  - rewrite prefix_nil in Hp. discriminate.
  - rewrite all_chars_cons in Hs. apply andb_true_iff in Hs as [Hs1 Hs2].
    destruct x as [| y x].
    + rewrite app_nil_l, prefix_cons. unfold not_char in Hs1.
      apply negb_true_iff in Hs1. rewrite Hs1. reflexivity.
    + rewrite app_cons, prefix_cons. rewrite prefix_cons in Hp.
      destruct (Ascii.eqb s y); [apply IH; assumption | reflexivity].
Qed.

(** A pattern that does not occur in [a] and has no [c] after its first
    character starts nowhere in [a] when a [c] follows [a]. *)
Lemma no_start_boundary (c s0 : ascii) (sub a r : string) :
  all_chars (not_char c) sub = true ->
  no_start (String s0 sub) a EmptyString = true ->
  no_start (String s0 sub) a (String c r) = true.
Proof.
  intros Hs. induction a as [| y a IH]; [reflexivity |].
  rewrite !no_start_cons, app_nil_r. intros H.
  apply andb_true_iff in H as [H1 H2]. rewrite (IH H2), andb_true_r.
  apply negb_true_iff in H1. apply negb_true_iff.
  rewrite prefix_cons in *.
  destruct (Ascii.eqb s0 y); [| reflexivity].
  apply prefix_stops; assumption.
Qed.

Ltac by_assoc := rewrite ?app_assoc; reflexivity.

Ltac len_lia :=
  unfold len; rewrite ?length_app; simpl String.length; lia.

(** A pattern with one double quote, after [p], that matches over the end
    of a text without double quotes, matches [q] after the double quote
    that follows the text. *)
Lemma prefix_quoted (p q x r : string) :
  no_dq p = true -> no_dq x = true ->
  String.prefix (p +:+ String dq_char q) (x +:+ String dq_char r) = true ->
  String.prefix q r = true.
Proof.
  unfold no_dq. revert x. induction p as [| c p IH]; intros x Hp Hx H.
  - rewrite app_nil_l in H. destruct x as [| y x].
    + rewrite app_nil_l, prefix_cons in H.
      rewrite Ascii.eqb_refl in H. exact H.
    + rewrite all_chars_cons in Hx. apply andb_true_iff in Hx as [Hy _].
      unfold not_char in Hy. apply negb_true_iff in Hy.
      rewrite app_cons, prefix_cons, (Ascii.eqb_sym dq_char y), Hy in H.
      discriminate.
  - rewrite all_chars_cons in Hp. apply andb_true_iff in Hp as [Hc Hp].
    unfold not_char in Hc. apply negb_true_iff in Hc.
    rewrite app_cons in H. destruct x as [| y x].
    + rewrite app_nil_l, prefix_cons, Hc in H. discriminate.
    + rewrite all_chars_cons in Hx. apply andb_true_iff in Hx as [_ Hx].
      rewrite app_cons, prefix_cons in H.
      destruct (Ascii.eqb c y); [| discriminate].
      apply (IH x Hp Hx H).
Qed.

Lemma no_start_quoted (p q a r : string) :
  no_dq p = true -> no_dq a = true -> String.prefix q r = false ->
  no_start (p +:+ String dq_char q) a (String dq_char r) = true.
Proof.
  intros Hp Ha Hq. induction a as [| y a IH]; [reflexivity |].
  rewrite no_start_cons. apply andb_true_iff. split.
  - apply negb_true_iff.
    destruct (String.prefix (p +:+ String dq_char q)
                (String y (a +:+ String dq_char r))) eqn:E; [| reflexivity].
    rewrite <- app_cons in E.
    rewrite (prefix_quoted _ _ _ _ Hp Ha E) in Hq. discriminate.
  - apply IH. unfold no_dq in *. rewrite all_chars_cons in Ha.
    apply andb_true_iff in Ha as [_ Ha]. exact Ha.
Qed.

(** [no_start] on a literal piece, whatever follows. *)
Ltac no_start_lit :=
  match goal with
  | |- no_start _ _ ?r = true =>
      generalize r; intro; vm_compute; reflexivity
  end.

Lemma str_not (x : ascii) (z : Z) :
  str_char x = false -> all_chars (not_char x) (str z) = true.
Proof. intros H. apply str_char_not, H. Qed.

Lemma shift_found (k x : Z) : 0 <= x -> shift k x = k + x.
Proof.
  intros H. unfold shift.
  assert ((x =? -1) = false) as -> by (apply Z.eqb_neq; lia). reflexivity.
Qed.

(** The first occurrence of [sub] after a piece where it starts nowhere. *)
Lemma find_after (sub x r : string) :
  no_start sub x r = true ->
  find (x +:+ r) sub = -1 \/ len x <= find (x +:+ r) sub.
Proof.
  intros H. rewrite find_first_index, (first_index_no_start _ _ _ H).
  destruct (first_index sub r); cbn [option_map]; [right | left; reflexivity].
  unfold len. lia.
Qed.

Ltac next_piece :=
  match goal with
  | |- no_start ?s (?a +:+ ?b) ?r = true =>
      rewrite (no_start_app s a b r); apply andb_true_iff; split
  end.

(** Splits a text into its pieces and settles the literal ones and the
    numbers. *)
Ltac pieces :=
  repeat next_piece;
  try no_start_lit;
  try (apply no_start_first, str_not; reflexivity).





Lemma all_chars_find (c : ascii) (s : string) :
  find s (String c EmptyString) = -1 <-> all_chars (not_char c) s = true.
Proof.
  split.
  - intros H. apply find_none_inv in H.
    induction s as [| x s IH]; [reflexivity |].
    rewrite no_start_cons, app_nil_r in H.
    apply andb_true_iff in H as [H1 H2].
    rewrite all_chars_cons, (IH H2), andb_true_r.
    unfold not_char. rewrite prefix_cons, prefix_nil in H1.
    rewrite (Ascii.eqb_sym x c). destruct (Ascii.eqb c x); [discriminate |].
    reflexivity.
  - intros H. apply find_none; [| discriminate]. apply no_start_first, H.
Qed.

Lemma replace_char_keeps (P : ascii -> bool) (o n : ascii) (s : string) :
  P n = true -> all_chars P s = true ->
  all_chars P (replace s (String o EmptyString) (String n EmptyString)) = true.
Proof.
  intros Hn. unfold replace. induction s as [| c s IH]; intros H.
  - reflexivity.
  - rewrite all_chars_cons in H. apply andb_true_iff in H as [H1 H2].
    cbn [replace_go]. rewrite prefix_cons, prefix_nil.
    cbn [String.length Nat.pred].
    destruct (Ascii.eqb o c).
    + rewrite app_cons, app_nil_l, all_chars_cons, Hn, (IH H2). reflexivity.
    + rewrite all_chars_cons, H1, (IH H2). reflexivity.
Qed.

Lemma find_first_no_start (A sub : string) :
  find (A +:+ sub) sub = len A ->
  forall t, no_start sub A (sub +:+ t) = true.
Proof.
  intros H t. rewrite find_first_index in H.
  destruct (first_index sub (A +:+ sub)) as [i |] eqn:E;
    [| pose proof (len_nonneg A); lia].
  assert (i = String.length A) as -> by (unfold len in H; lia).
  apply first_index_Some in E as (E & _).
  rewrite take_app_length, drop_app_length in E.
  rewrite <- (app_nil_r sub) in E at 2.
  rewrite <- E. apply no_start_cont. lia.
Qed.

(** ** The ends of the status order *)

(** X1.  'Fatal', the last token of the order, absorbs every text, of the
    vocabulary or not: [worseStatus] returns it whatever the other argument
    is.  'Skipped', the first token, is neutral for the tokens of the
    vocabulary; and [worseStatus] of a token and itself is that token. *)
Theorem worseStatus_extremes (s : string) :
  worseStatus "Fatal" s = Ok "Fatal"
  /\ worseStatus s "Fatal" = Ok "Fatal"
  /\ (recognized s ->
      worseStatus "Skipped" s = Ok s /\ worseStatus s "Skipped" = Ok s
      /\ worseStatus s s = Ok s).
Proof.
  split; [| split].
  - destruct (recognized_dec s) as [H | H].
    + status_cases H; reflexivity.
    + unfold recognized in H. unfold worseStatus, worseStatus_in.
      destruct (mem s _); [congruence | reflexivity].
  - destruct (recognized_dec s) as [H | H].
    + status_cases H; reflexivity.
    + unfold recognized in H. unfold worseStatus, worseStatus_in.
      destruct (mem s _); [congruence | reflexivity].
  - intros H. status_cases H; repeat split; reflexivity.
Qed.

Lemma worseStatus_extremes_witness :
  worseStatus "Fatal" "no such status" = Ok "Fatal"
  /\ worseStatus "Skipped" "Warning" = Ok "Warning".
Proof.
  destruct (worseStatus_extremes "no such status") as (H1 & _).
  destruct (worseStatus_extremes "Warning") as (_ & _ & H2).
  split; [exact H1 |]. apply H2. reflexivity.
Defined.

(** ** What a call of addModels may do *)

Lemma expected_bind {A B : Type} (Q : A -> Prop) (P : B -> Prop)
    (m : outcome A) (k : A -> outcome B) :
  expected Q m -> (forall a, Q a -> expected P (k a)) -> expected P (bind m k).
Proof. destruct m; simpl; auto. Qed.

Lemma expected_int (s : string) : expected (fun _ => True) (int s).
Proof. unfold int. destruct (int_of_str s); simpl; auto. Qed.

Lemma expected_changeFieldPK (m f : string) (c : Z) :
  expected (fun _ => True) (changeFieldPK m f c).
Proof.
  unfold changeFieldPK. destruct (negb _); [| simpl; auto].
  eapply expected_bind; [apply expected_int |]. intros z _. exact I.
Qed.

Lemma dict_get_set (k : Z) (v : string) (d : dict) :
  dict_get k (dict_set k v d) = Some v.
Proof.
  induction d as [| [k' v'] d IH]; simpl.
  - rewrite Z.eqb_refl. reflexivity.
  - destruct (k =? k') eqn:E; simpl; rewrite ?Z.eqb_refl, ?E; auto.
Qed.

(** After lines 367-368 and 378-379 the key is in the dictionary. *)
Lemma dict_item_default (k : Z) (v : string) (d : dict) :
  exists cur,
    dict_item k (if dict_mem k d then d else dict_set k v d) = Ok cur.
Proof.
  unfold dict_mem, dict_item. destruct (dict_get k d) as [x |] eqn:E.
  - rewrite E. eauto.
  - rewrite dict_get_set. eauto.
Qed.

Lemma expected_worse_l (os s : string) :
  recognized os -> expected recognized (worseStatus os s).
Proof.
  intros H. destruct (worseStatus_recognized_l os s H) as (r & -> & Hr).
  exact Hr.
Qed.

Lemma expected_worse_r (s status : string) :
  recognized status -> expected recognized (worseStatus s status).
Proof.
  intros H. destruct (worseStatus_recognized_r s status H) as (r & -> & Hr).
  exact Hr.
Qed.

Lemma expected_test_branch (c osKey : Z) (m : string) (ts : dict)
    (os : string) :
  recognized os ->
  expected (fun r => recognized (snd r)) (test_branch c osKey m ts os).
Proof.
  intros Hos. unfold test_branch.
  destruct (negb _); [| exact Hos].
  eapply expected_bind; [apply expected_int |]. intros z _.
  match goal with
  | |- context [dict_item ?k (if dict_mem ?k ?d then ?d else dict_set ?k ?v ?d)] =>
      destruct (dict_item_default k v d) as (cur & ->)
  end.
  cbn [bind].
  eapply expected_bind; [apply expected_worse_l, Hos |].
  intros r Hr. exact Hr.
Qed.

Lemma first_status_in_recognized (m status : string) :
  first_status_in m = Some status -> recognized status.
Proof.
  unfold first_status_in. intros H. apply find_some in H as [Hin _].
  apply in_rev in Hin.
  cbn in Hin. intuition (subst; reflexivity).
Qed.

Lemma expected_log_branch (c : Z) (m : string) (ts : dict) (os : string) :
  recognized os ->
  expected (fun r => recognized (snd r)) (log_branch c m ts os).
Proof.
  intros Hos. unfold log_branch.
  eapply expected_bind; [apply expected_changeFieldPK |].
  intros [m' testPK] _.
  set (ts1 := if dict_mem testPK ts then ts
              else dict_set testPK (skipped0 TEST_STATUS_DICT) ts).
  eapply (expected_bind (fun ts2 => exists cur, dict_item testPK ts2 = Ok cur)).
  - destruct (first_status_in m') as [status |] eqn:Es.
    + destruct (dict_item_default testPK (skipped0 TEST_STATUS_DICT) ts)
        as (cur & Hcur).
      fold ts1 in Hcur. rewrite Hcur. cbn [bind].
      eapply expected_bind.
      * apply expected_worse_r, (first_status_in_recognized _ _ Es).
      * intros w _. cbn [expected]. unfold dict_item.
        rewrite dict_get_set. eauto.
    + cbn [expected].
      apply (dict_item_default testPK (skipped0 TEST_STATUS_DICT) ts).
  - intros ts2 (cur & ->). cbn [bind].
    eapply expected_bind; [apply expected_worse_l, Hos |].
    intros r Hr. exact Hr.
Qed.

Lemma expected_kind_branch (c osKey : Z) (m : string) (ts : dict)
    (os : string) :
  recognized os ->
  expected (fun r => recognized (snd r)) (kind_branch c osKey m ts os).
Proof.
  intros Hos. unfold kind_branch.
  destruct (negb _); [apply expected_test_branch, Hos |].
  destruct (negb _); [apply expected_log_branch, Hos |].
  destruct (negb _).
  { eapply expected_bind; [apply expected_changeFieldPK |].
    intros [m' pk] _. exact Hos. }
  destruct (_ || _); [| exact Hos].
  eapply expected_bind; [apply expected_changeFieldPK |].
  intros [m' pk] _. exact Hos.
Qed.

Lemma expected_step (c osKey : Z) (st : loop_state) :
  recognized (osStatus st) ->
  expected (fun r => match r with
                     | Some st' => recognized (osStatus st')
                     | None => True
                     end)
    (addModels_step c osKey st).
Proof.
  intros Hos. unfold addModels_step.
  destruct (_ =? -1); [exact I |].
  destruct (negb _); [exact Hos |].
  destruct (read_pk _); [| exact I].
  eapply expected_bind; [apply expected_int |]. intros k _.
  eapply expected_bind; [apply expected_kind_branch, Hos |].
  intros [[m ts] os] Hr. exact Hr.
Qed.

Lemma expected_loop (n : nat) (c osKey : Z) (st : loop_state) :
  (String.length (fileData st) < n)%nat ->
  recognized (osStatus st) ->
  expected (fun st' => recognized (osStatus st')) (addModels_loop n c osKey st).
Proof.
  revert st. induction n as [| n IH]; intros st Hn Hos; [lia |].
  cbn [addModels_loop].
  pose proof (expected_step c osKey st Hos) as Hstep.
  destruct (addModels_step c osKey st) as [[st' |] | e |] eqn:E;
    cbn [bind expected] in *; auto.
  apply IH; [| exact Hstep].
  apply addModels_step_shrinks in E. lia.
Qed.

Lemma expected_addModels (data : string) (c osKey : Z) (osName : string) :
  expected (fun r => recognized (ret_osStatus r))
    (addModels data c osKey osName).
Proof.
  unfold addModels.
  eapply expected_bind.
  - apply expected_loop; [lia | reflexivity].
  - intros st Hst. cbn [expected]. unfold addModels_finish.
    destruct (record_failures _ _ _ _). exact Hst.
Qed.

(** X2.  [addModels] raises nothing but the [ValueError] of [int] on a key
    that is not an integer and the [UnboundLocalError] of [changeFieldPK]:
    no status of the file makes [worseStatus] raise, and no key is missing
    from [testStatus] when it is read. *)
Theorem addModels_raises_only (data : string) (c osKey : Z) (osName : string)
    (e : exn) :
  addModels data c osKey osName = Raise e ->
  e = ValueError \/ e = UnboundLocalError.
Proof.
  intros H. pose proof (expected_addModels data c osKey osName) as He.
  rewrite H in He. exact He.
Qed.

Lemma addModels_raises_only_witness :
  ValueError = ValueError \/ ValueError = UnboundLocalError.
Proof.
  apply (addModels_raises_only null_pk_file 2 3 "centos").
  vm_compute. reflexivity.
Defined.

(** X3.  The OS status that [addModels] returns is a token of the
    vocabulary, whatever the status texts of the file are. *)
Theorem addModels_osStatus_recognized (data : string) (c osKey : Z)
    (osName : string) (r : addModels_result) :
  addModels data c osKey osName = Ok r -> recognized (ret_osStatus r).
Proof.
  intros H. pose proof (expected_addModels data c osKey osName) as He.
  rewrite H in He. exact He.
Qed.

Lemma addModels_osStatus_recognized_witness :
  exists r,
    addModels aborted_test_file 5 3 "centos" = Ok r
    /\ recognized (ret_osStatus r).
Proof.
  assert (H : exists r, addModels aborted_test_file 5 3 "centos" = Ok r)
    by (eexists; vm_compute; reflexivity).
  destruct H as [r H]. exists r. split; [exact H |].
  exact (addModels_osStatus_recognized aborted_test_file 5 3 "centos" r H).
Defined.

(** ** A text without a record *)

(** X4.  A text without an opening brace holds no record: [addModels]
    returns the empty list '[]', the counter it was given and the status
    'Skipped', and writes no row. *)
Theorem addModels_no_record (data : string) (c osKey : Z) (osName : string) :
  find data "{" = -1 ->
  addModels data c osKey osName
  = Ok {| ret_models := "[]"; ret_highestKey := c;
          ret_osStatus := "Skipped";
          ret_chassisName := find_chassisName (replace data cr nl);
          ret_rows := []; ret_emitted := [] |}.
Proof.
  intros H. apply (all_chars_find "{") in H.
  assert (H' : find (replace data cr nl) "{" = -1).
  { apply (all_chars_find "{"). apply replace_char_keeps; [reflexivity | exact H]. }
  assert (Hstep : addModels_step c osKey (addModels_init data) = Ok None).
  { unfold addModels_step.
    change (fileData (addModels_init data)) with (replace data cr nl).
    rewrite H', Z.eqb_refl. reflexivity. }
  unfold addModels. rewrite (addModels_loop_break _ _ _ _ Hstep).
  cbn [bind]. unfold addModels_finish, addModels_init. simpl.
  rewrite Z.add_0_r. reflexivity.
Qed.

Lemma addModels_no_record_witness :
  addModels "testrunner output" 5 3 "centos"
  = Ok {| ret_models := "[]"; ret_highestKey := 5;
          ret_osStatus := "Skipped"; ret_chassisName := EmptyString;
          ret_rows := []; ret_emitted := [] |}.
Proof.
  apply (addModels_no_record "testrunner output" 5 3 "centos"). reflexivity.
Defined.

(** ** The rows of errorFile.csv *)





(** ** changeFieldPK on a record that has the field *)

(** X6.  On a record that has the relation field, [changeFieldPK] adds the
    counter to the key of the related record and returns the new key: for a
    text whose first field [fieldName] holds the integer [z], followed by a
    comma, and where the field with this value does not occur again, the
    text returned is the same text with [z + highestKey] for the value, and
    the key returned is [z + highestKey].  The relation of a log to its
    test, and of a message to its log, is shifted like the primary keys. *)
Theorem changeFieldPK_shifts (A B fieldName pk : string) (z highestKey : Z) :
  find (A +:+ field_marker fieldName) (field_marker fieldName) = len A ->
  all_chars (not_char comma_char) fieldName = true ->
  int_of_str pk = Some z ->
  find ("," +:+ B) (field_marker fieldName +:+ pk) = -1 ->
  changeFieldPK (A +:+ field_marker fieldName +:+ pk +:+ "," +:+ B) fieldName
    highestKey
  = Ok (A +:+ field_marker fieldName +:+ str (z + highestKey) +:+ "," +:+ B,
        z + highestKey).
Proof.
  intros HA Hf Hpk HB.
  set (F := field_marker fieldName) in *.
  set (T := A +:+ F +:+ pk +:+ "," +:+ B).
  pose proof (find_first_no_start A F HA) as Hns.
  unfold changeFieldPK. fold (field_marker fieldName). fold F. fold T.
  assert (Hstart : find T F = len A).
  { apply find_at; [apply Hns | apply prefix_app]. }
  rewrite Hstart.
  assert ((len A =? -1) = false) as ->
    by (apply Z.eqb_neq; pose proof (len_nonneg A); lia).
  cbn [negb].
  assert (Hend : find_from T "," (len A) = len (A +:+ F +:+ pk)).
  { unfold T. rewrite find_from_app.
    assert (find (F +:+ pk +:+ "," +:+ B) "," = len (F +:+ pk)) as ->.
    { rewrite <- app_assoc. apply find_at; [| apply prefix_app].
      apply no_start_first. rewrite all_chars_app.
      apply andb_true_iff. split.
      - unfold F, field_marker. rewrite !all_chars_app. fold comma_char.
        rewrite Hf. reflexivity.
      - apply (int_char_not _ _ z); [reflexivity | exact Hpk]. }
    rewrite shift_found by apply len_nonneg. rewrite !len_app. lia. }
  rewrite Hend.
  replace (len A + len fieldName + 4) with (len (A +:+ F))
    by (unfold F, field_marker; len_lia).
  assert (Hslice : slice T (len (A +:+ F)) (len (A +:+ F +:+ pk)) = pk).
  { replace (len (A +:+ F +:+ pk)) with (len (A +:+ F) + len pk)
      by (rewrite !len_app; lia).
    replace T with ((A +:+ F) +:+ pk +:+ "," +:+ B)
      by (unfold T; by_assoc).
    apply slice_app. }
  rewrite Hslice. unfold int. rewrite Hpk. cbn [bind]. f_equal. f_equal.
  (* the replacement *)
  assert (Hold : F +:+ pk <> EmptyString)
    by (unfold F, field_marker; discriminate).
  rewrite (replace_nonempty _ _ _ Hold).
  replace T with (A +:+ (F +:+ pk) +:+ "," +:+ B) by (unfold T; by_assoc).
  rewrite replace_go_no_start.
  2:{ apply (no_start_weaken F).
      - intros s. apply prefix_app_inv.
      - rewrite app_assoc. apply Hns. }
  destruct (F +:+ pk) as [| o old'] eqn:Eold; [congruence |].
  rewrite replace_go_match by apply prefix_app.
  rewrite drop_app_length.
  rewrite <- (app_nil_r ("," +:+ B)) at 1.
  rewrite replace_go_no_start by (apply find_none_inv, HB).
  cbn [replace_go]. rewrite app_nil_r. by_assoc.
Qed.

Lemma changeFieldPK_shifts_witness :
  changeFieldPK
    (log_head +:+ field_marker "test" +:+ "1" +:+ "," +:+ log_tail) "test" 5
  = Ok (log_head +:+ field_marker "test" +:+ str (1 + 5) +:+ "," +:+ log_tail,
        1 + 5).
Proof.
  apply (changeFieldPK_shifts log_head log_tail "test" "1" 1 5);
    vm_compute; reflexivity.
Defined.

(** ** replaceField on the record of an OS *)

(** The first call on a record as [combine_results] writes it; the proof
    of the second call starts from its result. *)
Lemma replaceField_sets_status (A B : string) (key chassis : Z)
    (osName status newStatus : string) :
  find A (pk_marker +:+ str key +:+ ",") = -1 ->
  no_dq osName = true ->
  all_chars (not_char comma_char) status = true ->
  all_chars (not_char brace_char) status = true ->
  replaceField (A +:+ os_object key chassis osName status +:+ B) key "status"
    newStatus
  = A +:+ os_object_set key chassis osName newStatus +:+ B.
Proof.
  intros HA HN Hc Hb. apply find_none_inv in HA.
  set (P := pk_marker +:+ str key +:+ ",") in *.
  set (H1 := "{" +:+ dq +:+ "model" +:+ dq +:+ ": " +:+ dq
             +:+ "rsinterface.os" +:+ dq +:+ ", ").
  set (L1 := " " +:+ fields_open +:+ "    " +:+ dq +:+ "chassis" +:+ dq
             +:+ ": ").
  set (L2 := "," +:+ nl +:+ "    " +:+ dq +:+ "operatingSystem" +:+ dq
             +:+ ": " +:+ dq).
  set (L3 := dq +:+ "," +:+ nl +:+ "    " +:+ dq).
  set (X := P +:+ L1 +:+ str chassis +:+ L2 +:+ osName +:+ L3).
  set (F := "status" +:+ dq +:+ ": ").
  set (Y' := dq +:+ status +:+ dq).
  set (Y := " " +:+ Y').
  set (T := A +:+ os_object key chassis osName status +:+ B).
  assert (ET : T = (A +:+ H1) +:+ X +:+ F +:+ Y' +:+ "}}" +:+ B).
  { unfold T, os_object, H1, X, F, Y', P, L1, L2, L3. by_assoc. }
  unfold replaceField. fold P. fold T.
  (* the key *)
  assert (Hstart : find T P = len (A +:+ H1)).
  { rewrite ET. unfold X. rewrite (app_assoc P).
    apply find_at; [| apply prefix_app].
    rewrite no_start_app. apply andb_true_iff. split.
    - unfold H1. rewrite app_cons.
      unfold P. rewrite pk_marker_eq, !app_cons.
      apply (no_start_boundary "{" dq_char); [| exact HA].
      rewrite !all_chars_cons, !all_chars_app.
      rewrite str_not by reflexivity. reflexivity.
    - unfold P. rewrite pk_marker_eq, !app_cons.
      apply no_start_guard. reflexivity. }
  rewrite Hstart.
  (* the field *)
  assert (Hfield : find_from T F (len (A +:+ H1))
                   = len ((A +:+ H1) +:+ X)).
  { rewrite ET, find_from_app.
    assert (find (X +:+ F +:+ Y' +:+ "}}" +:+ B) F = len X) as ->.
    { apply find_at; [| apply prefix_app].
      unfold X, P. pieces.
      apply (no_start_quoted "status" ": "); [reflexivity | exact HN |].
      reflexivity. }
    rewrite shift_found by apply len_nonneg. rewrite !len_app. lia. }
  fold F. rewrite Hfield.
  set (pre := ((A +:+ H1) +:+ X) +:+ "status" +:+ dq +:+ ":").
  replace (len ((A +:+ H1) +:+ X) + len "status" + 2) with (len pre)
    by (unfold pre; len_lia).
  assert (ET' : T = pre +:+ Y +:+ "}}" +:+ B).
  { rewrite ET. unfold pre, F, Y. by_assoc. }
  (* the end of the value *)
  assert (Hother : find_from T "}" (len pre) = len (pre +:+ Y)).
  { rewrite ET', find_from_app.
    assert (find (Y +:+ "}}" +:+ B) "}" = len Y) as ->.
    { apply find_at; [| reflexivity]. apply no_start_first.
      unfold Y, Y'. rewrite !all_chars_app. fold brace_char. rewrite Hb.
      reflexivity. }
    rewrite shift_found by apply len_nonneg. rewrite !len_app. lia. }
  assert (Hcomma : find_from T "," (len pre) = -1
                   \/ len (pre +:+ Y) < find_from T "," (len pre)).
  { rewrite ET', find_from_app.
    destruct (find_after "," (Y +:+ "}}") B) as [E | E].
    - apply no_start_first. unfold Y, Y'. rewrite !all_chars_app.
      fold comma_char. rewrite Hc. reflexivity.
    - rewrite app_assoc in E. rewrite E. left. reflexivity.
    - rewrite app_assoc in E. right. rewrite shift_found.
      + rewrite !len_app in *. change (len "}}") with 2 in E. lia.
      + pose proof (len_nonneg (Y +:+ "}}")). lia. }
  rewrite Hother.
  assert (Hend : (negb (len (pre +:+ Y) =? -1)
                  && (len (pre +:+ Y) <? find_from T "," (len pre))
                  || (find_from T "," (len pre) =? -1)) = true).
  { destruct Hcomma as [-> | Hlt]; [apply orb_true_r |].
    apply orb_true_iff. left. apply andb_true_iff. split.
    - apply negb_true_iff, Z.eqb_neq.
      pose proof (len_nonneg (pre +:+ Y)). lia.
    - apply Z.ltb_lt, Hlt. }
  rewrite Hend.
  rewrite ET' at 1. rewrite slice_to_app.
  replace T with ((pre +:+ Y) +:+ "}}" +:+ B) by (rewrite ET'; by_assoc).
  rewrite slice_from_app.
  unfold pre, os_object_set, os_fields_set, H1, X, P, L1, L2, L3. by_assoc.
Qed.

(** X7.  [replaceField] sets the status of the record of an OS: in a text
    that holds the record of the key [key] as [combine_results] writes it,
    with no earlier occurrence of the key, the record gets the new status
    and the rest of the text is kept.  The new value is written right after
    the colon: the space that [combine_results] puts there is dropped. *)
Theorem replaceField_os_status (A B : string) (key chassis : Z)
    (osName status newStatus : string) :
  find A (pk_marker +:+ str key +:+ ",") = -1 ->
  no_dq osName = true ->
  all_chars (not_char comma_char) status = true ->
  all_chars (not_char brace_char) status = true ->
  replaceField (A +:+ os_object key chassis osName status +:+ B) key "status"
    newStatus
  = A +:+ os_object_set key chassis osName newStatus +:+ B.
Proof. apply replaceField_sets_status. Qed.

Lemma replaceField_os_status_witness :
  replaceField (nl +:+ os_object 3 2 "centos" "Skipped" +:+ EmptyString) 3
    "status" "Error"
  = nl +:+ os_object_set 3 2 "centos" "Error" +:+ EmptyString.
Proof.
  apply (replaceField_os_status nl EmptyString 3 2 "centos" "Skipped" "Error");
    reflexivity.
Defined.

Lemma find_nl_key (key : Z) : find nl (pk_marker +:+ str key +:+ ",") = -1.
Proof.
  apply find_none; [| rewrite pk_marker_eq, app_cons; discriminate].
  rewrite pk_marker_eq, !app_cons. reflexivity.
Qed.

(** X8.  [replaceField] sets the status of a record once only.  The record
    that it returns has no space after the colon of the field, so a second
    call for the same key does not find the field.  On the text of
    [all_os_objects] that holds one OS record, the second call writes the
    new value over the name of the model, after the seventh character of
    the text, and the status of the record stays what the first call wrote. *)
Theorem replaceField_second_time (key chassis : Z)
    (osName status v1 v2 : string) :
  no_dq osName = true ->
  all_chars (not_char comma_char) status = true ->
  all_chars (not_char brace_char) status = true ->
  no_dq v1 = true ->
  replaceField
    (replaceField (nl +:+ os_object key chassis osName status) key "status" v1)
    key "status" v2
  = nl +:+ "{" +:+ dq +:+ "mode" +:+ dq +:+ v2 +:+ dq
    +:+ os_fields_set key chassis osName v1.
Proof.
  intros HN Hc Hb Hv.
  rewrite <- (app_nil_r (os_object key chassis osName status)).
  rewrite (replaceField_sets_status nl EmptyString) by
    first [apply find_nl_key | assumption].
  rewrite app_nil_r.
  set (P := pk_marker +:+ str key +:+ ",").
  set (a7 := nl +:+ "{" +:+ dq +:+ "mode").
  set (G := "l" +:+ dq +:+ ": " +:+ dq +:+ "rsinterface.os" +:+ dq).
  set (L1 := " " +:+ fields_open +:+ "    " +:+ dq +:+ "chassis" +:+ dq
             +:+ ": ").
  set (L2 := "," +:+ nl +:+ "    " +:+ dq +:+ "operatingSystem" +:+ dq
             +:+ ": " +:+ dq).
  set (L3 := dq +:+ "," +:+ nl +:+ "    " +:+ dq).
  set (L4 := "status" +:+ dq +:+ ":" +:+ dq).
  set (L5 := dq +:+ "}}").
  set (F := "status" +:+ dq +:+ ": ").
  set (R := L1 +:+ str chassis +:+ L2 +:+ osName +:+ L3 +:+ L4 +:+ v1 +:+ L5).
  set (T := nl +:+ os_object_set key chassis osName v1).
  assert (ET : T = (a7 +:+ G +:+ ", ") +:+ P +:+ R).
  { unfold T, os_object_set, os_fields_set, a7, G, P, R, L1, L2, L3, L4, L5.
    by_assoc. }
  assert (EF : os_fields_set key chassis osName v1 = ", " +:+ P +:+ R).
  { unfold os_fields_set, P, R, L1, L2, L3, L4, L5. by_assoc. }
  unfold replaceField. fold P. fold T. fold F.
  assert (Hstart : find T P = len (a7 +:+ G +:+ ", ")).
  { rewrite ET. apply find_at; [| apply prefix_app].
    unfold P. rewrite pk_marker_eq, !app_cons.
    apply no_start_guard. reflexivity. }
  rewrite Hstart.
  assert (Hfield : find_from T F (len (a7 +:+ G +:+ ", ")) = -1).
  { rewrite ET, find_from_app.
    assert (find (P +:+ R) F = -1) as -> ; [| reflexivity].
    apply find_none; [| discriminate].
    unfold P, R. pieces.
    - apply (no_start_quoted "status" ": "); [reflexivity | exact HN |].
      reflexivity.
    - apply (no_start_quoted "status" ": "); [reflexivity | exact Hv |].
      reflexivity. }
  rewrite Hfield.
  change (-1 + len "status" + 2) with (len a7).
  assert (ET' : T = a7 +:+ G +:+ ", " +:+ P +:+ R).
  { rewrite ET. by_assoc. }
  assert (Hcomma : find_from T "," (len a7) = len (a7 +:+ G)).
  { rewrite ET', find_from_app.
    assert (find (G +:+ ", " +:+ P +:+ R) "," = len G) as ->.
    { apply find_at; [| reflexivity]. no_start_lit. }
    rewrite shift_found by apply len_nonneg. rewrite !len_app. lia. }
  assert (Hother : find_from T "}" (len a7) = -1
                   \/ len (a7 +:+ G) <= find_from T "}" (len a7)).
  { rewrite ET', find_from_app.
    destruct (find_after "}" G (", " +:+ P +:+ R)) as [E | E].
    - no_start_lit.
    - rewrite E. left. reflexivity.
    - right. rewrite shift_found.
      + rewrite len_app. lia.
      + pose proof (len_nonneg G). lia. }
  rewrite Hcomma.
  assert (Hend : (negb (find_from T "}" (len a7) =? -1)
                  && (find_from T "}" (len a7) <? len (a7 +:+ G))
                  || (len (a7 +:+ G) =? -1)) = false).
  { apply orb_false_iff. split.
    - destruct Hother as [-> | Hle]; [reflexivity |].
      apply andb_false_iff. right. apply Z.ltb_ge, Hle.
    - apply Z.eqb_neq. pose proof (len_nonneg (a7 +:+ G)). lia. }
  rewrite Hend.
  rewrite ET' at 1. rewrite slice_to_app.
  replace T with ((a7 +:+ G) +:+ ", " +:+ P +:+ R) by (rewrite ET'; by_assoc).
  rewrite slice_from_app, EF. unfold a7. by_assoc.
Qed.

Lemma replaceField_second_time_witness :
  replaceField
    (replaceField (nl +:+ os_object 3 2 "centos" "Skipped") 3 "status" "Pass")
    3 "status" "Error"
  = nl +:+ "{" +:+ dq +:+ "mode" +:+ dq +:+ "Error" +:+ dq
    +:+ os_fields_set 3 2 "centos" "Pass".
Proof.
  apply (replaceField_second_time 3 2 "centos" "Skipped" "Pass" "Error");
    reflexivity.
Defined.

(** ** The name of the chassis *)

(** X9.  The name that [addModels] reads at its start (lines 292-300) is the
    name of the first chassis record of the text: for a text whose first
    occurrence of 'rsinterface.chassis' is a chassis record of the form that
    [combine_results] writes, with a name without a comma, it is the name of
    that record. *)
Theorem find_chassisName_chassis_object (A B : string) (key : Z)
    (name ip status : string) :
  find A chassisObject = -1 ->
  all_chars (not_char comma_char) name = true ->
  find_chassisName (A +:+ chassis_object key name ip status +:+ B) = name.
Proof.
  intros HA Hn. apply find_none_inv in HA.
  set (G1 := "{" +:+ dq +:+ "model" +:+ dq +:+ ": " +:+ dq).
  set (M1 := chassisObject +:+ dq +:+ ", " +:+ pk_marker).
  set (M2 := ", " +:+ fields_open +:+ "    " +:+ dq).
  set (S0 := "chassisName" +:+ dq +:+ ": ").
  set (E := "," +:+ nl +:+ "    " +:+ dq +:+ "ipNum" +:+ dq +:+ ": " +:+ dq
            +:+ ("192.168." +:+ replace ip "_" ".") +:+ dq +:+ "," +:+ nl
            +:+ "    " +:+ dq +:+ "status" +:+ dq +:+ ": " +:+ dq +:+ status
            +:+ dq +:+ "}}," +:+ nl).
  set (T := A +:+ chassis_object key name ip status +:+ B).
  assert (ET : T = (A +:+ G1) +:+ (M1 +:+ str key +:+ M2) +:+ S0 +:+ dq
                   +:+ name +:+ dq +:+ E +:+ B).
  { unfold T, chassis_object, G1, M1, M2, S0, E, chassisObject. by_assoc. }
  unfold find_chassisName. fold T. fold S0.
  assert (Hhas : find T chassisObject = len (A +:+ G1)).
  { rewrite ET. unfold M1. rewrite !(app_assoc chassisObject).
    apply find_at; [| apply prefix_app].
    rewrite no_start_app. apply andb_true_iff. split.
    - unfold G1. rewrite app_cons.
      apply (no_start_boundary "{" "r" "sinterface.chassis");
        [reflexivity | exact HA].
    - no_start_lit. }
  rewrite Hhas.
  assert (Hne : (len (A +:+ G1) =? -1) = false).
  { apply Z.eqb_neq. pose proof (len_nonneg (A +:+ G1)). lia. }
  rewrite Hne. cbn [negb].
  set (pre := (A +:+ G1) +:+ M1 +:+ str key +:+ M2).
  assert (Hstart : find_from T S0 (len (A +:+ G1)) = len pre).
  { rewrite ET, find_from_app.
    assert (find ((M1 +:+ str key +:+ M2) +:+ S0 +:+ dq +:+ name +:+ dq
                    +:+ E +:+ B) S0 = len (M1 +:+ str key +:+ M2)) as ->.
    { apply find_at; [| apply prefix_app]. pieces. }
    rewrite shift_found by apply len_nonneg. unfold pre.
    rewrite !len_app. lia. }
  rewrite Hstart.
  assert (ET' : T = pre +:+ (S0 +:+ dq +:+ name +:+ dq) +:+ E +:+ B).
  { rewrite ET. unfold pre. by_assoc. }
  assert (Hend : find_from T "," (len pre)
                 = len (pre +:+ S0 +:+ dq +:+ name +:+ dq)).
  { rewrite ET', find_from_app.
    assert (find ((S0 +:+ dq +:+ name +:+ dq) +:+ E +:+ B) ","
            = len (S0 +:+ dq +:+ name +:+ dq)) as ->.
    { apply find_at; [| reflexivity]. apply no_start_first.
      rewrite !all_chars_app. fold comma_char. rewrite Hn. reflexivity. }
    rewrite shift_found by apply len_nonneg. rewrite !len_app. lia. }
  rewrite Hend.
  replace (len pre + len S0 + 1) with (len (pre +:+ S0 +:+ dq)) by len_lia.
  replace (len (pre +:+ S0 +:+ dq +:+ name +:+ dq) - 1)
    with (len (pre +:+ S0 +:+ dq) + len name) by len_lia.
  replace T with ((pre +:+ S0 +:+ dq) +:+ name +:+ dq +:+ E +:+ B)
    by (rewrite ET'; by_assoc).
  apply slice_app.
Qed.

Lemma find_chassisName_chassis_object_witness :
  find_chassisName
    ("[" +:+ chassis_object 2 "DNA-PPC8" "101_5" "Pass" +:+ EmptyString)
  = "DNA-PPC8".
Proof.
  apply (find_chassisName_chassis_object "[" EmptyString 2 "DNA-PPC8" "101_5"
           "Pass"); reflexivity.
Defined.

(** ** getField and getOSName *)

Lemma split_go_word (w s : string) :
  all_chars not_space s = true -> split_go (Some w) s = [w +:+ s].
Proof.
  revert w. induction s as [| c s IH]; intros w H.
  - rewrite app_nil_r. reflexivity.
  - rewrite all_chars_cons in H. apply andb_true_iff in H as [H1 H2].
    unfold not_space in H1. apply negb_true_iff in H1.
    cbn [split_go]. rewrite H1, (IH _ H2), app_assoc. reflexivity.
Qed.

Lemma split_word (s : string) :
  all_chars not_space s = true -> split (" " +:+ dq +:+ s) = [dq +:+ s].
Proof.
  intros H. unfold split.
  change (" " +:+ dq +:+ s) with (String " " (String dq_char s)).
  cbn [split_go].
  change (is_space " ") with true. change (is_space dq_char) with false.
  cbv iota. rewrite (split_go_word _ _ H). reflexivity.
Qed.

Lemma replace_quotes (s : string) :
  no_dq s = true -> replace (dq +:+ s +:+ dq) dq EmptyString = s.
Proof.
  intros H. unfold replace. change dq with (String dq_char EmptyString).
  rewrite replace_go_match by apply prefix_app.
  rewrite (drop_app_length (String dq_char EmptyString)).
  rewrite replace_go_no_start by (apply no_start_first, H).
  assert (E : replace_go (String dq_char EmptyString) EmptyString O
                (String dq_char EmptyString) = EmptyString)
    by (vm_compute; reflexivity).
  rewrite E, app_nil_l, app_nil_r. reflexivity.
Qed.

(** X10.  [getOSName] reads the name of the first OS record of the text and
    never looks at the key it is asked for: for every [osPK], on a text
    whose first occurrence of 'rsinterface.os' is an OS record of the form
    that [combine_results] writes, it returns the name of that record,
    when the name holds no double quote, comma or white space. *)
Theorem getOSName_first_record (osPK : Z) (A B : string) (key chassis : Z)
    (osName status : string) :
  find A "rsinterface.os" = -1 ->
  no_dq osName = true ->
  all_chars (not_char comma_char) osName = true ->
  all_chars not_space osName = true ->
  getOSName osPK (A +:+ os_object key chassis osName status +:+ B)
  = Some osName.
Proof.
  intros HA Hq Hc Hs. apply find_none_inv in HA.
  set (G1 := "{" +:+ dq +:+ "model" +:+ dq +:+ ": " +:+ dq).
  set (K1 := dq +:+ ", " +:+ pk_marker).
  set (K2 := ", " +:+ fields_open +:+ "    " +:+ dq +:+ "chassis" +:+ dq
             +:+ ": ").
  set (K3 := "," +:+ nl +:+ "    " +:+ dq).
  set (W := " " +:+ dq +:+ osName +:+ dq).
  set (E := "," +:+ nl +:+ "    " +:+ dq +:+ "status" +:+ dq +:+ ": " +:+ dq
            +:+ status +:+ dq +:+ "}}").
  set (T := A +:+ os_object key chassis osName status +:+ B).
  set (X := K1 +:+ str key +:+ K2 +:+ str chassis +:+ K3).
  assert (ET : T = (A +:+ G1) +:+ "rsinterface.os" +:+ X
                   +:+ "operatingSystem" +:+ dq +:+ ":" +:+ W +:+ E +:+ B).
  { unfold T, os_object, G1, X, K1, K2, K3, W, E. by_assoc. }
  unfold getOSName. fold T.
  assert (Hloc : find_from T "rsinterface.os" 0 = len (A +:+ G1)).
  { change (find_from T "rsinterface.os" 0) with (find T "rsinterface.os").
    rewrite ET. apply find_at; [| reflexivity].
    rewrite no_start_app. apply andb_true_iff. split.
    - unfold G1. rewrite app_cons.
      apply (no_start_boundary "{" "r" "sinterface.os");
        [reflexivity | exact HA].
    - no_start_lit. }
  rewrite Hloc.
  set (p1 := (A +:+ G1) +:+ "rsinterface.os").
  replace (len (A +:+ G1) + len "rsinterface.os") with (len p1)
    by (unfold p1; len_lia).
  assert (ET1 : T = p1 +:+ X +:+ "operatingSystem" +:+ dq +:+ ":" +:+ W
                    +:+ E +:+ B).
  { rewrite ET. unfold p1. by_assoc. }
  assert (Hidx : find_from T "operatingSystem" (len p1) = len (p1 +:+ X)).
  { rewrite ET1, find_from_app.
    assert (find (X +:+ "operatingSystem" +:+ dq +:+ ":" +:+ W +:+ E +:+ B)
              "operatingSystem" = len X) as ->.
    { apply find_at; [| reflexivity]. unfold X. pieces. }
    rewrite shift_found by apply len_nonneg. rewrite !len_app. lia. }
  rewrite Hidx.
  unfold getField.
  set (p2 := p1 +:+ X).
  assert (ET2 : T = p2 +:+ ("operatingSystem" +:+ dq) +:+ ":" +:+ W
                    +:+ E +:+ B).
  { rewrite ET1. unfold p2. by_assoc. }
  assert (Hcolon : find_from T ":" (len p2)
                   = len (p2 +:+ "operatingSystem" +:+ dq)).
  { rewrite ET2, find_from_app.
    assert (find (("operatingSystem" +:+ dq) +:+ ":" +:+ W +:+ E +:+ B) ":"
            = len ("operatingSystem" +:+ dq)) as ->.
    { apply find_at; [| reflexivity]. no_start_lit. }
    rewrite shift_found by apply len_nonneg. rewrite !len_app. lia. }
  rewrite Hcolon.
  set (p3 := p2 +:+ "operatingSystem" +:+ dq +:+ ":").
  replace (len (p2 +:+ "operatingSystem" +:+ dq) + 1) with (len p3)
    by (unfold p3; len_lia).
  assert (ET3 : T = p3 +:+ W +:+ E +:+ B).
  { rewrite ET2. unfold p3. by_assoc. }
  assert (Hcomma : find_from T "," (len p3) = len p3 + len W).
  { rewrite ET3, find_from_app.
    assert (find (W +:+ E +:+ B) "," = len W) as ->.
    { apply find_at; [| reflexivity]. apply no_start_first.
      unfold W. rewrite !all_chars_app. fold comma_char. rewrite Hc.
      reflexivity. }
    apply shift_found, len_nonneg. }
  rewrite Hcomma, ET3, slice_app.
  unfold W.
  replace (" " +:+ dq +:+ osName +:+ dq)
    with (" " +:+ dq +:+ (osName +:+ dq)) by reflexivity.
  rewrite split_word.
  - cbn [hd_error option_map]. rewrite replace_quotes by exact Hq.
    reflexivity.
  - rewrite all_chars_app, Hs. reflexivity.
Qed.

Lemma getOSName_first_record_witness :
  getOSName 7
    (nl +:+ os_object 3 2 "linux_centos" "Pass"
       +:+ os_object 7 6 "windows_10" "Error")
  = Some "linux_centos".
Proof.
  apply (getOSName_first_record 7 nl (os_object 7 6 "windows_10" "Error") 3 2
           "linux_centos" "Pass"); reflexivity.
Defined.

(** ** getIP and the names of the files of a test run *)

Lemma prefix_test (s : string) :
  String.prefix "test_" s = true -> String.prefix "test" s = true.
Proof. intros H. apply (prefix_app_inv "test" "_"), H. Qed.

Lemma str_no_dot (z : Z) : all_chars (not_char ".") (str z) = true.
Proof. apply str_char_not. reflexivity. Qed.

(** X11.  [getIP] gives back the token of the name that [run_test] gives to a
    result file: for the short name of a virtual machine that holds neither
    'test' nor '.json', and the number [n] of a chassis, the token of
    '<short>_test_101_<n>_result.json' is '101_<n>'; the name of the log of
    the test runner, '<short>_101_<n>.txt', gives the integer -1. *)
Theorem getIP_result_file_name (short_name : string) (n : Z) :
  find short_name "test" = -1 -> find short_name ".json" = -1 ->
  getIP (result_file_name short_name n) = IPStr ("101_" +:+ str n)
  /\ getIP (testrunner_log_name short_name n) = IPInt (-1).
Proof.
  intros Ht Hj. apply find_none_inv in Ht, Hj. split.
  - unfold getIP, result_file_name.
    assert (Hstart : find (short_name +:+ "_test_101_" +:+ str n
                             +:+ "_result.json") "test_"
                     = len (short_name +:+ "_")).
    { replace (short_name +:+ "_test_101_" +:+ str n +:+ "_result.json")
        with ((short_name +:+ "_") +:+ "test_101_" +:+ str n
                +:+ "_result.json") by by_assoc.
      apply find_at; [| reflexivity].
      rewrite no_start_app. apply andb_true_iff. split; [| reflexivity].
      apply (no_start_weaken "test"); [apply prefix_test |].
      apply (no_start_boundary "_" "t" "est"); [reflexivity | exact Ht]. }
    assert (Hext : find (short_name +:+ "_test_101_" +:+ str n
                           +:+ "_result.json") ".json"
                   = len (short_name +:+ "_test_101_" +:+ str n
                            +:+ "_result")).
    { replace (short_name +:+ "_test_101_" +:+ str n +:+ "_result.json")
        with ((short_name +:+ "_test_101_" +:+ str n +:+ "_result")
                +:+ ".json") by by_assoc.
      apply find_at; [| reflexivity].
      rewrite no_start_app. apply andb_true_iff. split.
      - apply (no_start_boundary "_" "." "json"); [reflexivity | exact Hj].
      - apply no_start_first. rewrite !all_chars_app, str_no_dot.
        reflexivity. }
    rewrite Hstart, Hext.
    assert (E1 : (len (short_name +:+ "_") =? -1) = false)
      by (apply Z.eqb_neq; pose proof (len_nonneg (short_name +:+ "_")); lia).
    assert (E2 : (len (short_name +:+ "_test_101_" +:+ str n +:+ "_result")
                  =? -1) = false).
    { apply Z.eqb_neq.
      pose proof (len_nonneg (short_name +:+ "_test_101_" +:+ str n
                                +:+ "_result")). lia. }
    rewrite E1, E2. cbn [negb andb]. f_equal.
    replace (len (short_name +:+ "_") + 5)
      with (len (short_name +:+ "_test_"))
      by len_lia.
    replace (len (short_name +:+ "_test_101_" +:+ str n +:+ "_result") - 7)
      with (len (short_name +:+ "_test_") + len ("101_" +:+ str n)).
    2:{ len_lia. }
    replace (short_name +:+ "_test_101_" +:+ str n +:+ "_result.json")
      with ((short_name +:+ "_test_") +:+ ("101_" +:+ str n)
              +:+ "_result.json").
    2:{ by_assoc. }
    apply slice_app.
  - unfold getIP, testrunner_log_name.
    assert (Hext : find (short_name +:+ "_101_" +:+ str n +:+ ".txt") ".json"
                   = -1).
    { apply find_none; [| discriminate].
      rewrite no_start_app. apply andb_true_iff. split.
      - rewrite app_nil_r.
        apply (no_start_boundary "_" "." "json"); [reflexivity | exact Hj].
      - rewrite no_start_app. apply andb_true_iff. split.
        + apply no_start_first. reflexivity.
        + rewrite no_start_app. apply andb_true_iff. split.
          * apply no_start_first, str_no_dot.
          * reflexivity. }
    rewrite Hext. rewrite Z.eqb_refl, andb_false_r. reflexivity.
Qed.

Lemma getIP_result_file_name_witness :
  getIP (result_file_name "centos" 5) = IPStr "101_5"
  /\ getIP (testrunner_log_name "centos" 5) = IPInt (-1).
Proof. apply (getIP_result_file_name "centos" 5); reflexivity. Defined.

(** ** The discovery of the result files *)

Lemma scan_files_spec (fs : gmap (string * string) string) (osName : string)
    (todo remove : list string) (inDB : gmap string bool)
    (ip errors : list string) :
  readable fs osName todo ->
  scan_files fs osName todo remove inDB ip errors
  = Ok (remove ++ List.filter (archived fs osName) todo,
        fold_left (fun m f => <[f := false]> m)
          (List.filter (pending fs osName) todo) inDB,
        ip ++ tokens (List.filter (pending fs osName) todo),
        errors ++ map log_line
                    (List.filter (fun f => negb (has_token f))
                       (List.filter (pending fs osName) todo))).
Proof.
  unfold pending. revert remove inDB ip errors.
  induction todo as [| f todo IH]; intros remove inDB ip errors Hr.
  - cbn. rewrite !List.app_nil_r. reflexivity.
  - apply Forall_cons in Hr as [[data Hf] Hr].
    cbn [scan_files]. unfold read_file. rewrite Hf. cbn [bind].
    cbn [List.filter].
    destruct (archived fs osName f) eqn:Ea; pose proof Ea as Ea';
      unfold archived in Ea'; rewrite Hf in Ea'; rewrite Ea'; cbn [negb].
    + rewrite IH by exact Hr. rewrite <- List.app_assoc. reflexivity.
    + cbn [tokens fold_left List.filter]. unfold has_token at 1.
      destruct (getIP f) as [tok | z] eqn:Eip; cbn [negb map];
        rewrite IH by exact Hr; rewrite <- List.app_assoc; reflexivity.
Qed.

Lemma scan_files_unreadable (fs : gmap (string * string) string)
    (osName : string) (todo remove : list string) (inDB : gmap string bool)
    (ip errors : list string) :
  ~ readable fs osName todo ->
  scan_files fs osName todo remove inDB ip errors = Raise FileNotFoundError.
Proof.
  revert remove inDB ip errors.
  induction todo as [| f todo IH]; intros remove inDB ip errors Hr.
  - exfalso. apply Hr. constructor.
  - cbn [scan_files]. unfold read_file.
    destruct (fs !! (osName, f)) as [data |] eqn:Hf; [| reflexivity].
    cbn [bind].
    assert (Hr' : ~ readable fs osName todo).
    { intros H. apply Hr. constructor; [eauto | exact H]. }
    destruct (negb _); [apply IH, Hr' |].
    destruct (getIP f); apply IH, Hr'.
Qed.

Lemma readable_dec (fs : gmap (string * string) string) (osName : string)
    (names : list string) :
  {readable fs osName names} + {~ readable fs osName names}.
Proof. apply Forall_dec. intros f. apply is_Some_dec. Qed.

Lemma list_remove_head (f : string) (l : list string) :
  list_remove f (f :: l) = l.
Proof. cbn [list_remove]. rewrite String.eqb_refl. reflexivity. Qed.

Lemma fold_remove_keep (f : string) (R l : list string) :
  ~ In f R ->
  fold_left (fun files x => list_remove x files) R (f :: l)
  = f :: fold_left (fun files x => list_remove x files) R l.
Proof.
  revert l. induction R as [| r R IH]; intros l Hin; [reflexivity |].
  cbn [fold_left list_remove].
  destruct (String.eqb r f) eqn:E.
  - apply String.eqb_eq in E. subst. exfalso. apply Hin. left. reflexivity.
  - apply IH. intros H. apply Hin. right. exact H.
Qed.

(** Lines 492-493 leave the names that were not put in [remove]. *)
Lemma fold_remove_filter (P : string -> bool) (names : list string) :
  fold_left (fun files x => list_remove x files) (List.filter P names) names
  = List.filter (fun f => negb (P f)) names.
Proof.
  induction names as [| f names IH]; [reflexivity |].
  cbn [List.filter]. destruct (P f) eqn:E; cbn [negb].
  - cbn [fold_left]. rewrite list_remove_head. exact IH.
  - rewrite fold_remove_keep; [rewrite IH; reflexivity |].
    intros H. apply filter_In in H as [_ H]. congruence.
Qed.

Lemma getFilesAndIP_readable (fs : gmap (string * string) string)
    (names : list string) (osName : string) :
  readable fs osName names ->
  getFilesAndIP fs names osName
  = Ok {| d_files := List.filter (pending fs osName) names;
          d_inDB := fold_left (fun m f => <[f := false]> m)
                      (List.filter (pending fs osName) names) ∅;
          d_ip := tokens (List.filter (pending fs osName) names);
          d_errors := map log_line
                        (List.filter (fun f => negb (has_token f))
                           (List.filter (pending fs osName) names)) |}.
Proof.
  intros Hr. unfold getFilesAndIP. rewrite scan_files_spec by exact Hr.
  cbn [bind app]. rewrite fold_remove_filter. reflexivity.
Qed.

Lemma getFilesAndIP_unreadable (fs : gmap (string * string) string)
    (names : list string) (osName : string) :
  ~ readable fs osName names ->
  getFilesAndIP fs names osName = Raise FileNotFoundError.
Proof.
  intros Hr. unfold getFilesAndIP. rewrite scan_files_unreadable by exact Hr.
  reflexivity.
Qed.

Lemma lookup_fold_false (l : list string) (m : gmap string bool)
    (f : string) :
  fold_left (fun m f => <[f := false]> m) l m !! f
  = if bool_decide (f ∈ l) then Some false else m !! f.
Proof.
  revert m. induction l as [| x l IH]; intros m.
  - cbn [fold_left]. rewrite bool_decide_false; [reflexivity |].
    apply not_elem_of_nil.
  - cbn [fold_left]. rewrite IH.
    destruct (bool_decide (f ∈ l)) eqn:E.
    + apply bool_decide_eq_true in E.
      rewrite bool_decide_true; [reflexivity | right; exact E].
    + apply bool_decide_eq_false in E.
      destruct (decide (x = f)) as [-> | Hne].
      * rewrite lookup_insert_eq, bool_decide_true; [reflexivity | left].
      * rewrite lookup_insert_ne by exact Hne.
        rewrite bool_decide_false; [reflexivity |].
        intros H. apply elem_of_cons in H as [-> | H]; auto.
Qed.

(** X12.  When every name of the directory can be read, [getFilesAndIP]
    returns; the files it returns are the names, in the order of the
    directory, whose text does not hold 'File in database'; [inDB] maps
    each of them to [False] and holds no other name, so no entry of [inDB]
    is ever [True]; and the tokens are the ones [getIP] finds in the names
    of the files returned. *)
Theorem getFilesAndIP_keeps_pending (fs : gmap (string * string) string)
    (names : list string) (osName : string) :
  readable fs osName names ->
  exists d,
    getFilesAndIP fs names osName = Ok d
    /\ d_files d = List.filter (pending fs osName) names
    /\ (forall f b, d_inDB d !! f = Some b <-> b = false /\ f ∈ d_files d)
    /\ d_ip d = tokens (d_files d)
    /\ d_errors d
       = map log_line (List.filter (fun f => negb (has_token f)) (d_files d)).
Proof.
  intros Hr. eexists. split; [apply getFilesAndIP_readable, Hr |].
  cbn [d_files d_inDB d_ip d_errors].
  split; [reflexivity |]. split; [| split; reflexivity].
  intros f b. rewrite lookup_fold_false, lookup_empty.
  destruct (bool_decide _) eqn:E.
  - apply bool_decide_eq_true in E. split.
    + intros H. injection H as <-. auto.
    + intros [-> _]. reflexivity.
  - apply bool_decide_eq_false in E. split; [discriminate | tauto].
Qed.

Lemma getFilesAndIP_keeps_pending_witness :
  exists d,
    getFilesAndIP (files stray_world) (listdir stray_world "centos") "centos"
    = Ok d
    /\ d_files d = ["centos_test_101_5_result.json"; "centos_101_5.txt"]
    /\ d_inDB d !! "centos_101_5.txt" = Some false
    /\ d_ip d = ["101_5"].
Proof.
  destruct (getFilesAndIP_keeps_pending (files stray_world)
              (listdir stray_world "centos") "centos")
    as (d & Hd & Hf & Hdb & Hip & _).
  { repeat constructor; vm_compute; eauto. }
  exists d. split; [exact Hd |].
  assert (Hfiles : d_files d
                   = ["centos_test_101_5_result.json"; "centos_101_5.txt"]).
  { rewrite Hf. vm_compute. reflexivity. }
  split; [exact Hfiles |]. split.
  - apply Hdb. split; [reflexivity |]. rewrite Hfiles.
    apply elem_of_cons. right. apply elem_of_cons. left. reflexivity.
  - rewrite Hip, Hfiles. vm_compute. reflexivity.
Defined.

(** ** The trailer of the merged files *)






Lemma alloc_os_fs (ip : string) (oss : list (string * list string)) (a : acc) :
  fs (alloc_os ip oss a) = fs a.
Proof.
  revert a. induction oss as [| [osName ips] oss IH]; intros a; [reflexivity |].
  cbn [alloc_os]. destruct (mem ip ips); rewrite IH; reflexivity.
Qed.

Lemma alloc_keys_fs (chs : list string) (oss : list (string * list string))
    (a : acc) :
  fs (alloc_keys chs oss a) = fs a.
Proof.
  revert a. induction chs as [| ip chs IH]; intros a; [reflexivity |].
  cbn [alloc_keys]. rewrite IH, alloc_os_fs. reflexivity.
Qed.

(** What [discover] returns, OS by OS. *)
Lemma discover_inv (w : world) (os_list : list string)
    (ds : list (string * discovery)) :
  discover w os_list = Ok ds ->
  Forall2 (fun os p =>
             fst p = os
             /\ getFilesAndIP (files w) (listdir w os) os = Ok (snd p))
    os_list ds.
Proof.
  revert ds. induction os_list as [| o l IH]; intros ds H.
  - injection H as <-. constructor.
  - cbn [discover] in H. apply bind_Ok_inv in H as (d & Hd & H).
    apply bind_Ok_inv in H as (ds' & Hds & H). injection H as <-.
    constructor; [auto | apply IH, Hds].
Qed.

Lemma getFilesAndIP_Ok_inv (fs : gmap (string * string) string)
    (names : list string) (osName : string) (d : discovery) :
  getFilesAndIP fs names osName = Ok d ->
  readable fs osName names
  /\ d = {| d_files := List.filter (pending fs osName) names;
            d_inDB := fold_left (fun m f => <[f := false]> m)
                        (List.filter (pending fs osName) names) ∅;
            d_ip := tokens (List.filter (pending fs osName) names);
            d_errors := map log_line
                          (List.filter (fun f => negb (has_token f))
                             (List.filter (pending fs osName) names)) |}.
Proof.
  intros H. destruct (readable_dec fs osName names) as [Hr | Hr].
  - split; [exact Hr |]. rewrite getFilesAndIP_readable in H by exact Hr.
    congruence.
  - rewrite getFilesAndIP_unreadable in H by exact Hr. discriminate.
Qed.

(** The run, cut into its stages. *)
Lemma combine_results_inv (cfg : config) (w : world) (m : merged) :
  combine_results cfg w = Ok (Some m) ->
  vms cfg <> []
  /\ exists ds a1 records,
      discover w (vms cfg) = Ok ds
      /\ merge_oses ds
           (alloc_keys (union_chassis (map (fun d => d_ip (snd d)) ds))
              (zip (vms cfg) (map (fun d => d_ip (snd d)) ds)) (acc_init w))
         = Ok a1
      /\ chassis_records a1 (union_chassis (map (fun d => d_ip (snd d)) ds))
         = Ok records
      /\ final m = a1
      /\ all_chassis m = union_chassis (map (fun d => d_ip (snd d)) ds)
      /\ chassis_written m = records
      /\ date_key m = 1
      /\ errors_logged m = concat (map (fun d => d_errors (snd d)) ds).
Proof.
  intros Hrun. unfold combine_results in Hrun.
  destruct (vms cfg) as [| o l] eqn:Evms.
  { cbn [length Nat.eqb andb negb] in Hrun.
    destruct (negb (bool_decide (is_Some (logic_results w))));
      cbn [bind] in Hrun; discriminate. }
  split; [discriminate |].
  cbn [length Nat.eqb andb negb] in Hrun.
  apply bind_Ok_inv in Hrun as ([[a chs] errs] & Ha & Hrun).
  apply bind_Ok_inv in Ha as (ds & Hds & Ha).
  apply bind_Ok_inv in Ha as (a1 & Hm & Ha). injection Ha as <- <- <-.
  apply bind_Ok_inv in Hrun as (records & Hrec & Hrun).
  injection Hrun as <-. cbn [final all_chassis chassis_written date_key
    errors_logged].
  exists ds, a1, records. repeat split; assumption.
Qed.






(** ** A second run over the same directories *)








(** ** A run without an OS *)



(** ** The dictionaries and the statuses of a run *)

Lemma run_expected_bind {A B : Type} (Q : A -> Prop) (P : B -> Prop)
    (m : outcome A) (k : A -> outcome B) :
  run_expected Q m -> (forall a, Q a -> run_expected P (k a)) ->
  run_expected P (bind m k).
Proof. destruct m; simpl; auto. Qed.

Lemma expected_run_expected {A : Type} (P : A -> Prop) (m : outcome A) :
  expected P m -> run_expected P m.
Proof. destruct m; simpl; tauto. Qed.

Lemma item_is_Some {V : Type} (d : gmap string V) (k : string) :
  is_Some (d !! k) -> exists v, item d k = Ok v /\ d !! k = Some v.
Proof. intros [v Hv]. exists v. unfold item. rewrite Hv. auto. Qed.

Lemma mem_In (x : string) (l : list string) : mem x l = true <-> In x l.
Proof.
  unfold mem. rewrite existsb_exists. split.
  - intros (y & Hy & E). apply String.eqb_eq in E. subst. exact Hy.
  - intros H. exists x. split; [exact H | apply String.eqb_refl].
Qed.

Lemma grows_refl (a : acc) : grows a a.
Proof. unfold grows. tauto. Qed.

Lemma grows_trans (a b c : acc) : grows a b -> grows b c -> grows a c.
Proof. unfold grows. intuition auto. Qed.

Lemma is_Some_insert {K V : Type} `{Countable K} (m : gmap K V) (k k' : K)
    (v : V) :
  is_Some (m !! k') -> is_Some (<[k := v]> m !! k').
Proof.
  intros Hs. destruct (decide (k = k')) as [-> | Hne].
  - rewrite lookup_insert_eq. eauto.
  - rewrite lookup_insert_ne by exact Hne. exact Hs.
Qed.

Lemma recognized_Skipped : recognized (skipped0 TEST_STATUS_DICT).
Proof. reflexivity. Qed.

Lemma alloc_os_keyed (ip : string) (oss : list (string * list string))
    (a : acc) :
  statuses_ok a ->
  grows a (alloc_os ip oss a)
  /\ statuses_ok (alloc_os ip oss a)
  /\ (forall osName ips, In (osName, ips) oss -> In ip ips ->
        is_Some (os_key (alloc_os ip oss a) !! (osName +:+ ip))
        /\ is_Some (os_status (alloc_os ip oss a) !! (osName +:+ ip))).
Proof.
  revert a. induction oss as [| [osName ips] oss IH]; intros a Hst.
  - cbn [alloc_os]. split; [apply grows_refl |]. split; [exact Hst |].
    intros ? ? [].
  - cbn [alloc_os]. destruct (mem ip ips) eqn:Em.
    + match goal with
      | |- context [alloc_os ip oss ?a1] => set (a1' := a1)
      end.
      assert (Hg1 : grows a a1').
      { unfold grows, a1'. cbn. repeat split; auto; intros k Hk;
          apply is_Some_insert, Hk. }
      assert (Hst1 : statuses_ok a1').
      { destruct Hst as (H1 & H2 & H3). unfold statuses_ok, a1'. cbn.
        split; [exact H1 |]. split; [exact H2 |].
        intros k s Hk. rewrite lookup_insert in Hk.
        destruct (decide (osName +:+ ip = k)); simplify_eq;
          [apply recognized_Skipped | eauto]. }
      destruct (IH a1' Hst1) as (Hg & Hst' & Hnew).
      split; [eapply grows_trans; eassumption |]. split; [exact Hst' |].
      intros os' ips' [E | Hin] Hip.
      * injection E as <- <-.
        destruct Hg as (_ & _ & _ & Hk & Hs & _). split.
        -- apply Hk. unfold a1'. cbn. rewrite lookup_insert_eq. eauto.
        -- apply Hs. unfold a1'. cbn. rewrite lookup_insert_eq. eauto.
      * eapply Hnew; eassumption.
    + destruct (IH a Hst) as (Hg & Hst' & Hnew).
      split; [exact Hg |]. split; [exact Hst' |].
      intros os' ips' [E | Hin] Hip.
      * injection E as <- <-. apply mem_In in Hip. congruence.
      * eapply Hnew; eassumption.
Qed.

Lemma alloc_keys_keyed (chs : list string) (oss : list (string * list string))
    (a : acc) :
  statuses_ok a ->
  grows a (alloc_keys chs oss a)
  /\ statuses_ok (alloc_keys chs oss a)
  /\ keyed chs oss (alloc_keys chs oss a).
Proof.
  revert a. induction chs as [| ip chs IH]; intros a Hst.
  - cbn [alloc_keys]. split; [apply grows_refl |]. split; [exact Hst |].
    split; [intros ? [] | intros ? ? ? _ _ []].
  - cbn [alloc_keys].
    match goal with
    | |- context [alloc_os ip oss ?a1] => set (a1' := a1)
    end.
    assert (Hg1 : grows a a1').
    { unfold grows, a1'. cbn. repeat split; auto; intros k Hk;
        apply is_Some_insert, Hk. }
    assert (Hst1 : statuses_ok a1').
    { destruct Hst as (H1 & H2 & H3). unfold statuses_ok, a1'. cbn.
      split; [exact H1 |]. split; [| exact H3].
      intros k s Hk. rewrite lookup_insert in Hk.
      destruct (decide (ip = k)); simplify_eq;
        [apply recognized_Skipped | eauto]. }
    destruct (alloc_os_keyed ip oss a1' Hst1) as (Hg2 & Hst2 & Hos).
    destruct (IH _ Hst2) as (Hg3 & Hst3 & [Hk1 Hk2]).
    split; [eapply grows_trans; [| exact Hg3];
            eapply grows_trans; eassumption |].
    split; [exact Hst3 |].
    pose proof (grows_trans _ _ _ Hg2 Hg3) as Hg.
    split.
    + intros ip' [<- | Hin]; [| apply Hk1, Hin].
      destruct Hg as (G1 & G2 & G3 & _).
      split; [| split]; [apply G1 | apply G2 | apply G3];
        unfold a1'; cbn; rewrite lookup_insert_eq; eauto.
    + intros osName ips ip' Hin Hip [<- | Hch]; [| eapply Hk2; eassumption].
      destruct (Hos _ _ Hin Hip) as [O1 O2].
      destruct Hg3 as (_ & _ & _ & G4 & G5 & _). auto.
Qed.

Lemma keyed_grows (chs : list string) (oss : list (string * list string))
    (a a' : acc) :
  keyed chs oss a -> grows a a' -> keyed chs oss a'.
Proof.
  intros [K1 K2] (G1 & G2 & G3 & G4 & G5 & _). split.
  - intros ip Hip. destruct (K1 _ Hip) as (? & ? & ?). auto.
  - intros osName ips ip H1 H2 H3. destruct (K2 _ _ _ H1 H2 H3). auto.
Qed.

Lemma statuses_ok_init (w : world) : statuses_ok (acc_init w).
Proof.
  unfold statuses_ok, acc_init. cbn.
  split; [reflexivity |]. split; intros k s Hk;
    rewrite lookup_empty in Hk; discriminate.
Qed.

(** The extraction of one file (lines 142-184) among the files that the
    discovery returned. *)
Lemma merge_file_expected (chs : list string)
    (oss : list (string * list string)) (osName : string)
    (inDB : gmap string bool) (filename : string) (a : acc) :
  keyed chs oss a -> statuses_ok a ->
  (forall tok, getIP filename = IPStr tok ->
     In tok chs /\ exists ips, In (osName, ips) oss /\ In tok ips) ->
  is_Some (inDB !! filename) -> is_Some (fs a !! (osName, filename)) ->
  run_expected (fun a' => grows a a' /\ statuses_ok a')
    (merge_file osName inDB filename a).
Proof.
  intros [K1 K2] (S1 & S2 & S3) Htok Hdb Hfs. unfold merge_file.
  destruct (item_is_Some _ _ Hdb) as (known & -> & _). cbn [bind].
  destruct known.
  { cbn. split; [apply grows_refl |]. repeat split; assumption. }
  unfold read_file. destruct Hfs as [raw Hraw]. rewrite Hraw. cbn [bind].
  destruct (getIP filename) as [tok | z] eqn:Eip; [| cbn; tauto].
  cbn [os_ip bind].
  destruct (Htok tok eq_refl) as (Hch & ips & Hoss & Hips).
  destruct (K1 _ Hch) as (Hck & Hcs & Hcn).
  destruct (K2 _ _ _ Hoss Hips Hch) as (Hok & Hos).
  destruct (item_is_Some _ _ Hok) as (key & -> & _). cbn [bind].
  eapply run_expected_bind.
  { apply expected_run_expected, expected_addModels. }
  intros ret Hret. cbn beta in Hret.
  destruct (item_is_Some _ _ Hos) as (oldO & -> & HoldO). cbn [bind].
  destruct (worseStatus_recognized_l oldO (ret_osStatus ret) (S3 _ _ HoldO))
    as (newO & -> & HnewO). cbn [bind].
  destruct (item_is_Some _ _ Hcs) as (oldC & -> & HoldC). cbn [bind].
  destruct (worseStatus_recognized_l oldC newO (S2 _ _ HoldC))
    as (newC & -> & HnewC). cbn [bind].
  destruct (worseStatus_recognized_l (test_result_status a) newC S1)
    as (newR & -> & HnewR). cbn [bind].
  destruct (item_is_Some _ _ Hck) as (ckey & Eck & _).
  destruct (item_is_Some _ _ Hcn) as (oldN & Ecn & _).
  destruct (negb (contains (all_os_objects a) _)).
  - rewrite Eck. cbn [bind]. rewrite Ecn. cbn [bind run_expected].
    split.
    + unfold grows. cbn. repeat split; auto; intros k Hk;
        try (apply is_Some_insert, Hk).
      destruct (String.eqb oldN EmptyString);
        [apply is_Some_insert, Hk | exact Hk].
    + unfold statuses_ok. cbn. split; [exact HnewR |].
      split; intros k s Hk; rewrite lookup_insert in Hk;
        destruct (decide _); simplify_eq; eauto.
  - cbn [bind]. rewrite Ecn. cbn [bind run_expected].
    split.
    + unfold grows. cbn. repeat split; auto; intros k Hk;
        try (apply is_Some_insert, Hk).
      destruct (String.eqb oldN EmptyString);
        [apply is_Some_insert, Hk | exact Hk].
    + unfold statuses_ok. cbn. split; [exact HnewR |].
      split; intros k s Hk; rewrite lookup_insert in Hk;
        destruct (decide _); simplify_eq; eauto.
Qed.

Lemma merge_files_expected (chs : list string)
    (oss : list (string * list string)) (osName : string)
    (inDB : gmap string bool) (filenames : list string) (a : acc) :
  keyed chs oss a -> statuses_ok a ->
  (forall f, In f filenames ->
     (forall tok, getIP f = IPStr tok ->
        In tok chs /\ exists ips, In (osName, ips) oss /\ In tok ips)
     /\ is_Some (inDB !! f) /\ is_Some (fs a !! (osName, f))) ->
  run_expected (fun a' => grows a a' /\ statuses_ok a')
    (merge_files osName inDB filenames a).
Proof.
  revert a. induction filenames as [| f l IH]; intros a Hk Hst Hf.
  - cbn. split; [apply grows_refl | exact Hst].
  - cbn [merge_files]. eapply run_expected_bind.
    + destruct (Hf f (or_introl eq_refl)) as (H1 & H2 & H3).
      apply (merge_file_expected chs oss); assumption.
    + intros a1 [Hg Hst1]. cbn beta.
      assert (IH' := IH a1 (keyed_grows _ _ _ _ Hk Hg) Hst1).
      destruct (merge_files osName inDB l a1) as [a2 | e |];
        cbn [run_expected] in *.
      * destruct IH' as [Hg2 Hst2].
        { intros f' Hf'. destruct (Hf f' (or_intror Hf')) as (H1 & H2 & H3).
          split; [exact H1 |]. split; [exact H2 |].
          destruct Hg as (_ & _ & _ & _ & _ & G). apply G, H3. }
        split; [eapply grows_trans; eassumption | exact Hst2].
      * apply IH'. intros f' Hf'.
        destruct (Hf f' (or_intror Hf')) as (H1 & H2 & H3).
        split; [exact H1 |]. split; [exact H2 |].
        destruct Hg as (_ & _ & _ & _ & _ & G). apply G, H3.
      * apply IH'. intros f' Hf'.
        destruct (Hf f' (or_intror Hf')) as (H1 & H2 & H3).
        split; [exact H1 |]. split; [exact H2 |].
        destruct Hg as (_ & _ & _ & _ & _ & G). apply G, H3.
Qed.

Lemma merge_oses_expected (chs : list string)
    (oss : list (string * list string)) (ds : list (string * discovery))
    (a : acc) :
  keyed chs oss a -> statuses_ok a ->
  (forall osName d f, In (osName, d) ds -> In f (d_files d) ->
     (forall tok, getIP f = IPStr tok ->
        In tok chs /\ exists ips, In (osName, ips) oss /\ In tok ips)
     /\ is_Some (d_inDB d !! f) /\ is_Some (fs a !! (osName, f))) ->
  run_expected (fun a' => grows a a' /\ statuses_ok a') (merge_oses ds a).
Proof.
  revert a. induction ds as [| [osName d] ds IH]; intros a Hk Hst Hf.
  - cbn. split; [apply grows_refl | exact Hst].
  - cbn [merge_oses]. eapply run_expected_bind.
    + apply (merge_files_expected chs oss); try assumption.
      intros f Hin. apply (Hf osName d f); [left; reflexivity | exact Hin].
    + intros a1 [Hg Hst1]. cbn beta.
      assert (Hf' : forall osName d f, In (osName, d) ds -> In f (d_files d) ->
                (forall tok, getIP f = IPStr tok ->
                   In tok chs /\ exists ips, In (osName, ips) oss /\ In tok ips)
                /\ is_Some (d_inDB d !! f) /\ is_Some (fs a1 !! (osName, f))).
      { intros os' d' f' Hin' Hf'.
        destruct (Hf os' d' f' (or_intror Hin') Hf') as (H1 & H2 & H3).
        split; [exact H1 |]. split; [exact H2 |].
        destruct Hg as (_ & _ & _ & _ & _ & G). apply G, H3. }
      assert (IH' := IH a1 (keyed_grows _ _ _ _ Hk Hg) Hst1 Hf').
      destruct (merge_oses ds a1) as [a2 | e |]; cbn [run_expected] in *;
        try exact IH'.
      destruct IH' as [Hg2 Hst2].
      split; [eapply grows_trans; eassumption | exact Hst2].
Qed.

Lemma chassis_records_keyed (chs : list string)
    (oss : list (string * list string)) (a : acc) :
  (forall ip, In ip chs ->
     is_Some (chassis_key a !! ip) /\ is_Some (chassis_status a !! ip)
     /\ is_Some (chassis_name a !! ip)) ->
  exists rs,
    chassis_records a chs = Ok rs
    /\ map c_ip rs = chs
    /\ Forall (fun r => chassis_key a !! c_ip r = Some (c_key r)
                        /\ chassis_status a !! c_ip r = Some (c_status r)
                        /\ chassis_name a !! c_ip r = Some (c_name r)) rs.
Proof.
  induction chs as [| ip chs IH]; intros Hk.
  - exists []. repeat split. constructor.
  - destruct (Hk ip (or_introl eq_refl)) as (H1 & H2 & H3).
    destruct IH as (rs & Hrs & Hmap & Hall).
    { intros ip' Hip'. apply Hk. right. exact Hip'. }
    cbn [chassis_records].
    destruct (item_is_Some _ _ H1) as (key & -> & Ekey).
    destruct (item_is_Some _ _ H2) as (status & Est & Estatus).
    destruct (item_is_Some _ _ H3) as (name & -> & Ename).
    cbn [bind]. rewrite Est. cbn [bind]. rewrite Hrs. cbn [bind].
    eexists. split; [reflexivity |]. cbn [map c_ip]. split; [congruence |].
    constructor; [cbn; auto | exact Hall].
Qed.

(** The tokens of the OSes and [all_chassis] (lines 105-112). *)
Lemma set_union_list_In (a b : list string) (t : string) :
  In t (set_union_list a b) <-> In t a \/ In t b.
Proof.
  unfold set_union_list. rewrite <- !list_elem_of_In, elem_of_elements.
  rewrite elem_of_union, !elem_of_list_to_set. reflexivity.
Qed.

Lemma fold_union_In (xs : list (list string)) (a : list string) (t : string) :
  In t (fold_left set_union_list xs a)
  <-> In t a \/ exists x, In x xs /\ In t x.
Proof.
  revert a. induction xs as [| x xs IH]; intros a.
  - cbn. split; [auto | intros [H | (x & [] & _)]; exact H].
  - cbn [fold_left]. rewrite IH, set_union_list_In. split.
    + intros [[H | H] | (y & Hy & Ht)]; [auto | |].
      * right. exists x. split; [left; reflexivity | exact H].
      * right. exists y. split; [right; exact Hy | exact Ht].
    + intros [H | (y & [<- | Hy] & Ht)]; [auto | auto |].
      right. exists y. auto.
Qed.

Lemma union_chassis_In (ip_per_os : list (list string)) (t : string) :
  In t (union_chassis ip_per_os) <-> exists x, In x ip_per_os /\ In t x.
Proof.
  unfold union_chassis. rewrite fold_union_In.
  destruct ip_per_os as [| x xs]; cbn [hd tl].
  - split; [intros [[] | (x & [] & _)] | intros (x & [] & _)].
  - split.
    + intros [H | (y & Hy & Ht)].
      * exists x. split; [left; reflexivity | exact H].
      * exists y. split; [right; exact Hy | exact Ht].
    + intros (y & [<- | Hy] & Ht); [auto |]. right. exists y. auto.
Qed.

Lemma tokens_In (files : list string) (f tok : string) :
  In f files -> getIP f = IPStr tok -> In tok (tokens files).
Proof.
  induction files as [| g files IH]; intros Hin Hip; [destruct Hin |].
  cbn [tokens]. destruct Hin as [-> | Hin].
  - rewrite Hip. left. reflexivity.
  - destruct (getIP g); [right |]; apply IH; assumption.
Qed.


Lemma discover_expected (w : world) (os_list : list string) :
  run_expected (fun _ => True) (discover w os_list).
Proof.
  induction os_list as [| o l IH]; [exact I |].
  cbn [discover].
  destruct (readable_dec (files w) o (listdir w o)) as [Hr | Hr].
  - rewrite getFilesAndIP_readable by exact Hr. cbn [bind].
    eapply run_expected_bind; [exact IH |]. intros ds _. exact I.
  - rewrite getFilesAndIP_unreadable by exact Hr. cbn. auto.
Qed.

Lemma discover_zip (w : world) (os_list : list string)
    (ds : list (string * discovery)) (osName : string) (d : discovery) :
  discover w os_list = Ok ds -> In (osName, d) ds ->
  In (osName, d_ip d) (zip os_list (map (fun p => d_ip (snd p)) ds))
  /\ In osName os_list
  /\ getFilesAndIP (files w) (listdir w osName) osName = Ok d.
Proof.
  intros Hds. apply discover_inv in Hds.
  induction Hds as [| o [o' d'] l ds [Ho Hd] _ IH]; intros Hin;
    [destruct Hin |].
  cbn [fst snd] in Ho, Hd. subst o'. cbn [map zip zip_with snd].
  destruct Hin as [E | Hin].
  - injection E as <- <-. split; [left; reflexivity |].
    split; [left; reflexivity | exact Hd].
  - destruct (IH Hin) as (H1 & H2 & H3).
    split; [right; exact H1 |]. split; [right; exact H2 | exact H3].
Qed.

(** What a run does, whatever the directories hold. *)
Lemma combine_results_expected (cfg : config) (w : world) :
  run_expected
    (fun r => match r with
              | None => True
              | Some m =>
                  statuses_ok (final m)
                  /\ map c_ip (chassis_written m) = all_chassis m
                  /\ Forall (fun r =>
                       chassis_key (final m) !! c_ip r = Some (c_key r)
                       /\ chassis_status (final m) !! c_ip r
                          = Some (c_status r)
                       /\ chassis_name (final m) !! c_ip r
                          = Some (c_name r)) (chassis_written m)
              end)
    (combine_results cfg w).
Proof.
  unfold combine_results.
  destruct (vms cfg) as [| o l] eqn:Evms.
  { cbn [length Nat.eqb andb negb].
    destruct (negb (bool_decide (is_Some (logic_results w)))); cbn; auto. }
  cbn [length Nat.eqb andb negb]. rewrite <- Evms.
  pose proof (discover_expected w (vms cfg)) as Hd.
  destruct (discover w (vms cfg)) as [ds | e |] eqn:Eds; cbn [bind];
    [| exact Hd | exact Hd].
  clear Hd.
  set (ipl := map (fun d : string * discovery => d_ip (snd d)) ds).
  set (chs := union_chassis ipl).
  set (oss := zip (vms cfg) ipl).
  destruct (alloc_keys_keyed chs oss (acc_init w) (statuses_ok_init w))
    as (Hg0 & Hst0 & Hk0).
  assert (Hm : run_expected (fun a' => grows (alloc_keys chs oss (acc_init w)) a'
                                       /\ statuses_ok a')
                 (merge_oses ds (alloc_keys chs oss (acc_init w)))).
  { apply (merge_oses_expected chs oss); try assumption.
    intros osName d f Hin Hf.
    destruct (discover_zip _ _ _ _ _ Eds Hin) as (Hz & Hos & Hget).
    apply getFilesAndIP_Ok_inv in Hget as [Hr Hdd].
    assert (Hf' : In f (List.filter (pending (files w) osName)
                          (listdir w osName)))
      by (rewrite Hdd in Hf; exact Hf).
    split; [| split].
    - intros tok Htok.
      assert (Hip : In tok (d_ip d)).
      { rewrite Hdd. cbn [d_ip]. eapply tokens_In; eassumption. }
      split.
      + apply union_chassis_In. exists (d_ip d). split; [| exact Hip].
        unfold ipl. apply in_map_iff. exists (osName, d). auto.
      + exists (d_ip d). auto.
    - rewrite Hdd. cbn [d_inDB]. rewrite lookup_fold_false.
      rewrite bool_decide_true by (apply list_elem_of_In, Hf'). eauto.
    - rewrite alloc_keys_fs. cbn [acc_init fs].
      apply filter_In in Hf' as [Hf' _].
      unfold readable in Hr. rewrite Forall_forall in Hr.
      apply Hr, list_elem_of_In, Hf'. }
  destruct (merge_oses ds (alloc_keys chs oss (acc_init w))) as [a1 | e |];
    cbn [bind run_expected] in *; [| exact Hm | exact Hm].
  destruct Hm as [Hg1 Hst1].
  destruct (chassis_records_keyed chs oss a1) as (rs & -> & Hmap & Hall).
  { intros ip Hip. destruct Hk0 as [K1 _].
    destruct (K1 _ Hip) as (H1 & H2 & H3).
    destruct Hg1 as (G1 & G2 & G3 & _). auto. }
  cbn [bind run_expected final chassis_written all_chassis]. auto.
Qed.

(** X16.  The merge ends, and the only exceptions that it raises are
    [FileNotFoundError] (a name of a result directory that cannot be read),
    [TypeError] (a file name without a token), and the [ValueError] and
    [UnboundLocalError] of the extraction, besides the [UnboundLocalError] of
    a run without an OS.  Every read of the dictionaries that the merge
    builds ([inDB], [os_key], [os_status], [chassis_key], [chassis_status],
    [chassis_name]) finds its key, and no call of [worseStatus] raises.  The
    statement is about the merge itself: the configuration is taken to hold
    the keys that line 39 to 41 read, every OS of the run to be a key of
    [vm_dicts], and the archive to be writable. *)
Theorem combine_results_raises_only (cfg : config) (w : world) :
  combine_results cfg w <> OutOfFuel
  /\ (forall e, combine_results cfg w = Raise e ->
        e = FileNotFoundError \/ e = TypeError \/ e = ValueError
        \/ e = UnboundLocalError).
Proof.
  pose proof (combine_results_expected cfg w) as He. split.
  - intros H. rewrite H in He. exact He.
  - intros e H. rewrite H in He. exact He.
Qed.

Lemma combine_results_raises_only_witness :
  combine_results run_centos stray_world = Raise TypeError
  /\ (TypeError = FileNotFoundError \/ TypeError = TypeError
      \/ TypeError = ValueError \/ TypeError = UnboundLocalError).
Proof.
  assert (H : combine_results run_centos stray_world = Raise TypeError)
    by (vm_compute; reflexivity).
  split; [exact H |].
  exact (proj2 (combine_results_raises_only run_centos stray_world)
           TypeError H).
Defined.

(** X17.  When the merge returns, every status that it holds is a token of
    the vocabulary: the status of the run, the status of every OS entry, and
    the status of every chassis record written, whatever the status texts of
    the result files are. *)
Theorem combine_results_statuses_recognized (cfg : config) (w : world)
    (m : merged) :
  combine_results cfg w = Ok (Some m) ->
  recognized (test_result_status (final m))
  /\ (forall k s, os_status (final m) !! k = Some s -> recognized s)
  /\ Forall (fun r => recognized (c_status r)) (chassis_written m).
Proof.
  intros H. pose proof (combine_results_expected cfg w) as He.
  rewrite H in He. cbn [run_expected] in He.
  destruct He as ((S1 & S2 & S3) & _ & Hall).
  split; [exact S1 |]. split; [exact S3 |].
  eapply Forall_impl; [exact Hall |].
  intros r (_ & Hs & _). cbn beta in Hs. eapply S2, Hs.
Qed.

Lemma combine_results_statuses_recognized_witness :
  exists m,
    combine_results run_two shared_world = Ok (Some m)
    /\ Forall (fun r => recognized (c_status r)) (chassis_written m).
Proof.
  assert (Hrun : exists m, combine_results run_two shared_world = Ok (Some m))
    by (eexists; vm_compute; reflexivity).
  destruct Hrun as [m Hrun]. exists m. split; [exact Hrun |].
  apply (combine_results_statuses_recognized run_two shared_world m Hrun).
Defined.

(** ** The chassis records written *)

Lemma combine_results_chassis (cfg : config) (w : world) (m : merged) :
  combine_results cfg w = Ok (Some m) ->
  map c_ip (chassis_written m) = all_chassis m
  /\ all_chassis m
     = union_chassis
         (map (fun os => tokens (List.filter (pending (files w) os)
                                   (listdir w os))) (vms cfg))
  /\ Forall (fun r =>
       chassis_key (final m) !! c_ip r = Some (c_key r)
       /\ chassis_status (final m) !! c_ip r = Some (c_status r)
       /\ chassis_name (final m) !! c_ip r = Some (c_name r))
       (chassis_written m).
Proof.
  intros H. pose proof (combine_results_expected cfg w) as He.
  rewrite H in He. cbn [run_expected] in He. destruct He as (_ & Hmap & Hall).
  split; [exact Hmap |]. split; [| exact Hall].
  apply combine_results_inv in H
    as (_ & ds & a1 & records & Hds & _ & _ & _ & -> & _).
  f_equal. apply discover_inv in Hds. clear -Hds.
  induction Hds as [| o [o' d] l ds [Ho Hd] _ IH]; [reflexivity |].
  cbn [fst snd] in Ho, Hd. apply getFilesAndIP_Ok_inv in Hd as [_ ->].
  cbn [map snd d_ip]. rewrite IH. reflexivity.
Qed.



Lemma merge_files_tokens (osName : string) (inDB : gmap string bool)
    (filenames : list string) (a a' : acc) :
  merge_files osName inDB filenames a = Ok a' ->
  forall f, In f filenames -> inDB !! f = Some false ->
            exists tok, getIP f = IPStr tok.
Proof.
  revert a. induction filenames as [| g l IH]; intros a H f Hin Hdb;
    [destruct Hin |].
  cbn [merge_files] in H. apply bind_Ok_inv in H as (a1 & H1 & H).
  destruct Hin as [<- | Hin]; [| eapply IH; eassumption].
  apply merge_file_inv in H1 as [[Ht _] | (_ & raw & tok & key & ret & oldO
    & newO & oldC & newC & _ & Hip & _)]; [congruence | eauto].
Qed.

Lemma tokens_length (files : list string) :
  (forall f, In f files -> exists tok, getIP f = IPStr tok) ->
  length (tokens files) = length files.
Proof.
  induction files as [| f files IH]; intros H; [reflexivity |].
  cbn [tokens]. destruct (H f (or_introl eq_refl)) as [tok ->].
  cbn [length]. rewrite IH; [reflexivity |].
  intros g Hg. apply H. right. exact Hg.
Qed.

(** X19.  With one OS in the run the tokens are not de-duplicated: when the
    merge returns it has written one chassis record for every file that it
    merged, in the order of the directory, with the token of the name of the
    file; two files of the same chassis give the same record twice. *)
Theorem single_os_chassis_per_file (cfg : config) (w : world) (m : merged)
    (osName : string) :
  vms cfg = [osName] ->
  combine_results cfg w = Ok (Some m) ->
  map c_ip (chassis_written m)
  = tokens (List.filter (pending (files w) osName) (listdir w osName))
  /\ length (chassis_written m)
     = length (List.filter (pending (files w) osName) (listdir w osName))
  /\ (forall r r', In r (chassis_written m) -> In r' (chassis_written m) ->
                   c_ip r = c_ip r' -> r = r').
Proof.
  intros Hvms H.
  destruct (combine_results_chassis _ _ _ H) as (Hmap & Hall & Hrec).
  rewrite Hvms in Hall. cbn [map union_chassis hd tl fold_left] in Hall.
  unfold union_chassis in Hall. cbn [hd tl fold_left] in Hall.
  assert (Hips : map c_ip (chassis_written m)
                 = tokens (List.filter (pending (files w) osName)
                             (listdir w osName))) by congruence.
  split; [exact Hips |]. split.
  - rewrite <- (length_map c_ip), Hips. apply tokens_length.
    apply combine_results_inv in H
      as (_ & ds & a1 & records & Hds & Hm & _).
    rewrite Hvms in Hds. cbn [discover] in Hds.
    apply bind_Ok_inv in Hds as (d & Hd & Hds). injection Hds as <-.
    cbn [merge_oses] in Hm. apply bind_Ok_inv in Hm as (a2 & Hm & _).
    apply getFilesAndIP_Ok_inv in Hd as [_ Hd].
    intros f Hf. eapply merge_files_tokens; [exact Hm | |].
    + rewrite Hd. exact Hf.
    + rewrite Hd. cbn [d_inDB]. rewrite lookup_fold_false.
      rewrite bool_decide_true by (apply list_elem_of_In, Hf). reflexivity.
  - intros r r' Hr Hr' E. rewrite Forall_forall in Hrec.
    apply list_elem_of_In in Hr, Hr'.
    destruct (Hrec _ Hr) as (K1 & S1 & N1).
    destruct (Hrec _ Hr') as (K2 & S2 & N2).
    rewrite E in K1, S1, N1.
    clear -E K1 K2 S1 S2 N1 N2.
    destruct r, r'. simpl in *. congruence.
Qed.

Lemma single_os_chassis_per_file_witness :
  exists m r,
    combine_results run_centos twice_world = Ok (Some m)
    /\ chassis_written m = [r; r] /\ c_ip r = "101_5".
Proof.
  assert (Hrun : exists m, combine_results run_centos twice_world = Ok (Some m))
    by (eexists; vm_compute; reflexivity).
  destruct Hrun as [m Hrun].
  destruct (single_os_chassis_per_file run_centos twice_world m "centos"
              eq_refl Hrun) as (Hips & Hlen & Hsame).
  assert (Hl : map c_ip (chassis_written m) = ["101_5"; "101_5"]).
  { rewrite Hips. vm_compute. reflexivity. }
  destruct (chassis_written m) as [| r [| r' [| r'' l]]] eqn:Ew;
    try discriminate Hl.
  injection Hl as H1 H2.
  assert (r = r') as <-.
  { apply Hsame; [left; reflexivity | right; left; reflexivity |].
    rewrite H1, H2. reflexivity. }
  exists m, r. split; [exact Hrun |]. split; [exact Ew | exact H1].
Defined.

(** ** The date of the run *)

Lemma combine_results_archive (cfg : config) (w : world) (m : merged) :
  combine_results cfg w = Ok (Some m) ->
  exists body,
    archive m
    = normalise (body +:+ date_object 1 (stringdate (now w)) (tags cfg)).
Proof.
  intros Hrun. unfold combine_results in Hrun.
  destruct (_ && _); [discriminate |].
  apply bind_Ok_inv in Hrun as ([[a chs] errs] & _ & Hrun).
  apply bind_Ok_inv in Hrun as (records & _ & Hrun).
  injection Hrun as <-. cbn [archive]. eexists.
  unfold stringdate. rewrite <- !app_assoc. reflexivity.
Qed.

Lemma slice_to_m1 (s : string) : slice_to s (-1) = all_but_last s.
Proof.
  unfold slice_to, slice, norm_index, all_but_last, len.
  change (0 <? 0) with false. change (-1 <? 0) with true. cbv iota.
  rewrite Z.min_l by lia. change (Z.to_nat 0) with O. rewrite drop_0.
  f_equal. lia.
Qed.

(** X20.  The date of the date record is the text of the clock up to its
    first '.', the start of the fraction of the second.  When the text of
    the clock has no '.', as [str] of a time on a whole second, the date is
    that text without its last character: the last digit of the seconds is
    lost.  The archive ends with the date record made of this date and of
    the tags of the run. *)
Theorem date_of_run (cfg : config) (w : world) (m : merged) :
  combine_results cfg w = Ok (Some m) ->
  (exists body,
     archive m
     = normalise (body +:+ date_object 1 (stringdate (now w)) (tags cfg)))
  /\ (forall a b, now w = a +:+ "." +:+ b -> find a "." = -1 ->
                  stringdate (now w) = a)
  /\ (find (now w) "." = -1 -> stringdate (now w) = all_but_last (now w)).
Proof.
  intros Hrun. split; [apply (combine_results_archive _ _ _ Hrun) |]. split.
  - intros a b E Ha. unfold stringdate. rewrite E.
    rewrite find_at; [apply slice_to_app | | apply prefix_app].
    apply no_start_first. clear -Ha. apply find_none_inv in Ha.
    induction a as [| c a IH]; [reflexivity |].
    rewrite no_start_cons, app_nil_r in Ha.
    apply andb_true_iff in Ha as [H1 H2].
    rewrite all_chars_cons, (IH H2), andb_true_r.
    unfold not_char. rewrite prefix_cons in H1.
    rewrite (Ascii.eqb_sym c "."). destruct (Ascii.eqb "." c); [| reflexivity].
    rewrite prefix_nil in H1. discriminate.
  - intros H. unfold stringdate. rewrite H. apply slice_to_m1.
Qed.

Lemma date_of_run_witness :
  exists m,
    combine_results run_two whole_second_world = Ok (Some m)
    /\ stringdate (now whole_second_world) = "2024-07-01 12:34:5".
Proof.
  assert (Hrun : exists m,
            combine_results run_two whole_second_world = Ok (Some m))
    by (eexists; vm_compute; reflexivity).
  destruct Hrun as [m Hrun]. exists m. split; [exact Hrun |].
  destruct (date_of_run run_two whole_second_world m Hrun) as (_ & _ & H).
  rewrite H; reflexivity.
Defined.

(** ** The tags that the teardown adds *)

Lemma sorted_difference_spec (a b : list Z) :
  StronglySorted Z.lt (sorted_difference a b)
  /\ forall x, x ∈ sorted_difference a b <-> x ∈ a /\ x ∉ b.
Proof.
  unfold sorted_difference.
  set (l := elements ((list_to_set a : gset Z) ∖ list_to_set b)).
  assert (Hperm : merge_sort Z.le l ≡ₚ l) by apply merge_sort_Permutation.
  assert (Hnd : NoDup (merge_sort Z.le l)).
  { apply (NoDup_Permutation_proper _ _ Hperm). unfold l.
    apply NoDup_elements. }
  assert (Hs : StronglySorted Z.le (merge_sort Z.le l)).
  { apply StronglySorted_merge_sort.
    - intros x y z. lia.
    - intros x y. lia. }
  split.
  - clear Hperm. induction Hs as [| x s Hs IH Hx]; [constructor |].
    apply NoDup_cons in Hnd as [Hin Hnd].
    constructor; [apply IH, Hnd |].
    rewrite Forall_forall in Hx |- *. intros y Hy.
    specialize (Hx _ Hy).
    assert (x <> y) by (intros ->; contradiction). lia.
  - intros x. split.
    + intros Hx. apply (elem_of_Permutation_proper _ _ _ Hperm) in Hx.
      unfold l in Hx.
      apply elem_of_elements, elem_of_difference in Hx as [H1 H2].
      rewrite elem_of_list_to_set in H1, H2. auto.
    + intros [H1 H2]. apply (elem_of_Permutation_proper _ _ _ Hperm).
      unfold l. apply elem_of_elements, elem_of_difference.
      rewrite !elem_of_list_to_set. auto.
Qed.

Lemma last_char_app (a : string) (c : ascii) :
  last_char (a +:+ String c EmptyString) = Some c.
Proof.
  induction a as [| x a IH]; [reflexivity |].
  rewrite app_cons. cbn [last_char].
  destruct (a +:+ String c EmptyString) eqn:E; [| exact IH].
  destruct a; discriminate.
Qed.

Lemma autogen_ioms_empty (c : tag_config) :
  (0 <? length (autogen_ioms c))%nat
  = if decide (autogen_diff_xmls c = []) then false else true.
Proof.
  destruct (sorted_difference_spec (autogen_diff_xmls c) []) as [_ Ha].
  fold (autogen_ioms c) in Ha.
  destruct (decide (autogen_diff_xmls c = [])) as [E | E].
  - apply Nat.ltb_ge.
    destruct (autogen_ioms c) as [| x l]; [cbn; lia |].
    exfalso. destruct (Ha x) as [H _].
    rewrite E in H. destruct H as [H _]; [left |]. inversion H.
  - apply Nat.ltb_lt.
    destruct (autogen_diff_xmls c) as [| x l]; [congruence |].
    destruct (autogen_ioms c) as [| y l']; [| cbn; lia].
    exfalso. destruct (Ha x) as [_ H].
    assert (Hx : x ∈ []) by (apply H; split; [left | apply not_elem_of_nil]).
    inversion Hx.
Qed.

(** X21.  The IOMs that the teardown reports as off (line 41) are the
    numbers of [initial_ioms] that are not the number of an active IOM, in
    ascending order and without repetition; the tag '--iomsoff_' is added
    exactly when there is one. *)
Theorem off_ioms_spec (c : tag_config) :
  StronglySorted Z.lt (off_ioms c)
  /\ (forall n, n ∈ off_ioms c
                <-> n ∈ initial_ioms c /\ n ∉ active_host_nums c)
  /\ ((0 <? length (off_ioms c))%nat = true
      <-> exists n, n ∈ initial_ioms c /\ n ∉ active_host_nums c).
Proof.
  destruct (sorted_difference_spec (initial_ioms c) (active_host_nums c))
    as [Hs Hin].
  fold (off_ioms c) in Hs, Hin.
  split; [exact Hs |]. split; [exact Hin |].
  rewrite Nat.ltb_lt. split.
  - intros Hlen. destruct (off_ioms c) as [| n l]; [cbn in Hlen; lia |].
    exists n. apply Hin. left.
  - intros (n & Hn). apply Hin in Hn.
    destruct (off_ioms c); [inversion Hn | cbn; lia].
Qed.

Lemma off_ioms_spec_witness :
  StronglySorted Z.lt (off_ioms tags_example)
  /\ 30 ∈ off_ioms tags_example
  /\ (0 <? length (off_ioms tags_example))%nat = true.
Proof.
  destruct (off_ioms_spec tags_example) as (H1 & H2 & H3).
  assert (H : 30 ∈ initial_ioms tags_example
              /\ 30 ∉ active_host_nums tags_example).
  { split.
    - right. right. left.
    - intros H. repeat (apply elem_of_cons in H as [H | H]; [lia |]).
      inversion H. }
  split; [exact H1 |]. split; [apply H2, H |]. apply H3. eauto.
Defined.

(** X22.  The teardown keeps the tags of the run and appends to them, first
    the tag of the expected count, then the tag of the actual count.  Every
    tag that it adds ends with the delimiter '#', except the tag
    'AUTOGENDIFF Detected', which comes last: the tags of the run end with
    '#' when no difference was detected, and with the bracket that closes
    the list of the tag otherwise. *)
Theorem teardown_tags_end (c : tag_config) :
  (exists rest,
     teardown_tags c
     = config_tags c +:+ EXPECTED_TEST_TAG (expected_test_count c)
         +:+ ACTUAL_TEST_TAG (actual_test_count c) +:+ rest)
  /\ (autogen_diff_xmls c = [] -> last_char (teardown_tags c) = Some "#"%char)
  /\ (autogen_diff_xmls c <> [] ->
      last_char (teardown_tags c) = Some "]"%char).
Proof.
  split.
  - unfold teardown_tags.
    destruct (0 <? length (off_ioms c))%nat;
      destruct (0 <? length (autogen_ioms c))%nat;
      eexists; rewrite ?app_assoc; try reflexivity.
    rewrite app_nil_r. reflexivity.
  - pose proof (autogen_ioms_empty c) as Hauto.
    unfold teardown_tags. rewrite Hauto.
    destruct (decide (autogen_diff_xmls c = [])); split; intros H;
      try contradiction.
    + destruct (0 <? length (off_ioms c))%nat.
      * unfold IOMS_OFF_TAG, TAG_DELIM. rewrite <- !app_assoc.
        apply last_char_app.
      * unfold ACTUAL_TEST_TAG, TAG_DELIM. rewrite <- !app_assoc.
        apply last_char_app.
    + unfold AUTOGEN_DIFF_TAG, str_list. rewrite <- !app_assoc.
      apply last_char_app.
Qed.

Lemma teardown_tags_end_witness :
  teardown_tags tags_example
  = "#--vms_linux_centos#--expected_12#--actual_11#--iomsoff_[30]#"
    +:+ "AUTOGENDIFF Detected: [15]"
  /\ last_char (teardown_tags tags_example) = Some "]"%char.
Proof.
  split; [vm_compute; reflexivity |].
  destruct (teardown_tags_end tags_example) as (_ & _ & H).
  apply H. discriminate.
Defined.
